(** * Multi-agent RAG workflow (src/agents/multi_agent_system.py)

    A shallow embedding of [MultiAgentRAGSystem]: the four agents, the two
    branch functions, the graph assembled by [_build_graph], the graph
    runtime that drives it and [execute].

    Conventions.
    - A Python [str] is a Rocq [string], one [ascii] per character: the
      model covers text whose code points are below 256, on which
      [str.lower], slicing and [in] are reproduced exactly.
    - A Python [int] is a [Z].
    - The [metadata] dict is a [gmap string string]; lists are lists.
    - The language-model client and the retrieval function are oracles
      of the system object: the reply to the n-th call, given its argument,
      is either an exception or a value.  The agents run in a state and
      exception monad over a [World] that counts and logs these calls.
    - The compiled graph is run by [run_from], one node per step, under a
      step budget [recursion_limit]; [execute] takes the budget as an
      argument, since the source leaves it to the graph library, whose
      default is [default_recursion_limit]. *)

From Stdlib Require Import ZArith Ascii String DecimalString DecimalN Sorted.
From stdpp Require Import base option list gmap strings.

Open Scope string_scope.
Open Scope Z_scope.

(** ** Python strings *)

Module PyStr.

(** Code points whose [str.lower] differs from the character itself, in
    the range below 256: A-Z and the Latin-1 capitals U+00C0..U+00DE
    without the multiplication sign U+00D7. *)
Definition is_upper (c : ascii) : bool :=
  let n := nat_of_ascii c in
  ((65 <=? n) && (n <=? 90))%nat
  || ((192 <=? n) && (n <=? 222) && negb (n =? 215))%nat.

Definition lower_char (c : ascii) : ascii :=
  if is_upper c then ascii_of_nat (nat_of_ascii c + 32) else c.

(** [s.lower()] *)
Fixpoint lower (s : string) : string :=
  match s with
  | EmptyString => EmptyString
  | String c s' => String (lower_char c) (lower s')
  end.

(** [s.startswith(p)] *)
Fixpoint startswith (p s : string) : bool :=
  match p, s with
  | EmptyString, _ => true
  | String _ _, EmptyString => false
  | String a p', String b s' => Ascii.eqb a b && startswith p' s'
  end.

(** [needle in hay] *)
Fixpoint contains (needle hay : string) : bool :=
  startswith needle hay ||
  match hay with
  | EmptyString => false
  | String _ hay' => contains needle hay'
  end.

(** [sep.join(parts)] *)
Fixpoint join (sep : string) (parts : list string) : string :=
  match parts with
  | [] => ""
  | [p] => p
  | p :: rest => p +:+ sep +:+ join sep rest
  end.

(** [str(n)] for a non-negative index *)
Definition of_nat (n : nat) : string :=
  NilEmpty.string_of_uint (Nat.to_uint n).

(** [s[:n]] *)
Definition slice_to (n : nat) (s : string) : string := substring 0 n s.

(** *** Case-insensitive occurrence, stated without [lower]

    [ci_char c d]: the text character [c] is the pattern character [d],
    or [d] is a small ASCII letter and [c] is its capital. *)
Definition ci_char (c d : ascii) : Prop :=
  c = d \/
  ((97 <= nat_of_ascii d <= 122)%nat /\ nat_of_ascii d = (nat_of_ascii c + 32)%nat).

Fixpoint ci_equal (w p : string) : Prop :=
  match w, p with
  | EmptyString, EmptyString => True
  | String c w', String d p' => ci_char c d /\ ci_equal w' p'
  | _, _ => False
  end.

(** [text] has a window that equals [pattern] up to the case of letters. *)
Definition occurs_nocase (pattern text : string) : Prop :=
  exists pre w post, text = pre +:+ w +:+ post /\ ci_equal w pattern.

(** Patterns made of small ASCII letters only. *)
Fixpoint small_letters (p : string) : bool :=
  match p with
  | EmptyString => true
  | String d p' =>
      ((97 <=? nat_of_ascii d) && (nat_of_ascii d <=? 122))%nat && small_letters p'
  end.

(** *** Texts made of parts, stated by positions and lengths

    [occurs_at pos piece s]: the characters of [s] from position [pos] on,
    as many as [piece] has, are [piece]. *)
Definition occurs_at (pos : nat) (piece s : string) : Prop :=
  substring pos (String.length piece) s = piece.

(** Where the part at position [i] starts in a text of [parts] with a
    separator of [sep] characters between neighbours. *)
Definition part_start (sep : nat) (parts : list string) (i : nat) : nat :=
  (list_sum (map String.length (take i parts)) + sep * i)%nat.

(** [text] consists of [parts], in their order, with [sep] between
    neighbours, and of nothing else: every part is found at its place, [sep]
    is found after every part but the last, and these make up the length of
    [text]. *)
Definition made_of (sep : string) (parts : list string) (text : string) : Prop :=
  String.length text =
    (list_sum (map String.length parts)
     + String.length sep * Nat.pred (List.length parts))%nat /\
  forall (i : nat) (part : string),
    parts !! i = Some part ->
    occurs_at (part_start (String.length sep) parts i) part text /\
    ((S i < List.length parts)%nat ->
     occurs_at (part_start (String.length sep) parts i + String.length part) sep text).

End PyStr.

(** ** Data model *)

(** langchain_core.messages: role-tagged messages. *)
Inductive Message :=
| SystemMessage (text : string)
| HumanMessage (text : string)
| AIMessage (text : string).

(** [m.content] *)
Definition content (m : Message) : string :=
  match m with
  | SystemMessage t | HumanMessage t | AIMessage t => t
  end.

(** Exceptions that can leave a run.  A failure of the language model or of
    the retrieval function carries the dependency's own error value; the
    other two belong to the graph runtime. *)
Inductive Exception :=
| DependencyError (e : string)
| GraphRecursionError
| GraphKeyError (k : string).

Inductive Outcome (A : Type) :=
| Ok (a : A)
| Raise (e : Exception).
Arguments Ok {A} a.
Arguments Raise {A} e.

Section Model.

(** [float] is the type of relevance scores, [float_str] its rendering
    inside an f-string, [Any] the type of metadata values of a search
    result. *)
Context {float Any : Type}.
Variable float_str : float -> string.

(** src/domain/models.py: SearchResult *)
Record SearchResult := {
  chunk_id : N;
  document_id : N;
  sr_content : string;
  sr_score : float;
  sr_metadata : gmap string Any
}.

(** The dict that [query_agent] stores for each search result. *)
Record ResultDict := {
  r_content : string;
  r_score : float;
  r_metadata : gmap string Any
}.

(** class GraphState(TypedDict) *)
Record GraphState := {
  messages : list Message;
  query : string;
  search_results : list ResultDict;
  answer : string;
  current_agent : string;
  metadata : gmap string string;
  iteration : Z
}.

(** *** The world outside the workflow *)

Inductive Call :=
| LlmCall (prompt : list Message) (reply : string + Message)
| SearchCall (text : string) (reply : string + list SearchResult).

(** [llm_calls] and [search_calls] count the calls made so far to each
    dependency; [calls] logs them with their replies; [trace] logs every
    completed node of the graph with the state it returned. *)
Record World := {
  llm_calls : nat;
  search_calls : nat;
  calls : list Call;
  trace : list (string * GraphState)
}.

Definition M (A : Type) : Type := World -> Outcome A * World.

Definition ret {A} (a : A) : M A := fun w => (Ok a, w).

Definition raise {A} (e : Exception) : M A := fun w => (Raise e, w).

Definition bind {A B} (m : M A) (k : A -> M B) : M B :=
  fun w =>
    match m w with
    | (Ok a, w') => k a w'
    | (Raise e, w') => (Raise e, w')
    end.

Notation "'do' x <- m ; k" := (bind m (fun x => k))
  (at level 10, x name, m at level 100, k at level 200).

(** class MultiAgentRAGSystem: the fields set by [__init__].  The n-th
    call to a dependency yields [inl e] when it raises [e]. *)
Record MultiAgentRAGSystem := {
  llm : nat -> list Message -> string + Message;
  vector_search_func : nat -> string -> string + list SearchResult;
  max_iterations : Z
}.

(** The world after one more call to the language model. *)
Definition log_llm_call (w : World) (msgs : list Message) (reply : string + Message) : World :=
  {| llm_calls := S (llm_calls w);
     search_calls := search_calls w;
     calls := calls w ++ [LlmCall msgs reply];
     trace := trace w |}.

(** The world after one more call to the retrieval function. *)
Definition log_search_call (w : World) (text : string)
    (reply : string + list SearchResult) : World :=
  {| llm_calls := llm_calls w;
     search_calls := S (search_calls w);
     calls := calls w ++ [SearchCall text reply];
     trace := trace w |}.

(** The world after one more completed node. *)
Definition log_step (w : World) (node : string) (state : GraphState) : World :=
  {| llm_calls := llm_calls w;
     search_calls := search_calls w;
     calls := calls w;
     trace := trace w ++ [(node, state)] |}.

(** [await self.llm.ainvoke(messages)] *)
Definition llm_ainvoke (self : MultiAgentRAGSystem) (msgs : list Message) : M Message :=
  fun w =>
    let reply := llm self (llm_calls w) msgs in
    match reply with
    | inl e => (Raise (DependencyError e), log_llm_call w msgs reply)
    | inr response => (Ok response, log_llm_call w msgs reply)
    end.

(** [await self.vector_search_func(query)] *)
Definition vector_search (self : MultiAgentRAGSystem) (text : string) : M (list SearchResult) :=
  fun w =>
    let reply := vector_search_func self (search_calls w) text in
    match reply with
    | inl e => (Raise (DependencyError e), log_search_call w text reply)
    | inr results => (Ok results, log_search_call w text reply)
    end.

(** *** Prompts *)

Definition dq : string := String (ascii_of_nat 34) "".
Definition nl : string := String (ascii_of_nat 10) "".

Definition router_system_prompt : string :=
  "You are a routing agent. Analyze the user's query and determine:" +:+ nl +:+
  "        1. Does it require searching a knowledge base (RAG)?" +:+ nl +:+
  "        2. Or can it be answered directly (general knowledge)?" +:+ nl +:+
  "        " +:+ nl +:+
  "        Respond with JSON: {" +:+ dq +:+ "route" +:+ dq +:+ ": " +:+ dq +:+ "query" +:+ dq +:+
  " or " +:+ dq +:+ "direct" +:+ dq +:+ ", " +:+ dq +:+ "reasoning" +:+ dq +:+ ": " +:+
  dq +:+ "..." +:+ dq +:+ "}" +:+ nl +:+
  "        ".

Definition evaluation_system_prompt : string :=
  "You are an evaluation agent. Assess if the search results " +:+ nl +:+
  "        are sufficient to answer the user's query. Consider:" +:+ nl +:+
  "        1. Relevance scores" +:+ nl +:+
  "        2. Content quality" +:+ nl +:+
  "        3. Coverage of the query" +:+ nl +:+
  "        " +:+ nl +:+
  "        Respond with JSON: {" +:+ dq +:+ "sufficient" +:+ dq +:+ ": true/false, " +:+
  dq +:+ "reasoning" +:+ dq +:+ ": " +:+ dq +:+ "..." +:+ dq +:+ "}" +:+ nl +:+
  "        ".

Definition response_system_prompt : string :=
  "You are a helpful AI assistant. Use the provided context " +:+ nl +:+
  "        to answer the user's query. Be precise and cite sources when possible." +:+ nl +:+
  "        If the context doesn't contain relevant information, say so." +:+ nl +:+
  "        ".

(** [enumerate(l)] *)
Fixpoint enumerate_from {A} (i : nat) (l : list A) : list (nat * A) :=
  match l with
  | [] => []
  | x :: l' => (i, x) :: enumerate_from (S i) l'
  end.

Definition enumerate {A} (l : list A) : list (nat * A) := enumerate_from 0 l.

(** *** Agents *)

(** AgentType values *)
Definition AgentType_ROUTER : string := "router".
Definition AgentType_QUERY : string := "query".
Definition AgentType_EVALUATION : string := "evaluation".

Definition router_messages (state : GraphState) : list Message :=
  [SystemMessage router_system_prompt;
   HumanMessage ("Query: " +:+ query state)].

Definition router_agent (self : MultiAgentRAGSystem) (state : GraphState) : M GraphState :=
  do response <- llm_ainvoke self (router_messages state) ;
  ret {| messages := messages state ++ [response];
         query := query state;
         search_results := search_results state;
         answer := answer state;
         current_agent := AgentType_ROUTER;
         metadata := <["router_decision" := content response]> (metadata state);
         iteration := iteration state |}.

Definition query_agent (self : MultiAgentRAGSystem) (state : GraphState) : M GraphState :=
  let iteration0 := iteration state in
  do results <- vector_search self (query state) ;
  ret {| messages := messages state;
         query := query state;
         search_results :=
           map (fun r => {| r_content := sr_content r;
                            r_score := sr_score r;
                            r_metadata := sr_metadata r |}) results;
         answer := answer state;
         current_agent := AgentType_QUERY;
         metadata := metadata state;
         iteration := iteration0 + 1 |}.

(** One line of the evaluator's summary. *)
Definition result_line (ir : nat * ResultDict) : string :=
  "Result " +:+ PyStr.of_nat (fst ir + 1) +:+ " (score: " +:+ float_str (r_score (snd ir)) +:+
  "): " +:+ PyStr.slice_to 200 (r_content (snd ir)) +:+ "...".

Definition results_summary (results : list ResultDict) : string :=
  PyStr.join nl (map result_line (enumerate (take 3 results))).

Definition evaluation_messages (state : GraphState) : list Message :=
  [SystemMessage evaluation_system_prompt;
   HumanMessage ("Query: " +:+ query state +:+ nl +:+ nl +:+ "Results:" +:+ nl +:+
                 results_summary (search_results state))].

Definition evaluation_agent (self : MultiAgentRAGSystem) (state : GraphState) : M GraphState :=
  do response <- llm_ainvoke self (evaluation_messages state) ;
  ret {| messages := messages state ++ [response];
         query := query state;
         search_results := search_results state;
         answer := answer state;
         current_agent := AgentType_EVALUATION;
         metadata := <["evaluation" := content response]> (metadata state);
         iteration := iteration state |}.

(** One labelled source of the synthesizer's context. *)
Definition source_block (ir : nat * ResultDict) : string :=
  "[Source " +:+ PyStr.of_nat (fst ir + 1) +:+ "] (Score: " +:+ float_str (r_score (snd ir)) +:+
  ")" +:+ nl +:+ r_content (snd ir).

(** The list comprehension of [response_agent]. *)
Definition context_blocks (results : list ResultDict) : list string :=
  map source_block (enumerate (take 5 results)).

Definition build_context (results : list ResultDict) : string :=
  PyStr.join (nl +:+ nl) (context_blocks results).

Definition response_messages (state : GraphState) : list Message :=
  [SystemMessage response_system_prompt;
   HumanMessage ("Context:" +:+ nl +:+ build_context (search_results state) +:+ nl +:+ nl +:+
                 "Query: " +:+ query state)].

Definition response_agent (self : MultiAgentRAGSystem) (state : GraphState) : M GraphState :=
  do response <- llm_ainvoke self (response_messages state) ;
  ret {| messages := messages state ++ [response];
         query := query state;
         search_results := search_results state;
         answer := content response;
         current_agent := "response";
         metadata := metadata state;
         iteration := iteration state |}.

(** *** Branch functions *)

Definition _route_decision (self : MultiAgentRAGSystem) (state : GraphState) : string :=
  let decision := default "" (metadata state !! "router_decision") in
  if PyStr.contains "direct" (PyStr.lower decision) then "direct" else "query".

Definition _evaluation_decision (self : MultiAgentRAGSystem) (state : GraphState) : string :=
  if iteration state >=? max_iterations self then "respond"
  else
    let evaluation := default "" (metadata state !! "evaluation") in
    if PyStr.contains "sufficient" (PyStr.lower evaluation)
       && PyStr.contains "true" (PyStr.lower evaluation)
    then "respond"
    else "refine".

(** *** The graph

    langgraph's [StateGraph]: named nodes, an entry point, and for each
    node either one outgoing edge or a branch function with the dict that
    maps its labels to nodes. *)

Definition END : string := "__end__".

Inductive Edges :=
| Edge (target : string)
| ConditionalEdges (path : GraphState -> string) (path_map : gmap string string).

Record StateGraph := {
  nodes : gmap string (GraphState -> M GraphState);
  entry_point : string;
  edges : gmap string Edges
}.

Definition _build_graph (self : MultiAgentRAGSystem) : StateGraph :=
  {| nodes :=
       <["response_agent" := response_agent self]>
       (<["evaluation_agent" := evaluation_agent self]>
       (<["query_agent" := query_agent self]>
       (<["router_agent" := router_agent self]> ∅)));
     entry_point := "router_agent";
     edges :=
       <["response_agent" := Edge END]>
       (<["evaluation_agent" :=
            ConditionalEdges (_evaluation_decision self)
              (<["respond" := "response_agent"]> (<["refine" := "query_agent"]> ∅))]>
       (<["query_agent" := Edge "evaluation_agent"]>
       (<["router_agent" :=
            ConditionalEdges (_route_decision self)
              (<["direct" := "response_agent"]> (<["query" := "query_agent"]> ∅))]> ∅))) |}.

(** [self.graph], set by [__init__]. *)
Definition graph (self : MultiAgentRAGSystem) : StateGraph := _build_graph self.

(** The runtime appends each completed node to the trace. *)
Definition record_step (node : string) (state : GraphState) : M unit :=
  fun w => (Ok tt, log_step w node state).

(** The node that follows [node] once it has returned [state]: the target
    of its edge, or the entry of its branch dict under the label that the
    branch function computes.  A node without outgoing edge ends the run. *)
Definition successor (g : StateGraph) (node : string) (state : GraphState) : M string :=
  match edges g !! node with
  | None => ret END
  | Some (Edge target) => ret target
  | Some (ConditionalEdges path path_map) =>
      match path_map !! path state with
      | None => raise (GraphKeyError (path state))
      | Some target => ret target
      end
  end.

(** One step of the compiled graph: run the node, then pick its successor. *)
Definition step (g : StateGraph) (node : string) (state : GraphState)
    : M (string * GraphState) :=
  match nodes g !! node with
  | None => raise (GraphKeyError node)
  | Some agent =>
      do state' <- agent state ;
      do _ <- record_step node state' ;
      do target <- successor g node state' ;
      ret (target, state')
  end.

(** The compiled graph's runtime, from the node that is about to run.  The
    runtime looks at the step budget before it looks for work: every turn of
    its loop uses one unit of [recursion_limit], also the turn that finds the
    run at [END]; with no unit left it raises [GraphRecursionError].  A run
    of [k] nodes thus returns only under a budget of at least [k + 1], and
    under a budget of exactly [k] it raises after its last node has run. *)
Fixpoint run_from (g : StateGraph) (recursion_limit : nat) (node : string)
    (state : GraphState) : M GraphState :=
  match recursion_limit with
  | O => raise GraphRecursionError
  | S limit =>
      if String.eqb node END then ret state
      else
        do next <- step g node state ;
        run_from g limit (fst next) (snd next)
  end.

(** The budget of a graph that is invoked without configuration, as
    [execute] does. *)
Definition default_recursion_limit : nat := 25.

(** [await graph.ainvoke(initial_state)] *)
Definition ainvoke (g : StateGraph) (recursion_limit : nat) (initial_state : GraphState)
    : M GraphState :=
  run_from g recursion_limit (entry_point g) initial_state.

(** The dict returned by [execute]. *)
Record ExecuteResult := {
  res_answer : string;
  res_sources : list ResultDict;
  res_metadata : gmap string string;
  res_iterations : Z
}.

Definition initial_state (text : string) : GraphState :=
  {| messages := [];
     query := text;
     search_results := [];
     answer := "";
     current_agent := "";
     metadata := ∅;
     iteration := 0 |}.

Definition execute (self : MultiAgentRAGSystem) (recursion_limit : nat) (text : string)
    : M ExecuteResult :=
  do final_state <- ainvoke (graph self) recursion_limit (initial_state text) ;
  ret {| res_answer := answer final_state;
         res_sources := search_results final_state;
         res_metadata := metadata final_state;
         res_iterations := iteration final_state |}.

(** A run starts with empty logs, after [n] earlier calls to the language
    model and [m] to the retrieval function. *)
Definition start_world (n m : nat) : World :=
  {| llm_calls := n; search_calls := m; calls := []; trace := [] |}.

(** The nodes that follow the router and the evaluator, through their
    branch dicts. *)
Definition route_target (self : MultiAgentRAGSystem) (state : GraphState) : string :=
  if String.eqb (_route_decision self state) "direct"
  then "response_agent" else "query_agent".

Definition evaluation_target (self : MultiAgentRAGSystem) (state : GraphState) : string :=
  if String.eqb (_evaluation_decision self state) "respond"
  then "response_agent" else "query_agent".

End Model.

(** * Vocabulary of the properties *)

Section Vocabulary.

Context {float Any : Type}.
Variable float_str : float -> string.

Abbreviation System := (@MultiAgentRAGSystem float Any).
Abbreviation State := (@GraphState float Any).
Abbreviation W := (@World float Any).

Import PyStr.

(** A step of a node: its agent, the trace entry, the successor. *)
Definition step_of (agent : State -> W -> Outcome State * W) (node : string)
    (target : State -> string) (state : State) (w : W) : Outcome (string * State) * W :=
  match agent state w with
  | (Ok state', w') => (Ok (target state', state'), log_step w' node state')
  | (Raise e, w') => (Raise e, w')
  end.

(** The names a run can be at. *)
Definition graph_node (node : string) : Prop :=
  node = "router_agent" \/ node = "query_agent" \/ node = "evaluation_agent" \/
  node = "response_agent" \/ node = END.

(** Along a trace that starts with the counter at [before], every node
    leaves the counter as it found it, except the retriever, which adds
    exactly one. *)
Fixpoint counter_steps (before : Z) (t : list (string * State)) : Prop :=
  match t with
  | [] => True
  | (node, state) :: t' =>
      iteration state =
        (if String.eqb node "query_agent" then before + 1 else before) /\
      counter_steps (iteration state) t'
  end.

(** The counter after a trace that starts with the counter at [before]. *)
Definition last_counter (before : Z) (t : list (string * State)) : Z :=
  match last t with
  | Some entry => iteration (snd entry)
  | None => before
  end.

(** Neither dependency ever raises. *)
Definition never_fails (self : System) : Prop :=
  (forall k msgs, exists response, llm self k msgs = inr response) /\
  (forall k text, exists results, vector_search_func self k text = inr results).

(** The evaluation text is judged sufficient. *)
Definition judged_sufficient (text : string) : Prop :=
  occurs_nocase "sufficient" text /\ occurs_nocase "true" text.

(** Every reply of the language model to an evaluator prompt is judged
    insufficient. *)
Definition always_insufficient (self : System) : Prop :=
  forall k (state : State) response,
    llm self k (evaluation_messages float_str state) = inr response ->
    ~ judged_sufficient (content response).

(** [k] retrieval-evaluation cycles, as (node, counter) pairs, when the
    counter is [from] before the first of them. *)
Fixpoint cycles (from : Z) (k : nat) : list (string * Z) :=
  match k with
  | O => []
  | S k' =>
      ("query_agent", from + 1) :: ("evaluation_agent", from + 1) :: cycles (from + 1) k'
  end.

(** A trace, reduced to its nodes and counter values. *)
Definition summary (t : list (string * State)) : list (string * Z) :=
  map (fun entry => (fst entry, iteration (snd entry))) t.

(** No entry of the trace is the synthesizer, and every state has an empty
    answer. *)
Definition answer_unset (t : list (string * State)) : Prop :=
  Forall (fun entry => fst entry <> "response_agent" /\ answer (snd entry) = "") t.

(** The run has ended through the synthesizer: its entry is the last of the
    trace, the answer is unset before it, and the answer of [final] is the
    content of the reply to the last call, a call of the language model with
    the synthesizer's prompt. *)
Definition answered_by_synthesizer (final : State) (w : W) : Prop :=
  exists t (prev : State) reply,
    trace w = (t ++ [("response_agent", final)])%list /\
    answer_unset t /\
    last (calls w) = Some (LlmCall (response_messages float_str prev) (inr reply)) /\
    answer final = content reply.

(** The label of the result at 0-based position [i]. *)
Definition source_label (i : nat) (r : @ResultDict float Any) : string :=
  "[Source " +:+ of_nat (i + 1) +:+ "] (Score: " +:+ float_str (r_score r) +:+ ")" +:+
  nl +:+ r_content r.

(** The error a logged call raised, if it did. *)
Definition call_error (c : @Call float Any) : option string :=
  match c with
  | LlmCall _ (inl e) => Some e
  | SearchCall _ (inl e) => Some e
  | _ => None
  end.

Definition all_calls_returned (cs : list (@Call float Any)) : Prop :=
  Forall (fun c => call_error c = None) cs.

(** The last logged call raised [e], and no call before it raised. *)
Definition aborted_by (e : string) (w : W) : Prop :=
  exists cs c,
    calls w = (cs ++ [c])%list /\ all_calls_returned cs /\ call_error c = Some e.

End Vocabulary.

(** * Example systems

    Scores are kept as their printed form and metadata values as strings. *)

Definition example_results : list (@SearchResult string string) :=
  [ {| chunk_id := 1; document_id := 7; sr_content := "Document X is about tides.";
       sr_score := "0.91"; sr_metadata := ∅ |};
    {| chunk_id := 2; document_id := 7; sr_content := "It was written in 1998.";
       sr_score := "0.84"; sr_metadata := ∅ |} ].

(** The router asks for retrieval and the evaluator is never satisfied. *)
Definition refining_system (N : Z) : @MultiAgentRAGSystem string string :=
  {| llm := fun n _ =>
       inr (AIMessage (if Nat.eqb n 0 then "route: query" else "sufficient: false"));
     vector_search_func := fun _ _ => inr example_results;
     max_iterations := N |}.

(** The router answers that the query needs no retrieval. *)
Definition direct_system : @MultiAgentRAGSystem string string :=
  {| llm := fun n _ =>
       inr (AIMessage (if Nat.eqb n 0
                       then "route: direct, reasoning: general knowledge"
                       else "Photosynthesis turns light into chemical energy."));
     vector_search_func := fun _ _ => inr example_results;
     max_iterations := 10 |}.

(** The retrieval function is down. *)
Definition failing_system : @MultiAgentRAGSystem string string :=
  {| llm := fun _ _ => inr (AIMessage "route: query");
     vector_search_func := fun _ _ => inl "connection refused";
     max_iterations := 10 |}.

(** Twelve results, for the synthesizer's context. *)
Definition twelve_results : list (@ResultDict string string) :=
  replicate 12 {| r_content := "text"; r_score := "0.5"; r_metadata := ∅ |}.

(** * Further vocabulary: what a run leaves in the logs *)

Section RunVocabulary.

Context {float Any : Type}.

(** The replies of the language model in a call log, oldest first. *)
Fixpoint llm_replies (cs : list (@Call float Any)) : list Message :=
  match cs with
  | [] => []
  | LlmCall _ (inr response) :: cs' => response :: llm_replies cs'
  | _ :: cs' => llm_replies cs'
  end.

(** The result lists returned by the retrieval function, oldest first. *)
Fixpoint search_replies (cs : list (@Call float Any)) : list (list (@SearchResult float Any)) :=
  match cs with
  | [] => []
  | SearchCall _ (inr results) :: cs' => results :: search_replies cs'
  | _ :: cs' => search_replies cs'
  end.

(** The texts the retrieval function was called with, oldest first. *)
Fixpoint search_texts (cs : list (@Call float Any)) : list string :=
  match cs with
  | [] => []
  | SearchCall text _ :: cs' => text :: search_texts cs'
  | _ :: cs' => search_texts cs'
  end.

(** The dict that [query_agent] keeps of a search result. *)
Definition to_result_dict (r : @SearchResult float Any) : @ResultDict float Any :=
  {| r_content := sr_content r; r_score := sr_score r; r_metadata := sr_metadata r |}.

(** The metadata after the router reply and the evaluator replies that
    followed it. *)
Definition metadata_after (router_reply : Message) (evaluations : list Message)
    : gmap string string :=
  foldl (fun m response => <["evaluation" := content response]> m)
        (<["router_decision" := content router_reply]> ∅) evaluations.

(** Where a run stands before [node] runs: 1 after the router on the way
    to the retriever or the synthesizer, 2 at the end, 0 otherwise. *)
Definition phase (node : string) : Z :=
  if String.eqb node "query_agent" || String.eqb node "response_agent" then 1
  else if String.eqb node END then 2
  else 0.

(** The search results a state holds after the calls [cs]: those of the
    last retrieval that returned, none before the first. *)
Definition results_of (cs : list (@Call float Any)) : list (@ResultDict float Any) :=
  match last (search_replies cs) with
  | Some results => map to_result_dict results
  | None => []
  end.

(** The router reply asks for the direct path. *)
Definition says_direct (router_reply : Message) : Prop :=
  PyStr.occurs_nocase "direct" (content router_reply).

(** What a state holds while the run is between the router and the
    synthesizer, after the router reply [r0] and the evaluator replies
    [evals]. *)
Definition in_progress (w : @World float Any) (state : @GraphState float Any)
    (r0 : Message) (evals : list Message) : Prop :=
  llm_replies (calls w) = r0 :: evals /\
  messages state = r0 :: evals /\
  metadata state = metadata_after r0 evals /\
  answer state = "".

(** What the final state holds, after the router reply [r0], the evaluator
    replies [evals] and the synthesizer reply [rf]. *)
Definition completed (w : @World float Any) (state : @GraphState float Any)
    (r0 : Message) (evals : list Message) (rf : Message) : Prop :=
  llm_replies (calls w) = (r0 :: evals ++ [rf])%list /\
  messages state = (r0 :: evals ++ [rf])%list /\
  metadata state = metadata_after r0 evals /\
  answer state = content rf /\
  search_results state = results_of (calls w) /\
  Z.of_nat (length evals) = iteration state /\
  Z.of_nat (length (search_replies (calls w))) = iteration state /\
  (iteration state = 0 <-> says_direct r0).

(** The evaluator replies [evals] all sent the run back to the retriever:
    each is judged insufficient, and the last of them came below the limit. *)
Definition refining (self : @MultiAgentRAGSystem float Any) (evals : list Message) : Prop :=
  Forall (fun response => ~ judged_sufficient (content response)) evals /\
  (evals <> [] -> Z.of_nat (length evals) < max_iterations self).

(** The evaluator replies [evals] of a run that reached the synthesizer:
    none on the direct path; otherwise all but the last sent the run back to
    the retriever, and the last is judged sufficient or came at the limit. *)
Definition stopped_at (self : @MultiAgentRAGSystem float Any) (evals : list Message) : Prop :=
  evals = [] \/
  exists prev response,
    evals = (prev ++ [response])%list /\
    refining self prev /\
    (judged_sufficient (content response) \/
     max_iterations self <= Z.of_nat (length evals)).

(** The summaries of the traces of unfinished runs: nothing yet, or the
    router and some full cycles, possibly followed by a retrieval whose
    evaluation has not completed. *)
Definition partial_run (s : list (string * Z)) : Prop :=
  s = [] \/
  exists k : nat,
    s = ("router_agent", 0) :: cycles 0 k \/
    s = ("router_agent", 0) :: (cycles 0 k ++ [("query_agent", Z.of_nat k + 1)])%list.

(** The summary of the trace when [node] is about to run with the
    counter at [it]. *)
Definition course_before (node : string) (it : Z) : list (string * Z) :=
  if String.eqb node "router_agent" then []
  else if String.eqb node "evaluation_agent" then
    ("router_agent", 0) :: (cycles 0 (Z.to_nat (it - 1)) ++ [("query_agent", it)])%list
  else if String.eqb node END then
    ("router_agent", 0) :: (cycles 0 (Z.to_nat it) ++ [("response_agent", it)])%list
  else ("router_agent", 0) :: cycles 0 (Z.to_nat it).

Definition on_course (node : string) (state : @GraphState float Any)
    (w : @World float Any) : Prop :=
  0 <= iteration state /\
  (node = "router_agent" -> iteration state = 0) /\
  (node = "evaluation_agent" -> 1 <= iteration state) /\
  summary (trace w) = course_before node (iteration state).

End RunVocabulary.

Section SummaryVocabulary.

Context {float Any : Type}.
Variable float_str : float -> string.

(** The line of the evaluator's summary for the result at 0-based
    position [i]. *)
Definition summary_label (i : nat) (r : @ResultDict float Any) : string :=
  "Result " +:+ PyStr.of_nat (i + 1) +:+ " (score: " +:+ float_str (r_score r) +:+ "): " +:+
  substring 0 200 (r_content r) +:+ "...".

End SummaryVocabulary.

(** * Python containers used by the repositories *)

Module Py.

Section Dict.

Context {K V : Type} `{EqDecision K}.

(** A [dict]: its items in insertion order.  The keys of a dict are
    distinct ([wf]); the operations below keep them so. *)
Definition dict : Type := list (K * V).

Definition wf (d : dict) : Prop := NoDup (map fst d).

(** [d.get(k)] *)
Fixpoint get (k : K) (d : dict) : option V :=
  match d with
  | [] => None
  | (k', v) :: d' => if decide (k = k') then Some v else get k d'
  end.

(** [k in d] *)
Definition contains (k : K) (d : dict) : bool :=
  match get k d with Some _ => true | None => false end.

(** [d[k] = v]: an existing key keeps its place, a new key goes last. *)
Fixpoint set (k : K) (v : V) (d : dict) : dict :=
  match d with
  | [] => [(k, v)]
  | (k', v') :: d' => if decide (k = k') then (k, v) :: d' else (k', v') :: set k v d'
  end.

(** [del d[k]], for a key of [d] *)
Fixpoint del (k : K) (d : dict) : dict :=
  match d with
  | [] => []
  | (k', v') :: d' => if decide (k = k') then d' else (k', v') :: del k d'
  end.

(** [d.values()] *)
Definition values (d : dict) : list V := map snd d.

(** [len(d)] *)
Definition len (d : dict) : Z := Z.of_nat (length d).

End Dict.

(** The index that a slice bound [i] stands for in a list of length [n]. *)
Definition slice_index (n i : Z) : Z :=
  if i <? 0 then Z.max (i + n) 0 else Z.min i n.

(** [l[start:stop]] *)
Definition slice {A : Type} (l : list A) (start stop : Z) : list A :=
  let n := Z.of_nat (length l) in
  let first := slice_index n start in
  let last := slice_index n stop in
  take (Z.to_nat (last - first)) (drop (Z.to_nat first) l).

(** [sorted(l, key=key, reverse=True)]: the stable sort by decreasing key;
    items with equal keys keep their order. *)
Fixpoint insert_desc {A : Type} (key : A -> Z) (x : A) (l : list A) : list A :=
  match l with
  | [] => [x]
  | y :: l' => if key x <? key y then y :: insert_desc key x l' else x :: y :: l'
  end.

Fixpoint sorted_desc {A : Type} (key : A -> Z) (l : list A) : list A :=
  match l with
  | [] => []
  | x :: l' => insert_desc key x (sorted_desc key l')
  end.

(** Newest first: every item has a key at least as large as the keys of
    all items that follow it. *)
Definition newest_first {A : Type} (key : A -> Z) (l : list A) : Prop :=
  StronglySorted (fun a b => key b <= key a) l.

End Py.

(** * Domain models (src/domain/models.py)

    A UUID is an [N], a datetime a [Z]. *)

Inductive DocumentStatus := PENDING | PROCESSING | COMPLETED | FAILED.

(** The string an enum member compares equal to. *)
Definition status_value (s : DocumentStatus) : string :=
  match s with
  | PENDING => "pending"
  | PROCESSING => "processing"
  | COMPLETED => "completed"
  | FAILED => "failed"
  end.

Section Domain.

Context {float Any : Type}.

Record Document := {
  doc_id : N;
  filename : string;
  file_path : string;
  content_type : string;
  size_bytes : Z;
  doc_status : DocumentStatus;
  doc_metadata : gmap string Any;
  doc_created_at : Z;
  updated_at : Z;
  processed_at : option Z;
  doc_error_message : option string
}.

Record Query := {
  query_id : N;
  query_text : string;
  filters : option (gmap string Any);
  top_k : Z;
  score_threshold : float;
  query_created_at : Z
}.

(** ** Mock repositories (src/repositories/mock_repositories.py)

    A method takes the repository and returns its result with the
    repository as the call leaves it. *)

Record MockDocumentRepository := { documents : @Py.dict N Document }.

Definition new_document_repository : MockDocumentRepository := {| documents := [] |}.

Definition doc_create (self : MockDocumentRepository) (document : Document)
    : Document * MockDocumentRepository :=
  (document, {| documents := Py.set (doc_id document) document (documents self) |}).

Definition doc_get_by_id (self : MockDocumentRepository) (document_id : N)
    : option Document :=
  Py.get document_id (documents self).

(** [if status:] holds for a status that is given and not the empty string. *)
Definition status_given (status : option string) : bool :=
  match status with
  | Some s => negb (String.eqb s "")
  | None => false
  end.

Definition doc_get_all (self : MockDocumentRepository) (skip limit : Z)
    (status : option string) : list Document :=
  let docs := Py.values (documents self) in
  let docs :=
    if status_given status
    then filter (fun d => Some (status_value (doc_status d)) = status) docs
    else docs in
  Py.slice docs skip (skip + limit).

Definition doc_update (self : MockDocumentRepository) (document : Document)
    : Document * MockDocumentRepository :=
  (document, {| documents := Py.set (doc_id document) document (documents self) |}).

Definition doc_delete (self : MockDocumentRepository) (document_id : N)
    : bool * MockDocumentRepository :=
  if Py.contains document_id (documents self)
  then (true, {| documents := Py.del document_id (documents self) |})
  else (false, self).

Definition doc_count (self : MockDocumentRepository) : Z := Py.len (documents self).

Record MockQueryRepository := { queries : @Py.dict N Query }.

Definition new_query_repository : MockQueryRepository := {| queries := [] |}.

Definition query_create (self : MockQueryRepository) (q : Query)
    : Query * MockQueryRepository :=
  (q, {| queries := Py.set (query_id q) q (queries self) |}).

Definition query_get_by_id (self : MockQueryRepository) (id : N) : option Query :=
  Py.get id (queries self).

Definition get_recent_queries (self : MockQueryRepository) (limit : Z) : list Query :=
  Py.slice (Py.sorted_desc query_created_at (Py.values (queries self))) 0 limit.

Definition query_count (self : MockQueryRepository) : Z := Py.len (queries self).

End Domain.

Section RepositoryVocabulary.

Context {float Any : Type}.

(** Every document is stored under its own id, and no id twice. *)
Definition documents_ok (self : @MockDocumentRepository Any) : Prop :=
  Py.wf (documents self) /\
  Forall (fun item => fst item = doc_id (snd item)) (documents self).

(** Every query is stored under its own id, and no id twice. *)
Definition queries_ok (self : @MockQueryRepository float Any) : Prop :=
  Py.wf (queries self) /\
  Forall (fun item => fst item = query_id (snd item)) (queries self).

End RepositoryVocabulary.

(** * MCP provider (src/mcp/mcp_provider.py) *)

(** The values that occur in the provider's configuration and in the
    metadata of a context. *)
Inductive PyValue :=
| PyBool (b : bool)
| PyInt (z : Z)
| PyText (s : string).

(** [bool(v)] *)
Definition truthy (v : PyValue) : bool :=
  match v with
  | PyBool b => b
  | PyInt z => negb (z =? 0)
  | PyText s => negb (String.eqb s "")
  end.

Section MCP.

Context {float Any : Type}.

(** The score a context document gets when the retrieved one has none. *)
Variable zero_score : float.

(** A retrieved document: a dict in which each of the keys "id", "content",
    "score" and "metadata" may be missing ([None]). *)
Record RetrievedDoc := {
  rd_id : option Any;
  rd_content : option string;
  rd_score : option float;
  rd_metadata : option (gmap string Any)
}.

(** A document of a context: the dict built by [get_context]; [id] and
    [content] are [None] when the retrieved document had no such key. *)
Record ContextDoc := {
  cd_id : option Any;
  cd_content : option string;
  cd_score : float;
  cd_metadata : gmap string Any
}.

(** class MCPContext *)
Record MCPContext := {
  ctx_query : string;
  context_documents : list ContextDoc;
  ctx_metadata : gmap string PyValue;
  ctx_max_tokens : Z
}.

(** class MCPProvider *)
Record MCPProvider := {
  config : gmap string PyValue;
  enabled : PyValue
}.

(** [MCPProvider(config)] *)
Definition new_provider (config : gmap string PyValue) : MCPProvider :=
  {| config := config; enabled := default (PyBool true) (config !! "enabled") |}.

(** [len(doc.get("content", "")) // 4] *)
Definition doc_tokens (doc : RetrievedDoc) : Z :=
  Z.of_nat (String.length (default "" (rd_content doc))) / 4.

Definition to_context_doc (doc : RetrievedDoc) : ContextDoc :=
  {| cd_id := rd_id doc;
     cd_content := rd_content doc;
     cd_score := default zero_score (rd_score doc);
     cd_metadata := default ∅ (rd_metadata doc) |}.

(** The loop of [get_context] from a document on, with [current_tokens]
    counted so far: the documents it appends and the final count. *)
Fixpoint collect (max_tokens current_tokens : Z) (documents : list RetrievedDoc)
    : list ContextDoc * Z :=
  match documents with
  | [] => ([], current_tokens)
  | doc :: rest =>
      if current_tokens + doc_tokens doc >? max_tokens then ([], current_tokens)
      else
        let result := collect max_tokens (current_tokens + doc_tokens doc) rest in
        (to_context_doc doc :: fst result, snd result)
  end.

Definition get_context (self : MCPProvider) (query : string)
    (documents : list RetrievedDoc) (max_tokens : Z) : MCPContext :=
  if negb (truthy (enabled self)) then
    {| ctx_query := query;
       context_documents := [];
       ctx_metadata := <["enabled" := PyBool false]> ∅;
       ctx_max_tokens := max_tokens |}
  else
    let result := collect max_tokens 0 documents in
    {| ctx_query := query;
       context_documents := fst result;
       ctx_metadata :=
         <["estimated_tokens" := PyInt (snd result)]>
         (<["included_documents" := PyInt (Z.of_nat (length (fst result)))]>
         (<["total_documents" := PyInt (Z.of_nat (length documents))]> ∅));
       ctx_max_tokens := max_tokens |}.

(** The estimated tokens of a list of documents. *)
Definition total_tokens (documents : list RetrievedDoc) : Z :=
  foldr (fun doc sum => doc_tokens doc + sum) 0 documents.

End MCP.

(** * RAG service (src/services/rag_service.py)

    The service as src/dependencies.py builds it: the query repository is a
    [MockQueryRepository], and the agent system's retrieval function is the
    service's own [_vector_search].  [uuid_str] and [uuid_parse] stand for
    [str(uuid)] and [UUID(text)], [zero] for [0.0], [mean_top3] for the
    average of the three highest scores of a non-empty list, and a string
    prompt reaches the language model as one human message. *)

(** What [RAGService.query] can raise. *)
Inductive ServiceError :=
| WorkflowError (e : Exception)
| KeyError (key : string)
| ValueError (what : string).

Section Service.

Context {float Any : Type}.
Variable float_str : float -> string.
Variable uuid_str : N -> string.
Variable uuid_parse : string -> option N.
Variable zero : float.
Variable mean_top3 : list float -> float.

(** api/dtos.py: QueryRequest *)
Record QueryRequest := {
  req_query : string;
  req_filters : option (gmap string Any);
  req_top_k : Z;
  req_score_threshold : float;
  use_agent : bool
}.

(** api/dtos.py: SearchResultDTO *)
Record SearchResultDTO := {
  dto_chunk_id : N;
  dto_document_id : N;
  dto_content : string;
  dto_score : float;
  dto_metadata : gmap string Any
}.

(** api/dtos.py: QueryResponse *)
Record QueryResponse := {
  resp_query_id : N;
  resp_query : string;
  resp_answer : string;
  resp_sources : list SearchResultDTO;
  confidence : float;
  agent_type : string;
  processing_time_ms : float;
  resp_metadata : gmap string string
}.

(** The two shapes of the dicts in [sources]: the dicts of the agent
    workflow have the keys content, score and metadata only; those of the
    plain path also have the ids, as strings. *)
Inductive SourceDict :=
| AgentSource (r : @ResultDict float Any)
| PlainSource (chunk_id document_id : string) (content : string) (score : float)
    (metadata : gmap string Any).

(** [s["score"]] *)
Definition source_score (s : SourceDict) : float :=
  match s with
  | AgentSource r => r_score r
  | PlainSource _ _ _ score _ => score
  end.

(** [SearchResultDTO(chunk_id=UUID(s["chunk_id"]) if isinstance(...) ...)] *)
Definition to_dto (s : SourceDict) : ServiceError + SearchResultDTO :=
  match s with
  | AgentSource _ => inl (KeyError "chunk_id")
  | PlainSource chunk document content score metadata =>
      match uuid_parse chunk with
      | None => inl (ValueError chunk)
      | Some chunk_uuid =>
          match uuid_parse document with
          | None => inl (ValueError document)
          | Some document_uuid =>
              inr {| dto_chunk_id := chunk_uuid;
                     dto_document_id := document_uuid;
                     dto_content := content;
                     dto_score := score;
                     dto_metadata := metadata |}
          end
      end
  end.

(** The list comprehension over [sources]: it stops at the first dict that
    raises. *)
Fixpoint to_dtos (sources : list SourceDict) : ServiceError + list SearchResultDTO :=
  match sources with
  | [] => inr []
  | s :: rest =>
      match to_dto s with
      | inl e => inl e
      | inr dto =>
          match to_dtos rest with
          | inl e => inl e
          | inr dtos => inr (dto :: dtos)
          end
      end
  end.

Definition _calculate_confidence (sources : list SourceDict) : float :=
  match sources with
  | [] => zero
  | _ => mean_top3 (map source_score sources)
  end.

(** class RAGService: the agent system built by [__init__] and the query
    repository. *)
Record RAGService := {
  agent_system : @MultiAgentRAGSystem float Any;
  query_repo : @MockQueryRepository float Any
}.

(** The context of the plain path. *)
Definition plain_context (results : list (@SearchResult float Any)) (top_k : Z) : string :=
  PyStr.join (nl +:+ nl)
    (map (fun ir : nat * @SearchResult float Any =>
            "[Source " +:+ PyStr.of_nat (fst ir + 1) +:+ "]" +:+ nl +:+ sr_content (snd ir))
         (enumerate (Py.slice results 0 top_k))).

Definition plain_prompt (results : list (@SearchResult float Any)) (request : QueryRequest)
    : string :=
  "Context:" +:+ nl +:+ plain_context results (req_top_k request) +:+ nl +:+ nl +:+
  "Query: " +:+ req_query request +:+ nl +:+ nl +:+ "Answer:".

Definition plain_source (r : @SearchResult float Any) : SourceDict :=
  PlainSource (uuid_str (chunk_id r)) (uuid_str (document_id r)) (sr_content r) (sr_score r)
    (sr_metadata r).

(** [await self.query(request)].  [new_id] and [now] are the id and the
    creation time that the new [Query] gets, [elapsed_ms] the processing time
    that is measured, [recursion_limit] the step budget of the graph.  The
    result comes with the repository and the world as the call leaves
    them. *)
Definition rag_query (self : RAGService) (recursion_limit : nat) (new_id : N) (now : Z)
    (elapsed_ms : float) (request : QueryRequest) (w : @World float Any)
    : (ServiceError + QueryResponse) * @MockQueryRepository float Any * @World float Any :=
  let query_domain :=
    {| query_id := new_id;
       query_text := req_query request;
       filters := req_filters request;
       top_k := req_top_k request;
       score_threshold := req_score_threshold request;
       query_created_at := now |} in
  let (saved_query, repo) := query_create (query_repo self) query_domain in
  let respond answer sources agent metadata w' :=
    match to_dtos sources with
    | inl e => (inl e, repo, w')
    | inr dtos =>
        (inr {| resp_query_id := query_id saved_query;
                resp_query := req_query request;
                resp_answer := answer;
                resp_sources := dtos;
                confidence := _calculate_confidence sources;
                agent_type := agent;
                processing_time_ms := elapsed_ms;
                resp_metadata := metadata |}, repo, w')
    end in
  if use_agent request then
    match execute float_str (agent_system self) recursion_limit (req_query request) w with
    | (Raise e, w') => (inl (WorkflowError e), repo, w')
    | (Ok result, w') =>
        respond (res_answer result) (map AgentSource (res_sources result)) "router"
          (res_metadata result) w'
    end
  else
    match vector_search (agent_system self) (req_query request) w with
    | (Raise e, w') => (inl (WorkflowError e), repo, w')
    | (Ok search_results, w') =>
        match llm_ainvoke (agent_system self)
                [HumanMessage (plain_prompt search_results request)] w' with
        | (Raise e, w'') => (inl (WorkflowError e), repo, w'')
        | (Ok response, w'') =>
            respond (content response) (map plain_source search_results) "query" ∅ w''
        end
    end.

End Service.

(** * Indexing (src/services/indexing_service.py,
      src/repositories/qdrant_repository.py)

    The service as src/dependencies.py builds it: mock repositories for
    documents and jobs, the Qdrant repository for vectors. *)

(** What the indexing service can raise.  [External] is an error of a
    dependency (document converter, file system, embedding model),
    [Failure] a plain [Exception] with a message. *)
Inductive IndexingError :=
| IndexValueError (message : string)
| UnboundLocalError (variable : string)
| Failure (message : string)
| External (message : string).

(** [str(e)] for the errors that the handler of [process_document]
    prints. *)
Definition error_text (e : IndexingError) : string :=
  match e with
  | IndexValueError message => message
  | UnboundLocalError variable => variable
  | Failure message => message
  | External message => message
  end.

(** A local variable of a function body. *)
Inductive Binding (A : Type) :=
| Unbound
| Bound (a : A).
Arguments Unbound {A}.
Arguments Bound {A} a.

Section Indexing.

Context {float Any : Type}.
Variable uuid_str : N -> string.
Variable isoformat : Z -> string.

(** src/domain/models.py: IndexingJob *)
Record IndexingJob := {
  job_id : N;
  document_ids : list N;
  job_status : DocumentStatus;
  total_chunks : Z;
  processed_chunks : Z;
  job_created_at : Z;
  started_at : option Z;
  completed_at : option Z;
  job_error_message : option string
}.

(** src/domain/models.py: Chunk *)
Record Chunk := {
  chunk_uuid : N;
  chunk_document_id : N;
  chunk_content : string;
  chunk_index : Z;
  start_char : Z;
  end_char : Z;
  chunk_metadata : gmap string Any;
  embedding : option (list float);
  chunk_created_at : Z
}.

(** A point of the vector database, as [upsert_chunks] builds it. *)
Record Point := {
  point_id : string;
  vector : list float;
  payload_document_id : string;
  payload_content : string;
  payload_chunk_index : Z;
  payload_start_char : Z;
  payload_end_char : Z;
  payload_metadata : gmap string Any;
  payload_created_at : string
}.

(** The world of the indexing service.  [convert] is the document
    converter with its markdown export, [read_text] the file system,
    [split_text] the text splitter, [aembed_query] the embedding model at its
    i-th call of a run, [client_upsert] and [client_delete] the Qdrant client
    ([Some e] when it raises), [uuid4] and [utcnow] the i-th id and time
    drawn in a run. *)
Record IndexingEnv := {
  convert : string -> string + string;
  read_text : string -> string + string;
  split_text : string -> list string;
  aembed_query : nat -> string -> string + list float;
  client_upsert : list Point -> option string;
  client_delete : string -> option string;
  uuid4 : nat -> N;
  utcnow : nat -> Z
}.

(** ** MockIndexingJobRepository *)

Record MockIndexingJobRepository := { jobs : @Py.dict N IndexingJob }.

Definition job_create (self : MockIndexingJobRepository) (job : IndexingJob)
    : IndexingJob * MockIndexingJobRepository :=
  (job, {| jobs := Py.set (job_id job) job (jobs self) |}).

Definition job_get_by_id (self : MockIndexingJobRepository) (id : N) : option IndexingJob :=
  Py.get id (jobs self).

Definition job_update (self : MockIndexingJobRepository) (job : IndexingJob)
    : IndexingJob * MockIndexingJobRepository :=
  (job, {| jobs := Py.set (job_id job) job (jobs self) |}).

Definition get_pending_jobs (self : MockIndexingJobRepository) : list IndexingJob :=
  filter (fun j => status_value (job_status j) = "pending") (Py.values (jobs self)).

(** ** QdrantRepository *)

(** The calls that reached the Qdrant client. *)
Inductive ClientCall :=
| Upsert (points : list Point)
| Delete (document_id : string).

Definition to_point (chunk : Chunk) : option Point :=
  match embedding chunk with
  | None => None
  | Some vector =>
      Some {| point_id := uuid_str (chunk_uuid chunk);
              vector := vector;
              payload_document_id := uuid_str (chunk_document_id chunk);
              payload_content := chunk_content chunk;
              payload_chunk_index := chunk_index chunk;
              payload_start_char := start_char chunk;
              payload_end_char := end_char chunk;
              payload_metadata := chunk_metadata chunk;
              payload_created_at := isoformat (chunk_created_at chunk) |}
  end.

(** [await vector_repo.upsert_chunks(chunks)]: the answer and the client
    calls made. *)
Definition upsert_chunks (env : IndexingEnv) (chunks : list Chunk) : bool * list ClientCall :=
  let points := omap to_point chunks in
  match points with
  | [] => (false, [])
  | _ =>
      match client_upsert env points with
      | Some _ => (false, [Upsert points])
      | None => (true, [Upsert points])
      end
  end.

(** [await vector_repo.delete_by_document_id(document_id)] *)
Definition delete_by_document_id (env : IndexingEnv) (document_id : N)
    : bool * list ClientCall :=
  match client_delete env (uuid_str document_id) with
  | Some _ => (false, [Delete (uuid_str document_id)])
  | None => (true, [Delete (uuid_str document_id)])
  end.

(** ** IndexingService *)

(** The repositories of the service, the client calls made so far, and
    [config["chunk_size"]] when the configuration has it. *)
Record IndexingService := {
  doc_repo : @MockDocumentRepository Any;
  job_repo : MockIndexingJobRepository;
  client_calls : list ClientCall;
  chunk_size_config : option Z
}.

(** [self.config.get("chunk_size", 1000)] *)
Definition chunk_size (self : IndexingService) : Z := default 1000 (chunk_size_config self).

Definition with_document (self : IndexingService) (document : @Document Any) : IndexingService :=
  {| doc_repo := snd (doc_update (doc_repo self) document);
     job_repo := job_repo self;
     client_calls := client_calls self;
     chunk_size_config := chunk_size_config self |}.

Definition with_job (self : IndexingService) (job : IndexingJob) : IndexingService :=
  {| doc_repo := doc_repo self;
     job_repo := snd (job_update (job_repo self) job);
     client_calls := client_calls self;
     chunk_size_config := chunk_size_config self |}.

Definition with_new_job (self : IndexingService) (job : IndexingJob) : IndexingService :=
  {| doc_repo := doc_repo self;
     job_repo := snd (job_create (job_repo self) job);
     client_calls := client_calls self;
     chunk_size_config := chunk_size_config self |}.

Definition with_client_calls (self : IndexingService) (made : list ClientCall)
    : IndexingService :=
  {| doc_repo := doc_repo self;
     job_repo := job_repo self;
     client_calls := client_calls self ++ made;
     chunk_size_config := chunk_size_config self |}.

(** [await self.create_document(filename, file_path, content_type,
    size_bytes, metadata)].  [new_id], [created] and [updated] are the id and
    the two times that the new [Document] draws. *)
Definition create_document (self : IndexingService) (new_id : N) (created updated : Z)
    (name path type : string) (size : Z) (metadata : option (gmap string Any))
    : @Document Any * IndexingService :=
  let document :=
    {| doc_id := new_id;
       filename := name;
       file_path := path;
       content_type := type;
       size_bytes := size;
       doc_status := PENDING;
       doc_metadata :=
         match metadata with
         | Some given => given
         | None => ∅
         end;
       doc_created_at := created;
       updated_at := updated;
       processed_at := None;
       doc_error_message := None |} in
  let (saved_doc, repo) := doc_create (doc_repo self) document in
  (saved_doc,
   {| doc_repo := repo;
      job_repo := job_repo self;
      client_calls := client_calls self;
      chunk_size_config := chunk_size_config self |}).

(** [document.status = status], and [document.error_message = message]
    when a message is given. *)
Definition set_document_status (document : @Document Any) (status : DocumentStatus)
    (message : option string) : @Document Any :=
  {| doc_id := doc_id document;
     filename := filename document;
     file_path := file_path document;
     content_type := content_type document;
     size_bytes := size_bytes document;
     doc_status := status;
     doc_metadata := doc_metadata document;
     doc_created_at := doc_created_at document;
     updated_at := updated_at document;
     processed_at := processed_at document;
     doc_error_message :=
       match message with
       | Some text => Some text
       | None => doc_error_message document
       end |}.

Definition set_job (job : IndexingJob) (status : DocumentStatus) (total processed : Z)
    (message : option string) : IndexingJob :=
  {| job_id := job_id job;
     document_ids := document_ids job;
     job_status := status;
     total_chunks := total;
     processed_chunks := processed;
     job_created_at := job_created_at job;
     started_at := started_at job;
     completed_at := completed_at job;
     job_error_message :=
       match message with
       | Some text => Some text
       | None => job_error_message job
       end |}.

(** [await self._parse_document(file_path)]: the converter, and the file's
    text when the converter raises. *)
Definition _parse_document (env : IndexingEnv) (path : string) : IndexingError + string :=
  match convert env path with
  | inr text_content => inr text_content
  | inl _ =>
      match read_text env path with
      | inr text => inr text
      | inl e => inl (External e)
      end
  end.

(** The loop that embeds the texts and builds the chunks, from index
    [idx] on. *)
Fixpoint build_chunks (env : IndexingEnv) (self : IndexingService)
    (document_id : N) (document : @Document Any) (idx : nat) (texts : list string)
    : IndexingError + list Chunk :=
  match texts with
  | [] => inr []
  | text :: rest =>
      match aembed_query env idx text with
      | inl e => inl (External e)
      | inr embedded =>
          let chunk :=
            {| chunk_uuid := uuid4 env (S idx);
               chunk_document_id := document_id;
               chunk_content := text;
               chunk_index := Z.of_nat idx;
               start_char := Z.of_nat idx * chunk_size self;
               end_char := (Z.of_nat idx + 1) * chunk_size self;
               chunk_metadata := doc_metadata document;
               embedding := Some embedded;
               chunk_created_at := utcnow env (S idx) |} in
          match build_chunks env self document_id document (S idx) rest with
          | inl e => inl e
          | inr chunks => inr (chunk :: chunks)
          end
      end
  end.

(** The [except] block of [process_document]: [document] is bound when it
    runs, [saved_job] need not be. *)
Definition on_failure (self : IndexingService) (document : option (@Document Any))
    (saved_job : Binding IndexingJob) (e : IndexingError)
    : (IndexingError + IndexingJob) * IndexingService :=
  let self1 :=
    match document with
    | Some d => with_document self (set_document_status d FAILED (Some (error_text e)))
    | None => self
    end in
  match saved_job with
  | Unbound => (inl (UnboundLocalError "saved_job"), self1)
  | Bound job =>
      (inl e,
       with_job self1
         (set_job job FAILED (total_chunks job) (processed_chunks job) (Some (error_text e))))
  end.

Definition process_document (env : IndexingEnv) (self : IndexingService) (document_id : N)
    : (IndexingError + IndexingJob) * IndexingService :=
  match doc_get_by_id (doc_repo self) document_id with
  | None =>
      on_failure self None Unbound
        (IndexValueError ("Document " +:+ uuid_str document_id +:+ " not found"))
  | Some found =>
      let document := set_document_status found PROCESSING None in
      let self1 := with_document self document in
      let job :=
        {| job_id := uuid4 env 0;
           document_ids := [document_id];
           job_status := PENDING;
           total_chunks := 0;
           processed_chunks := 0;
           job_created_at := utcnow env 0;
           started_at := None;
           completed_at := None;
           job_error_message := None |} in
      let self2 := with_new_job self1 job in
      match _parse_document env (file_path document) with
      | inl e => on_failure self2 (Some document) (Bound job) e
      | inr parsed_content =>
          let text_chunks := split_text env parsed_content in
          match build_chunks env self2 document_id document 0 text_chunks with
          | inl e => on_failure self2 (Some document) (Bound job) e
          | inr chunks =>
              let (success, made) := upsert_chunks env chunks in
              let self3 := with_client_calls self2 made in
              if negb success then
                on_failure self3 (Some document) (Bound job)
                  (Failure "Failed to store chunks in vector DB")
              else
                let document' := set_document_status document COMPLETED None in
                let self4 := with_document self3 document' in
                let job' :=
                  set_job job COMPLETED (Z.of_nat (length chunks)) (Z.of_nat (length chunks))
                    None in
                (inr job', with_job self4 job')
          end
      end
  end.

(** [await self.delete_document(document_id)] *)
Definition delete_document (env : IndexingEnv) (self : IndexingService) (document_id : N)
    : bool * IndexingService :=
  let (_, made) := delete_by_document_id env document_id in
  let self1 := with_client_calls self made in
  let (success, repo) := doc_delete (doc_repo self1) document_id in
  (success,
   {| doc_repo := repo;
      job_repo := job_repo self1;
      client_calls := client_calls self1;
      chunk_size_config := chunk_size_config self1 |}).

End Indexing.

(** * Example services

    As in the example systems, a float and a metadata value are strings. *)

(** An id in print, and read back: the decimal numeral stands for the
    canonical form of a UUID. *)
Definition example_uuid_str (u : N) : string := NilEmpty.string_of_uint (N.to_uint u).

Definition example_uuid_parse (text : string) : option N :=
  option_map N.of_uint (NilEmpty.uint_of_string text).

Definition example_isoformat (t : Z) : string := PyStr.of_nat (Z.to_nat t).

(** Scores are not numbers in the examples: the first score stands for
    the mean of the three highest. *)
Definition example_mean_top3 (scores : list string) : string := default "0.0" (head scores).

Definition tides_document : @Document string :=
  {| doc_id := 7;
     filename := "tides.txt";
     file_path := "data/uploads/tides.txt";
     content_type := "text/plain";
     size_bytes := 45;
     doc_status := PENDING;
     doc_metadata := ∅;
     doc_created_at := 100;
     updated_at := 100;
     processed_at := None;
     doc_error_message := None |}.

Definition atlas_document : @Document string :=
  {| doc_id := 9;
     filename := "atlas.pdf";
     file_path := "data/uploads/atlas.pdf";
     content_type := "application/pdf";
     size_bytes := 2048;
     doc_status := COMPLETED;
     doc_metadata := ∅;
     doc_created_at := 120;
     updated_at := 120;
     processed_at := None;
     doc_error_message := None |}.

(** The repository after both documents were created. *)
Definition example_documents : @MockDocumentRepository string :=
  snd (doc_create (snd (doc_create new_document_repository tides_document)) atlas_document).

(** The converter rejects the file, the file is read as text and split
    into two texts; the vector database takes points but fails to delete. *)
Definition example_env : @IndexingEnv string string :=
  {| convert := fun _ => inl "unsupported format";
     read_text := fun _ => inr "Tides follow the moon. They rise twice a day.";
     split_text := fun _ => ["Tides follow the moon."; "They rise twice a day."];
     aembed_query := fun _ _ => inr ["0.12"; "0.48"];
     client_upsert := fun _ => None;
     client_delete := fun _ => Some "connection refused";
     uuid4 := fun i => N.of_nat (100 + i);
     utcnow := fun i => 200 + Z.of_nat i |}.

Definition example_indexer : @IndexingService string string :=
  {| doc_repo := example_documents;
     job_repo := {| jobs := [] |};
     client_calls := [];
     chunk_size_config := None |}.

Definition example_service : @RAGService string string :=
  {| agent_system := direct_system; query_repo := new_query_repository |}.

Definition agent_request : @QueryRequest string string :=
  {| req_query := "What is photosynthesis?";
     req_filters := None;
     req_top_k := 5;
     req_score_threshold := "0.7";
     use_agent := true |}.

Definition plain_request : @QueryRequest string string :=
  {| req_query := "What is photosynthesis?";
     req_filters := None;
     req_top_k := 1;
     req_score_threshold := "0.7";
     use_agent := false |}.

(** * Facts about Python strings *)

Module PyStrFacts.
Import PyStr.

Lemma lower_char_small (c d : ascii) :
  (97 <= nat_of_ascii d <= 122)%nat ->
  lower_char c = d <-> ci_char c d.
Proof.
  intros Hd. unfold ci_char. split.
  - intros <-. revert Hd.
    destruct c as [[] [] [] [] [] [] [] []]; vm_compute; intros [H1 H2];
      first [ left; reflexivity | right; split; [lia | reflexivity] | lia ].
  - intros [-> | [_ Hc]].
    + revert Hd. destruct d as [[] [] [] [] [] [] [] []]; vm_compute;
        first [ reflexivity | lia ].
    + assert (Hc' : (nat_of_ascii c = nat_of_ascii d - 32)%nat) by lia.
      assert (Hup : is_upper c = true).
      { unfold is_upper. rewrite Hc'. apply orb_true_iff. left.
        apply andb_true_iff. split; apply Nat.leb_le; lia. }
      unfold lower_char. rewrite Hup, <- Hc. apply ascii_nat_embedding.
Qed.

Lemma startswith_lower (p : string) :
  small_letters p = true ->
  forall s, startswith p (lower s) = true <->
            exists w post, s = w +:+ post /\ ci_equal w p.
Proof.
  induction p as [| d p IH]; intros Hp s.
  - split; [| reflexivity]. intros _. exists "", s. split; [reflexivity | exact I].
  - cbn [small_letters] in Hp. apply andb_true_iff in Hp as [Hd Hp].
    apply andb_true_iff in Hd as [Hd1 Hd2].
    apply Nat.leb_le in Hd1, Hd2.
    destruct s as [| c s]; simpl.
    + split; [discriminate |].
      intros (w & post & Hs & Hw). destruct w; simpl in *; [contradiction | discriminate].
    + rewrite andb_true_iff, Ascii.eqb_eq, (IH Hp s). split.
      * intros [Hc (w & post & -> & Hw)].
        exists (String c w), post. split; [reflexivity |]. simpl. split; [| exact Hw].
        apply lower_char_small; [lia |]. congruence.
      * intros (w & post & Hs & Hw). destruct w as [| c' w]; [contradiction |].
        simpl in Hs, Hw. injection Hs as -> ->. destruct Hw as [Hc Hw]. split.
        -- symmetry. apply lower_char_small; [lia | exact Hc].
        -- exists w, post. split; [reflexivity | exact Hw].
Qed.

(** The test [pattern in text.lower()] is the case-insensitive occurrence
    of [pattern] in [text], for a pattern of small ASCII letters. *)
Lemma contains_lower (p : string) :
  small_letters p = true ->
  forall s, contains p (lower s) = true <-> occurs_nocase p s.
Proof.
  intros Hp. unfold occurs_nocase. induction s as [| c s IH].
  - simpl. rewrite orb_false_r, (startswith_lower p Hp ""). split.
    + intros (w & post & Hs & Hw). exists "", w, post. split; [exact Hs | exact Hw].
    + intros (pre & w & post & Hs & Hw). exists w, post. split; [| exact Hw].
      destruct pre; [exact Hs | discriminate].
  - change (contains p (lower (String c s)))
      with (startswith p (lower (String c s)) || contains p (lower s)).
    rewrite orb_true_iff, (startswith_lower p Hp (String c s)), IH. split.
    + intros [(w & post & Hs & Hw) | (pre & w & post & Hs & Hw)].
      * exists "", w, post. split; [exact Hs | exact Hw].
      * exists (String c pre), w, post. split; [| exact Hw]. rewrite Hs. reflexivity.
    + intros (pre & w & post & Hs & Hw). destruct pre as [| c' pre].
      * left. exists w, post. split; [exact Hs | exact Hw].
      * right. simpl in Hs. injection Hs as -> ->. exists pre, w, post.
        split; [reflexivity | exact Hw].
Qed.

Lemma contains_lower_false (p s : string) :
  small_letters p = true ->
  contains p (lower s) = false <-> ~ occurs_nocase p s.
Proof.
  intros Hp. rewrite <- (contains_lower p Hp s).
  destruct (contains p (lower s)); split; intros H; congruence.
Qed.

(** *** Concatenation, length and substrings *)

Lemma length_append (a b : string) :
  String.length (a +:+ b) = (String.length a + String.length b)%nat.
Proof.
  induction a as [| c a IH]; [reflexivity |].
  simpl. rewrite IH. reflexivity.
Qed.

Lemma substring_skip (a b : string) (n m : nat) :
  substring (String.length a + n) m (a +:+ b) = substring n m b.
Proof.
  induction a as [| c a IH]; [reflexivity |].
  simpl. exact IH.
Qed.

Lemma substring_here (a b : string) : substring 0 (String.length a) (a +:+ b) = a.
Proof.
  induction a as [| c a IH].
  - destruct b; reflexivity.
  - simpl. rewrite IH. reflexivity.
Qed.

Lemma substring_whole (a : string) : substring 0 (String.length a) a = a.
Proof.
  induction a as [| c a IH]; [reflexivity |].
  simpl. rewrite IH. reflexivity.
Qed.

Lemma substring_start (m : nat) (s : string) : exists post, s = substring 0 m s +:+ post.
Proof.
  revert m. induction s as [| c s IH]; intros m.
  - exists "". destruct m; reflexivity.
  - destruct m as [| m]; [exists (String c s); reflexivity |].
    destruct (IH m) as [post Hpost]. exists post.
    change (String c s = String c (substring 0 m s +:+ post)). rewrite <- Hpost. reflexivity.
Qed.

(** What is found at a position is a part of the text. *)
Lemma occurs_at_inside (pos : nat) (piece s : string) :
  occurs_at pos piece s -> exists pre post, s = pre +:+ piece +:+ post.
Proof.
  unfold occurs_at. generalize (String.length piece) as m. intros m.
  revert pos. induction s as [| c s IH]; intros pos Hsub.
  - exists "", "". destruct pos, m; cbn in Hsub; subst piece; reflexivity.
  - destruct pos as [| pos].
    + destruct (substring_start m (String c s)) as [post Hpost].
      exists "", post. rewrite Hsub in Hpost. exact Hpost.
    + cbn in Hsub. destruct (IH pos Hsub) as (pre & post & ->).
      exists (String c pre), post. reflexivity.
Qed.

Lemma part_start_0 (sep : nat) (parts : list string) : part_start sep parts 0 = 0%nat.
Proof. unfold part_start. rewrite take_0. cbn. lia. Qed.

Lemma part_start_S (sep : nat) (p : string) (parts : list string) (i : nat) :
  part_start sep (p :: parts) (S i) =
  (String.length p + (sep + part_start sep parts i))%nat.
Proof.
  unfold part_start. rewrite Nat.mul_succ_r.
  change (take (S i) (p :: parts)) with (p :: take i parts).
  unfold list_sum. cbn [map fold_right]. lia.
Qed.

(** [join] puts the parts one after the other, with the separator between
    neighbours, and adds nothing. *)
Lemma join_made_of (sep : string) (parts : list string) :
  made_of sep parts (join sep parts).
Proof.
  induction parts as [| p rest IH].
  - split; [cbn; lia |]. intros i part [=].
  - destruct rest as [| q rest].
    + split; [cbn; lia |]. intros [| i] part; [| intros [=]].
      intros [= <-]. rewrite part_start_0. split; [apply substring_whole |].
      cbn [List.length]. lia.
    + destruct IH as [Hlen Hparts].
      change (join sep (p :: q :: rest)) with (p +:+ sep +:+ join sep (q :: rest)).
      split.
      * rewrite !length_append, Hlen. unfold list_sum.
        cbn [map fold_right List.length Nat.pred]. lia.
      * intros [| i] part Hpart.
        -- injection Hpart as <-. rewrite part_start_0. split; [apply substring_here |].
           intros _. unfold occurs_at. rewrite Nat.add_0_l.
           rewrite <- (Nat.add_0_r (String.length p)), substring_skip. apply substring_here.
        -- destruct (Hparts i part Hpart) as [Hhere Hsep]. rewrite part_start_S.
           unfold occurs_at in *. split.
           ++ rewrite !substring_skip. exact Hhere.
           ++ intros Hlt. rewrite <- !Nat.add_assoc, !substring_skip.
              apply Hsep. cbn [List.length] in Hlt |- *. lia.
Qed.

End PyStrFacts.

(** * Properties of the workflow *)

Section Workflow.

Context {float Any : Type}.
Variable float_str : float -> string.

Abbreviation System := (@MultiAgentRAGSystem float Any).
Abbreviation State := (@GraphState float Any).
Abbreviation W := (@World float Any).

Import PyStr.

(** ** Branch functions *)

(** C1. [_evaluation_decision] answers "respond" when the iteration limit
    is reached, whatever the evaluation text; below the limit it answers
    "respond" exactly when the recorded evaluation text contains both
    "sufficient" and "true" up to case, and "refine" in every other case. *)
Theorem evaluation_decision_rule (self : System) (state : State) :
  let reply := default "" (metadata state !! "evaluation") in
  let judged_sufficient :=
    occurs_nocase "sufficient" reply /\ occurs_nocase "true" reply in
  (_evaluation_decision self state = "respond" <->
     max_iterations self <= iteration state \/ judged_sufficient) /\
  (_evaluation_decision self state = "refine" <->
     iteration state < max_iterations self /\ ~ judged_sufficient).
Proof.
  intros reply judged. unfold _evaluation_decision. fold reply.
  assert (Hs : contains "sufficient" (lower reply) = true <-> occurs_nocase "sufficient" reply)
    by (apply PyStrFacts.contains_lower; reflexivity).
  assert (Ht : contains "true" (lower reply) = true <-> occurs_nocase "true" reply)
    by (apply PyStrFacts.contains_lower; reflexivity).
  destruct (Z.geb_spec (iteration state) (max_iterations self)) as [Hge | Hlt].
  - split; [split; [intros _; left; lia | reflexivity] | split; [discriminate | lia]].
  - unfold judged. revert Hs Ht.
    destruct (contains "sufficient" (lower reply));
      destruct (contains "true" (lower reply)); cbn [andb]; intros Hs Ht;
      (split; split; intros H; first [discriminate H | reflexivity | idtac]);
      intuition (first [lia | discriminate]).
Qed.

(** The branch dict of the router sends "direct" to the synthesizer and
    "query" to the retriever. *)
Lemma successor_router (self : System) (state : State) (w : W) :
  successor (graph float_str self) "router_agent" state w =
  (Ok (if contains "direct" (lower (default "" (metadata state !! "router_decision")))
       then "response_agent" else "query_agent"), w).
Proof.
  unfold successor, graph, _build_graph, _route_decision; cbn [edges].
  rewrite !lookup_insert_ne by discriminate. rewrite lookup_insert_eq.
  destruct (contains _ _).
  - rewrite lookup_insert_eq. reflexivity.
  - rewrite lookup_insert_ne by discriminate. rewrite lookup_insert_eq. reflexivity.
Qed.

(** C2. After the router, the run goes to the synthesizer exactly when the
    recorded router text contains "direct" up to case, and to the retriever
    for every other text. *)
Theorem route_decision_rule (self : System) (state : State) (w : W) :
  let reply := default "" (metadata state !! "router_decision") in
  (_route_decision self state = "direct" <-> occurs_nocase "direct" reply) /\
  (_route_decision self state = "query" <-> ~ occurs_nocase "direct" reply) /\
  (successor (graph float_str self) "router_agent" state w = (Ok "response_agent", w) <->
     occurs_nocase "direct" reply) /\
  (successor (graph float_str self) "router_agent" state w = (Ok "query_agent", w) <->
     ~ occurs_nocase "direct" reply).
Proof.
  intros reply. rewrite successor_router. unfold _route_decision. fold reply.
  assert (Hd : contains "direct" (lower reply) = true <-> occurs_nocase "direct" reply)
    by (apply PyStrFacts.contains_lower; reflexivity).
  revert Hd. destruct (contains "direct" (lower reply)); intros Hd.
  - repeat split; try discriminate; try tauto; intros H; exfalso; apply H, Hd; reflexivity.
  - repeat split; try discriminate; try tauto; intros H; try (apply Hd in H; discriminate);
      intros H'; apply Hd in H'; discriminate.
Qed.

(** ** The graph built by [_build_graph] *)

Lemma successor_router_target (self : System) (state : State) (w : W) :
  successor (graph float_str self) "router_agent" state w = (Ok (route_target self state), w).
Proof.
  rewrite successor_router. unfold route_target, _route_decision.
  destruct (contains _ _); reflexivity.
Qed.

Lemma successor_query (self : System) (state : State) (w : W) :
  successor (graph float_str self) "query_agent" state w = (Ok "evaluation_agent", w).
Proof.
  unfold successor, graph, _build_graph; cbn [edges].
  rewrite !lookup_insert_ne by discriminate. rewrite lookup_insert_eq. reflexivity.
Qed.

Lemma successor_evaluation (self : System) (state : State) (w : W) :
  successor (graph float_str self) "evaluation_agent" state w =
  (Ok (evaluation_target self state), w).
Proof.
  unfold successor, graph, _build_graph, evaluation_target; cbn [edges].
  rewrite !lookup_insert_ne by discriminate. rewrite lookup_insert_eq.
  unfold _evaluation_decision.
  destruct (iteration state >=? max_iterations self).
  - rewrite lookup_insert_eq. reflexivity.
  - destruct (_ && _).
    + rewrite lookup_insert_eq. reflexivity.
    + rewrite lookup_insert_ne by discriminate. rewrite lookup_insert_eq. reflexivity.
Qed.

Lemma successor_response (self : System) (state : State) (w : W) :
  successor (graph float_str self) "response_agent" state w = (Ok END, w).
Proof.
  unfold successor, graph, _build_graph; cbn [edges].
  rewrite lookup_insert_eq. reflexivity.
Qed.

Lemma step_router (self : System) (state : State) (w : W) :
  step (graph float_str self) "router_agent" state w =
  step_of (router_agent self) "router_agent" (route_target self) state w.
Proof.
  unfold step, step_of, graph, _build_graph; cbn [nodes].
  rewrite !lookup_insert_ne by discriminate. rewrite lookup_insert_eq.
  unfold bind. destruct (router_agent self state w) as [[state' | e] w']; [| reflexivity].
  unfold record_step. fold (_build_graph float_str self). fold (graph float_str self).
  rewrite successor_router_target. reflexivity.
Qed.

Lemma step_query (self : System) (state : State) (w : W) :
  step (graph float_str self) "query_agent" state w =
  step_of (query_agent self) "query_agent" (fun _ => "evaluation_agent") state w.
Proof.
  unfold step, step_of, graph, _build_graph; cbn [nodes].
  rewrite !lookup_insert_ne by discriminate. rewrite lookup_insert_eq.
  unfold bind. destruct (query_agent self state w) as [[state' | e] w']; [| reflexivity].
  unfold record_step. fold (_build_graph float_str self). fold (graph float_str self).
  rewrite successor_query. reflexivity.
Qed.

Lemma step_evaluation (self : System) (state : State) (w : W) :
  step (graph float_str self) "evaluation_agent" state w =
  step_of (evaluation_agent float_str self) "evaluation_agent" (evaluation_target self) state w.
Proof.
  unfold step, step_of, graph, _build_graph; cbn [nodes].
  rewrite !lookup_insert_ne by discriminate. rewrite lookup_insert_eq.
  unfold bind. destruct (evaluation_agent float_str self state w) as [[state' | e] w'];
    [| reflexivity].
  unfold record_step. fold (_build_graph float_str self). fold (graph float_str self).
  rewrite successor_evaluation. reflexivity.
Qed.

Lemma step_response (self : System) (state : State) (w : W) :
  step (graph float_str self) "response_agent" state w =
  step_of (response_agent float_str self) "response_agent" (fun _ => END) state w.
Proof.
  unfold step, step_of, graph, _build_graph; cbn [nodes].
  rewrite lookup_insert_eq.
  unfold bind. destruct (response_agent float_str self state w) as [[state' | e] w'];
    [| reflexivity].
  unfold record_step. fold (_build_graph float_str self). fold (graph float_str self).
  rewrite successor_response. reflexivity.
Qed.

Lemma run_from_END (g : @StateGraph float Any) (limit : nat) (state : State) (w : W) :
  run_from g (S limit) END state w = (Ok state, w).
Proof. reflexivity. Qed.

Lemma run_from_S (g : @StateGraph float Any) (limit : nat) (node : string)
    (state : State) (w : W) :
  node <> END ->
  run_from g (S limit) node state w =
  match step g node state w with
  | (Ok next, w') => run_from g limit (fst next) (snd next) w'
  | (Raise e, w') => (Raise e, w')
  end.
Proof.
  intros Hne. cbn [run_from]. apply String.eqb_neq in Hne. rewrite Hne. reflexivity.
Qed.

Lemma run_from_O (g : @StateGraph float Any) (node : string) (state : State) (w : W) :
  run_from g 0 node state w = (Raise GraphRecursionError, w).
Proof. reflexivity. Qed.

Lemma route_target_eq (self : System) (state : State) :
  route_target self state =
  if contains "direct" (lower (default "" (metadata state !! "router_decision")))
  then "response_agent" else "query_agent".
Proof. unfold route_target, _route_decision. destruct (contains _ _); reflexivity. Qed.

Lemma route_target_node (self : System) (state : State) :
  route_target self state = "response_agent" \/ route_target self state = "query_agent".
Proof. unfold route_target. destruct (String.eqb _ _); auto. Qed.

Lemma evaluation_target_node (self : System) (state : State) :
  evaluation_target self state = "response_agent" \/
  evaluation_target self state = "query_agent".
Proof. unfold evaluation_target. destruct (String.eqb _ _); auto. Qed.

(** Invariant rule for runs of the graph: [Inv limit node state w] holds
    whenever the run is at [node] with [state] in world [w] and [limit]
    units of the budget left; [Post] holds of every way a run can end. *)
Lemma graph_run_rule (self : System)
    (Inv : nat -> string -> State -> W -> Prop) (Post : Outcome State -> W -> Prop) :
  (forall limit state w, Inv (S limit) END state w -> Post (Ok state) w) ->
  (forall node state w,
     graph_node node -> Inv 0%nat node state w -> Post (Raise GraphRecursionError) w) ->
  (forall limit state w, Inv (S limit) "router_agent" state w ->
     match router_agent self state w with
     | (Ok state', w') =>
         Inv limit (route_target self state') state' (log_step w' "router_agent" state')
     | (Raise e, w') => Post (Raise e) w'
     end) ->
  (forall limit state w, Inv (S limit) "query_agent" state w ->
     match query_agent self state w with
     | (Ok state', w') =>
         Inv limit "evaluation_agent" state' (log_step w' "query_agent" state')
     | (Raise e, w') => Post (Raise e) w'
     end) ->
  (forall limit state w, Inv (S limit) "evaluation_agent" state w ->
     match evaluation_agent float_str self state w with
     | (Ok state', w') =>
         Inv limit (evaluation_target self state') state'
           (log_step w' "evaluation_agent" state')
     | (Raise e, w') => Post (Raise e) w'
     end) ->
  (forall limit state w, Inv (S limit) "response_agent" state w ->
     match response_agent float_str self state w with
     | (Ok state', w') => Inv limit END state' (log_step w' "response_agent" state')
     | (Raise e, w') => Post (Raise e) w'
     end) ->
  forall limit node state w,
    graph_node node -> Inv limit node state w ->
    Post (fst (run_from (graph float_str self) limit node state w))
         (snd (run_from (graph float_str self) limit node state w)).
Proof.
  intros Hend Hlimit Hrouter Hquery Heval Hresp.
  induction limit as [| limit IH]; intros node state w Hnode Hinv.
  - rewrite run_from_O. eapply Hlimit; [exact Hnode | exact Hinv].
  - destruct Hnode as [-> | [-> | [-> | [-> | ->]]]].
    + rewrite run_from_S, step_router by discriminate. unfold step_of.
      specialize (Hrouter limit state w Hinv).
      destruct (router_agent self state w) as [[state' | e] w']; [| exact Hrouter].
      apply IH; [| exact Hrouter]. unfold graph_node.
      destruct (route_target_node self state') as [-> | ->]; auto.
    + rewrite run_from_S, step_query by discriminate. unfold step_of.
      specialize (Hquery limit state w Hinv).
      destruct (query_agent self state w) as [[state' | e] w']; [| exact Hquery].
      apply IH; [| exact Hquery]. unfold graph_node. auto.
    + rewrite run_from_S, step_evaluation by discriminate. unfold step_of.
      specialize (Heval limit state w Hinv).
      destruct (evaluation_agent float_str self state w) as [[state' | e] w']; [| exact Heval].
      apply IH; [| exact Heval]. unfold graph_node.
      destruct (evaluation_target_node self state') as [-> | ->]; auto.
    + rewrite run_from_S, step_response by discriminate. unfold step_of.
      specialize (Hresp limit state w Hinv).
      destruct (response_agent float_str self state w) as [[state' | e] w']; [| exact Hresp].
      apply IH; [| exact Hresp]. unfold graph_node. auto 6.
    + rewrite run_from_END. eapply Hend, Hinv.
Qed.

(** ** The iteration counter *)

Lemma last_counter_snoc (before : Z) (t : list (string * State)) (entry : string * State) :
  last_counter before (t ++ [entry]) = iteration (snd entry).
Proof. unfold last_counter. rewrite last_snoc. reflexivity. Qed.

Lemma last_counter_cons (before : Z) (entry : string * State) (t : list (string * State)) :
  last_counter before (entry :: t) = last_counter (iteration (snd entry)) t.
Proof.
  unfold last_counter. destruct t as [| e t]; [reflexivity |].
  rewrite last_cons. destruct (last (e :: t)) eqn:E; [reflexivity |].
  apply last_None in E. discriminate E.
Qed.

Lemma counter_steps_snoc (before : Z) (t : list (string * State)) (node : string)
    (state : State) :
  counter_steps before t ->
  iteration state =
    (if String.eqb node "query_agent"
     then last_counter before t + 1 else last_counter before t) ->
  counter_steps before (t ++ [(node, state)]).
Proof.
  revert before. induction t as [| [node' state'] t IH]; intros before Ht Hstate.
  - cbn. split; [exact Hstate | exact I].
  - destruct Ht as [Hhead Ht]. cbn [app counter_steps]. split; [exact Hhead |].
    apply IH; [exact Ht |]. rewrite last_counter_cons in Hstate. exact Hstate.
Qed.

Lemma counter_steps_lower (before : Z) (t : list (string * State)) :
  counter_steps before t -> Forall (fun entry => before <= iteration (snd entry)) t.
Proof.
  revert before. induction t as [| [node state] t IH]; intros before Ht; [constructor |].
  destruct Ht as [Hhead Ht]. specialize (IH _ Ht).
  assert (Hle : before <= iteration state) by (destruct (String.eqb node _); lia).
  constructor; [exact Hle |].
  eapply Forall_impl; [exact IH |]. cbn. intros entry H. lia.
Qed.

(** The counter values of a trace are in non-decreasing order. *)
Lemma counter_steps_sorted (before : Z) (t : list (string * State)) :
  counter_steps before t ->
  StronglySorted Z.le (before :: map (fun entry => iteration (snd entry)) t).
Proof.
  revert before. induction t as [| [node state] t IH]; intros before Ht.
  - repeat constructor.
  - constructor.
    + apply IH. apply Ht.
    + apply Forall_map. apply (counter_steps_lower before ((node, state) :: t) Ht).
Qed.

Lemma execute_eq (self : System) (limit : nat) (text : string) (w : W) :
  execute float_str self limit text w =
  match run_from (graph float_str self) limit "router_agent" (initial_state text) w with
  | (Ok final_state, w') =>
      (Ok {| res_answer := answer final_state;
             res_sources := search_results final_state;
             res_metadata := metadata final_state;
             res_iterations := iteration final_state |}, w')
  | (Raise e, w') => (Raise e, w')
  end.
Proof. reflexivity. Qed.

Ltac agent_case :=
  let limit' := fresh "limit'" in
  let state := fresh "state" in
  let w := fresh "w" in
  let Hinv := fresh "Hinv" in
  intros limit' state w Hinv;
  unfold router_agent, query_agent, evaluation_agent, response_agent,
    bind, llm_ainvoke, vector_search, ret;
  match goal with
  | |- context [llm ?s ?n ?m] => destruct (llm s n m) as [e | response] eqn:Ereply
  | |- context [vector_search_func ?s ?n ?m] =>
      destruct (vector_search_func s n m) as [e | results] eqn:Ereply
  end;
  cbn [log_step log_llm_call log_search_call trace calls llm_calls search_calls
       iteration answer search_results metadata messages].

(** In every run the counter follows [counter_steps] from 0 and stays within
    the larger of 1 and [max_iterations]. *)
Lemma run_counter (self : System) (limit : nat) (text : string) (w : W) :
  trace w = [] ->
  let bound := Z.max 1 (max_iterations self) in
  let result := run_from (graph float_str self) limit "router_agent" (initial_state text) w in
  counter_steps 0 (trace (snd result)) /\
  Forall (fun entry => iteration (snd entry) <= bound) (trace (snd result)) /\
  (forall final_state, fst result = Ok final_state -> iteration final_state <= bound).
Proof.
  intros Hw bound result. subst result.
  apply (graph_run_rule self
    (fun _ node state w =>
       counter_steps 0 (trace w) /\
       Forall (fun entry => iteration (snd entry) <= bound) (trace w) /\
       last_counter 0 (trace w) = iteration state /\
       iteration state <= bound /\
       (node = "query_agent" \/ node = "router_agent" -> iteration state < bound))
    (fun out w =>
       counter_steps 0 (trace w) /\
       Forall (fun entry => iteration (snd entry) <= bound) (trace w) /\
       (forall final_state, out = Ok final_state -> iteration final_state <= bound))).
  - intros _ state w0 (H1 & H2 & H3 & H4 & H5). repeat split; try assumption.
    intros final_state [= <-]. exact H4.
  - intros node state w0 _ (H1 & H2 & H3 & H4 & H5). repeat split; try assumption.
    intros final_state [=].
  - agent_case; destruct Hinv as (H1 & H2 & H3 & H4 & H5).
    + repeat split; try assumption. intros final_state [=].
    + split; [| split; [| split; [| split]]].
      * apply counter_steps_snoc; [exact H1 |]. cbn. exact (eq_sym H3).
      * apply Forall_app. split; [exact H2 |]. repeat constructor. exact H4.
      * apply last_counter_snoc.
      * exact H4.
      * intros _. apply H5. right. reflexivity.
  - agent_case; destruct Hinv as (H1 & H2 & H3 & H4 & H5).
    + repeat split; try assumption. intros final_state [=].
    + assert (Hlt : iteration state < bound) by (apply H5; left; reflexivity).
      split; [| split; [| split; [| split]]].
      * apply counter_steps_snoc; [exact H1 |]. cbn. rewrite H3. reflexivity.
      * apply Forall_app. split; [exact H2 |]. repeat constructor. cbn. lia.
      * apply last_counter_snoc.
      * lia.
      * intros [H | H]; discriminate H.
  - agent_case; destruct Hinv as (H1 & H2 & H3 & H4 & H5).
    + repeat split; try assumption. intros final_state [=].
    + split; [| split; [| split; [| split]]].
      * apply counter_steps_snoc; [exact H1 |]. cbn. exact (eq_sym H3).
      * apply Forall_app. split; [exact H2 |]. repeat constructor. exact H4.
      * apply last_counter_snoc.
      * exact H4.
      * unfold evaluation_target, _evaluation_decision. cbn [iteration].
        destruct (Z.geb_spec (iteration state) (max_iterations self)) as [Hge | Hlt].
        -- cbn. intros [H | H]; discriminate H.
        -- intros _. unfold bound. lia.
  - agent_case; destruct Hinv as (H1 & H2 & H3 & H4 & H5).
    + repeat split; try assumption. intros final_state [=].
    + split; [| split; [| split; [| split]]].
      * apply counter_steps_snoc; [exact H1 |]. cbn. exact (eq_sym H3).
      * apply Forall_app. split; [exact H2 |]. repeat constructor. exact H4.
      * apply last_counter_snoc.
      * exact H4.
      * intros [H | H]; discriminate H.
  - unfold graph_node. auto.
  - rewrite Hw. cbn. repeat split; try constructor; unfold bound; try lia.
Qed.

(** C3. In every run of [execute] with a non-negative [max_iterations], the
    counter starts at 0, each node leaves it unchanged except the retriever,
    which adds exactly 1, so that it never decreases from one node to the
    next, and it never exceeds [max_iterations + 1]. *)
Theorem iteration_counter_discipline (self : System) (limit : nat) (text : string)
    (n m : nat) :
  0 <= max_iterations self ->
  let run := execute float_str self limit text (start_world n m) in
  iteration (@initial_state float Any text) = 0 /\
  counter_steps 0 (trace (snd run)) /\
  StronglySorted Z.le (0 :: map (fun entry => iteration (snd entry)) (trace (snd run))) /\
  Forall (fun entry => iteration (snd entry) <= max_iterations self + 1) (trace (snd run)) /\
  (forall result, fst run = Ok result -> res_iterations result <= max_iterations self + 1).
Proof.
  intros Hmax run.
  destruct (run_counter self limit text (start_world n m) eq_refl) as (Hsteps & Hbound & Hfinal).
  subst run. rewrite execute_eq.
  destruct (run_from _ _ _ _ _) as [[final_state | e] w'] eqn:Erun; cbn [fst snd] in *.
  - split; [reflexivity |]. split; [exact Hsteps |].
    split; [apply counter_steps_sorted, Hsteps |]. split.
    + eapply Forall_impl; [exact Hbound |]. cbn. intros entry H. lia.
    + intros result [= <-]. cbn. specialize (Hfinal final_state eq_refl). lia.
  - split; [reflexivity |]. split; [exact Hsteps |].
    split; [apply counter_steps_sorted, Hsteps |]. split.
    + eapply Forall_impl; [exact Hbound |]. cbn. intros entry H. lia.
    + intros result [=].
Qed.

(** C10. With [max_iterations >= 1] the counter never exceeds
    [max_iterations]: "refine" is chosen only below the limit, a retriever
    pass adds exactly 1, and the returned count is at most [max_iterations]. *)
Theorem iteration_within_limit (self : System) (limit : nat) (text : string) (n m : nat) :
  1 <= max_iterations self ->
  let run := execute float_str self limit text (start_world n m) in
  Forall (fun entry => iteration (snd entry) <= max_iterations self) (trace (snd run)) /\
  (forall result, fst run = Ok result -> res_iterations result <= max_iterations self) /\
  (forall state : State,
     _evaluation_decision self state = "refine" -> iteration state < max_iterations self) /\
  (forall (state state' : State) (w w' : W),
     query_agent self state w = (Ok state', w') -> iteration state' = iteration state + 1).
Proof.
  intros Hmax run.
  destruct (run_counter self limit text (start_world n m) eq_refl) as (Hsteps & Hbound & Hfinal).
  subst run. rewrite execute_eq.
  assert (Hrefine : forall state : State,
             _evaluation_decision self state = "refine" ->
             iteration state < max_iterations self).
  { intros state. unfold _evaluation_decision.
    destruct (Z.geb_spec (iteration state) (max_iterations self)); [discriminate | lia]. }
  assert (Hquery : forall (state state' : State) (w w' : W),
             query_agent self state w = (Ok state', w') ->
             iteration state' = iteration state + 1).
  { intros state state' w w'. unfold query_agent, bind, vector_search, ret.
    destruct (vector_search_func self _ _); [discriminate |]. intros [= <- _]. reflexivity. }
  destruct (run_from _ _ _ _ _) as [[final_state | e] w'] eqn:Erun; cbn [fst snd] in *.
  - split; [| split; [| split; [exact Hrefine | exact Hquery]]].
    + eapply Forall_impl; [exact Hbound |]. cbn. intros entry H. lia.
    + intros result [= <-]. cbn. specialize (Hfinal final_state eq_refl). lia.
  - split; [| split; [| split; [exact Hrefine | exact Hquery]]].
    + eapply Forall_impl; [exact Hbound |]. cbn. intros entry H. lia.
    + intros result [=].
Qed.

(** ** The agents, by the reply of the dependency they call *)

Lemma router_agent_reply (self : System) (state : State) (w : W) (response : Message) :
  llm self (llm_calls w) (router_messages state) = inr response ->
  router_agent self state w =
  (Ok {| messages := messages state ++ [response];
         query := query state;
         search_results := search_results state;
         answer := answer state;
         current_agent := "router";
         metadata := <["router_decision" := content response]> (metadata state);
         iteration := iteration state |},
   log_llm_call w (router_messages state) (inr response)).
Proof. intros H. unfold router_agent, bind, llm_ainvoke, ret. rewrite H. reflexivity. Qed.

Lemma query_agent_reply (self : System) (state : State) (w : W)
    (results : list (@SearchResult float Any)) :
  vector_search_func self (search_calls w) (query state) = inr results ->
  query_agent self state w =
  (Ok {| messages := messages state;
         query := query state;
         search_results :=
           map (fun r => {| r_content := sr_content r;
                            r_score := sr_score r;
                            r_metadata := sr_metadata r |}) results;
         answer := answer state;
         current_agent := "query";
         metadata := metadata state;
         iteration := iteration state + 1 |},
   log_search_call w (query state) (inr results)).
Proof. intros H. unfold query_agent, bind, vector_search, ret. rewrite H. reflexivity. Qed.

Lemma evaluation_agent_reply (self : System) (state : State) (w : W) (response : Message) :
  llm self (llm_calls w) (evaluation_messages float_str state) = inr response ->
  evaluation_agent float_str self state w =
  (Ok {| messages := messages state ++ [response];
         query := query state;
         search_results := search_results state;
         answer := answer state;
         current_agent := "evaluation";
         metadata := <["evaluation" := content response]> (metadata state);
         iteration := iteration state |},
   log_llm_call w (evaluation_messages float_str state) (inr response)).
Proof. intros H. unfold evaluation_agent, bind, llm_ainvoke, ret. rewrite H. reflexivity. Qed.

Lemma response_agent_reply (self : System) (state : State) (w : W) (response : Message) :
  llm self (llm_calls w) (response_messages float_str state) = inr response ->
  response_agent float_str self state w =
  (Ok {| messages := messages state ++ [response];
         query := query state;
         search_results := search_results state;
         answer := content response;
         current_agent := "response";
         metadata := metadata state;
         iteration := iteration state |},
   log_llm_call w (response_messages float_str state) (inr response)).
Proof. intros H. unfold response_agent, bind, llm_ainvoke, ret. rewrite H. reflexivity. Qed.

(** ** Runs that always refine *)

Lemma summary_snoc (t : list (string * State)) (node : string) (state : State) :
  summary (t ++ [(node, state)]) = (summary t ++ [(node, iteration state)])%list.
Proof. unfold summary. rewrite map_app. reflexivity. Qed.

Lemma cycles_length (from : Z) (k : nat) : length (cycles from k) = (2 * k)%nat.
Proof. revert from. induction k as [| k IH]; intros from; cbn; [| rewrite IH]; lia. Qed.

Lemma evaluation_decision_insufficient (self : System) (state : State) :
  ~ judged_sufficient (default "" (metadata state !! "evaluation")) ->
  _evaluation_decision self state =
  if iteration state >=? max_iterations self then "respond" else "refine".
Proof.
  intros Hins. unfold _evaluation_decision.
  destruct (iteration state >=? max_iterations self); [reflexivity |].
  destruct (contains "sufficient" _) eqn:Es; [| reflexivity].
  destruct (contains "true" _) eqn:Et; [| reflexivity].
  exfalso. apply Hins. split; apply PyStrFacts.contains_lower; auto.
Qed.

Lemma refine_loop (self : System) :
  never_fails self -> always_insufficient float_str self ->
  forall (k : nat) (state : State) (w : W) (limit : nat),
    iteration state + Z.of_nat (S k) = max_iterations self ->
    (2 * S k + 2 <= limit)%nat ->
    exists final_state w',
      run_from (graph float_str self) limit "query_agent" state w = (Ok final_state, w') /\
      iteration final_state = max_iterations self /\
      summary (trace w') =
        (summary (trace w) ++ cycles (iteration state) (S k)
           ++ [("response_agent", max_iterations self)])%list /\
      search_calls w' = (search_calls w + S k)%nat /\
      exists forced,
        In ("evaluation_agent", forced) (trace w') /\
        iteration forced = max_iterations self /\
        ~ judged_sufficient (default "" (metadata forced !! "evaluation")) /\
        _evaluation_decision self forced = "respond".
Proof.
  intros [Hllm Hsearch] Hins. induction k as [| k IH]; intros state w limit Hiter Hlimit.
  - destruct limit as [| [| [| [| limit]]]]; try lia.
    destruct (Hsearch (search_calls w) (query state)) as [results Hresults].
    rewrite run_from_S, step_query by discriminate. unfold step_of.
    rewrite (query_agent_reply _ _ _ _ Hresults). cbn [fst snd].
    set (state1 := {| iteration := iteration state + 1 |}).
    set (w1 := log_step _ "query_agent" state1).
    destruct (Hllm (llm_calls w1) (evaluation_messages float_str state1)) as [reply Hreply].
    rewrite run_from_S, step_evaluation by discriminate. unfold step_of.
    rewrite (evaluation_agent_reply _ _ _ _ Hreply). cbn [fst snd].
    set (state2 := {| metadata := <["evaluation" := content reply]> (metadata state1) |}).
    set (w2 := log_step _ "evaluation_agent" state2).
    assert (Hjudged : ~ judged_sufficient (default "" (metadata state2 !! "evaluation"))).
    { subst state2. cbn [metadata]. rewrite lookup_insert_eq. cbn. eapply Hins, Hreply. }
    assert (Hdecision : _evaluation_decision self state2 = "respond").
    { rewrite (evaluation_decision_insufficient _ _ Hjudged).
      replace (iteration state2) with (max_iterations self) by (cbn; lia).
      destruct (Z.geb_spec (max_iterations self) (max_iterations self)); [reflexivity | lia]. }
    assert (Htarget : evaluation_target self state2 = "response_agent").
    { unfold evaluation_target. rewrite Hdecision. reflexivity. }
    rewrite Htarget.
    destruct (Hllm (llm_calls w2) (response_messages float_str state2)) as [final Hfinal].
    rewrite run_from_S, step_response by discriminate. unfold step_of.
    rewrite (response_agent_reply _ _ _ _ Hfinal). cbn [fst snd].
    rewrite run_from_END. eexists _, _. split; [reflexivity |].
    split; [cbn; lia |]. split; [| split].
    + subst w2 w1. cbn [log_step log_llm_call log_search_call trace].
      rewrite !summary_snoc. subst state2 state1. cbn [iteration cycles].
      rewrite <- !app_assoc. cbn [app]. repeat f_equal; lia.
    + cbn. lia.
    + exists state2. split; [| split; [cbn; lia | split; [exact Hjudged | exact Hdecision]]].
      cbn [log_step log_llm_call trace]. apply in_or_app. left. subst w2.
      cbn [log_step trace]. apply in_or_app. right. left. reflexivity.
  - destruct limit as [| [| limit]]; try lia.
    destruct (Hsearch (search_calls w) (query state)) as [results Hresults].
    rewrite run_from_S, step_query by discriminate. unfold step_of.
    rewrite (query_agent_reply _ _ _ _ Hresults). cbn [fst snd].
    set (state1 := {| iteration := iteration state + 1 |}).
    set (w1 := log_step _ "query_agent" state1).
    destruct (Hllm (llm_calls w1) (evaluation_messages float_str state1)) as [reply Hreply].
    rewrite run_from_S, step_evaluation by discriminate. unfold step_of.
    rewrite (evaluation_agent_reply _ _ _ _ Hreply). cbn [fst snd].
    set (state2 := {| metadata := <["evaluation" := content reply]> (metadata state1) |}).
    set (w2 := log_step _ "evaluation_agent" state2).
    assert (Hjudged : ~ judged_sufficient (default "" (metadata state2 !! "evaluation"))).
    { subst state2. cbn [metadata]. rewrite lookup_insert_eq. cbn. eapply Hins, Hreply. }
    assert (Hdecision : _evaluation_decision self state2 = "refine").
    { rewrite (evaluation_decision_insufficient _ _ Hjudged).
      destruct (Z.geb_spec (iteration state2) (max_iterations self)) as [Hge | Hlt];
        [cbn in Hge; lia | reflexivity]. }
    assert (Htarget : evaluation_target self state2 = "query_agent").
    { unfold evaluation_target. rewrite Hdecision. reflexivity. }
    rewrite Htarget.
    destruct (IH state2 w2 limit) as (final_state & w' & Hrun & Hfinal & Htrace & Hcalls & Hforced).
    { cbn. lia. }
    { lia. }
    exists final_state, w'. split; [exact Hrun |]. split; [exact Hfinal |].
    split; [| split; [| exact Hforced]].
    + rewrite Htrace. subst w2 w1. cbn [log_step log_llm_call log_search_call trace].
      rewrite !summary_snoc. subst state2 state1. cbn [iteration cycles].
      rewrite <- !app_assoc. cbn [app]. reflexivity.
    + rewrite Hcalls. cbn. lia.
Qed.

Ltac by_node :=
  repeat split; intros;
  first [ match goal with H : @eq string _ _ |- _ => discriminate H end | lia ].

(** When no dependency fails, a run with [max_iterations >= 1] ends within
    [2 * max_iterations + 2] nodes, after at most [max_iterations] retrieval
    passes; it returns under any larger budget. *)
Lemma run_terminates (self : System) (limit : nat) (text : string) (w : W) :
  1 <= max_iterations self -> never_fails self ->
  (2 * Z.to_nat (max_iterations self) + 2 < limit)%nat ->
  let result := run_from (graph float_str self) limit "router_agent" (initial_state text) w in
  exists final_state,
    fst result = Ok final_state /\
    0 <= iteration final_state <= max_iterations self /\
    Z.of_nat (search_calls (snd result)) = Z.of_nat (search_calls w) + iteration final_state.
Proof.
  intros Hmax [Hllm Hsearch] Hlimit result. subst result.
  set (N := max_iterations self) in *.
  apply (graph_run_rule self
    (fun limit node state w0 =>
       0 <= iteration state <= N /\
       Z.of_nat (search_calls w0) = Z.of_nat (search_calls w) + iteration state /\
       (node = "router_agent" -> iteration state = 0 /\ 2 * N + 3 <= Z.of_nat limit) /\
       (node = "query_agent" ->
          iteration state < N /\ 2 * (N - iteration state) + 2 <= Z.of_nat limit) /\
       (node = "evaluation_agent" -> 2 * (N - iteration state) + 3 <= Z.of_nat limit) /\
       (node = "response_agent" -> 2 <= Z.of_nat limit) /\
       (node = END -> 1 <= Z.of_nat limit))
    (fun out w0 =>
       exists final_state,
         out = Ok final_state /\
         0 <= iteration final_state <= N /\
         Z.of_nat (search_calls w0) = Z.of_nat (search_calls w) + iteration final_state)).
  - intros _ state w0 (H1 & H2 & _). exists state. auto.
  - intros node state w0 Hnode (H1 & H2 & Hr & Hq & He & Hs & Hd). exfalso.
    destruct Hnode as [-> | [-> | [-> | [-> | ->]]]];
      [ destruct (Hr eq_refl) | destruct (Hq eq_refl) | specialize (He eq_refl)
      | specialize (Hs eq_refl) | specialize (Hd eq_refl) ]; lia.
  - agent_case; destruct Hinv as (H1 & H2 & Hr & Hq & He & Hs & Hd).
    + destruct (Hllm (llm_calls w0) (router_messages state)) as [r Hr']. congruence.
    + destruct (Hr eq_refl) as [Hzero Hfuel].
      split; [exact H1 |]. split; [exact H2 |].
      match goal with
      | |- context [route_target self ?s] =>
          destruct (route_target_node self s) as [-> | ->]
      end; by_node.
  - agent_case; destruct Hinv as (H1 & H2 & Hr & Hq & He & Hs & Hd).
    + destruct (Hsearch (search_calls w0) (query state)) as [r Hr']. congruence.
    + destruct (Hq eq_refl) as [Hlt Hfuel].
      split; [lia |]. split; [lia |].
      by_node.
  - agent_case; destruct Hinv as (H1 & H2 & Hr & Hq & He & Hs & Hd).
    + destruct (Hllm (llm_calls w0) (evaluation_messages float_str state)) as [r Hr']. congruence.
    + specialize (He eq_refl).
      split; [exact H1 |]. split; [exact H2 |].
      unfold evaluation_target, _evaluation_decision. cbn [iteration].
      destruct (Z.geb_spec (iteration state) (max_iterations self)) as [Hge | Hlt].
      * cbn. by_node.
      * fold N in Hlt. destruct (_ && _); cbn;
          by_node.
  - agent_case; destruct Hinv as (H1 & H2 & Hr & Hq & He & Hs & Hd).
    + destruct (Hllm (llm_calls w0) (response_messages float_str state)) as [r Hr']. congruence.
    + specialize (Hs eq_refl). split; [exact H1 |]. split; [exact H2 |].
      by_node.
  - unfold graph_node. auto.
  - cbn. split; [lia |]. split; [lia |].
    by_node.
Qed.

(** A run that returns under a budget returns the same under any larger
    one. *)
Lemma run_from_mono (g : @StateGraph float Any) (limit limit' : nat) (node : string)
    (state final : State) (w w' : W) :
  run_from g limit node state w = (Ok final, w') -> (limit <= limit')%nat ->
  run_from g limit' node state w = (Ok final, w').
Proof.
  revert limit' node state w. induction limit as [| limit IH];
    intros limit' node state w Hrun Hle; [discriminate Hrun |].
  destruct limit' as [| limit']; [lia |]. cbn [run_from] in Hrun |- *.
  destruct (String.eqb node END); [exact Hrun |]. unfold bind in Hrun |- *.
  destruct (step g node state w) as [[next | e] w1]; [| discriminate Hrun].
  apply IH; [exact Hrun | lia].
Qed.

(** Every node of a run uses one unit of the budget, and a run that
    returns has one unit left for the turn that finds it at [END]. *)
Lemma run_trace_length (self : System) (limit : nat) (text : string) (w : W) :
  let result := run_from (graph float_str self) limit "router_agent" (initial_state text) w in
  forall final, fst result = Ok final ->
                (length (trace (snd result)) < length (trace w) + limit)%nat.
Proof.
  intros result. subst result.
  apply (graph_run_rule self
    (fun left _ _ w0 => (length (trace w0) + left = length (trace w) + limit)%nat)
    (fun out w0 =>
       forall final, out = Ok final -> (length (trace w0) < length (trace w) + limit)%nat)).
  - intros left state w0 Hinv final _. lia.
  - intros node state w0 _ _ final [=].
  - agent_case; [intros final [=] |]. rewrite length_app. cbn [length]. lia.
  - agent_case; [intros final [=] |]. rewrite length_app. cbn [length]. lia.
  - agent_case; [intros final [=] |]. rewrite length_app. cbn [length]. lia.
  - agent_case; [intros final [=] |]. rewrite length_app. cbn [length]. lia.
  - unfold graph_node. auto.
  - reflexivity.
Qed.

(** When no dependency fails, a run returns or runs out of budget. *)
Lemma run_outcomes (self : System) (limit : nat) (text : string) (w : W) :
  never_fails self ->
  let result := run_from (graph float_str self) limit "router_agent" (initial_state text) w in
  (exists final, fst result = Ok final) \/ fst result = Raise GraphRecursionError.
Proof.
  intros [Hllm Hsearch] result. subst result.
  apply (graph_run_rule self
    (fun _ _ _ _ => True)
    (fun out _ => (exists final, out = Ok final) \/ out = Raise GraphRecursionError)).
  - intros _ state w0 _. left. eauto.
  - intros node state w0 _ _. right. reflexivity.
  - agent_case; [| exact I].
    destruct (Hllm (llm_calls w0) (router_messages state)) as [r Hr]. congruence.
  - agent_case; [| exact I].
    destruct (Hsearch (search_calls w0) (query state)) as [r Hr]. congruence.
  - agent_case; [| exact I].
    destruct (Hllm (llm_calls w0) (evaluation_messages float_str state)) as [r Hr]. congruence.
  - agent_case; [| exact I].
    destruct (Hllm (llm_calls w0) (response_messages float_str state)) as [r Hr]. congruence.
  - unfold graph_node. auto.
  - exact I.
Qed.


(** ** The direct path *)

(** C5. When the router reply of a run contains "direct" up to case, the
    retriever never runs and the retrieval function is never called,
    [search_results] is empty in every state of the run, the synthesizer is
    called right after the router, and a run that returns gives empty
    sources and an iteration count of 0. *)
Theorem direct_route (self : System) (limit : nat) (text : string) (n m : nat)
    (response : Message) :
  llm self n (router_messages (@initial_state float Any text)) = inr response ->
  occurs_nocase "direct" (content response) ->
  let run := execute float_str self limit text (start_world n m) in
  Forall (fun entry => fst entry <> "query_agent" /\ search_results (snd entry) = [])
    (trace (snd run)) /\
  search_calls (snd run) = m /\
  ((2 <= limit)%nat ->
   exists routed : State,
     search_results routed = [] /\
     calls (snd run) =
       [LlmCall (router_messages (@initial_state float Any text)) (inr response);
        LlmCall (response_messages float_str routed)
          (llm self (S n) (response_messages float_str routed))]) /\
  (forall result,
     fst run = Ok result ->
     res_sources result = [] /\ res_iterations result = 0 /\
     map fst (trace (snd run)) = ["router_agent"; "response_agent"]).
Proof.
  intros Hresponse Hdirect run. subst run. rewrite execute_eq.
  destruct limit as [| limit].
  { rewrite run_from_O. cbn.
    split; [constructor |]. split; [reflexivity |]. split; [lia |]. intros result [=]. }
  rewrite run_from_S, step_router by discriminate. unfold step_of.
  rewrite (router_agent_reply self (initial_state text) (start_world n m) response Hresponse).
  cbn [fst snd].
  set (state1 := {| current_agent := "router" |}).
  set (w1 := log_step _ "router_agent" state1).
  assert (Htarget : route_target self state1 = "response_agent").
  { rewrite route_target_eq. subst state1. cbn [metadata].
    rewrite lookup_insert_eq. cbn [default from_option id].
    apply PyStrFacts.contains_lower in Hdirect; [| reflexivity]. rewrite Hdirect. reflexivity. }
  rewrite Htarget.
  destruct limit as [| limit].
  { rewrite run_from_O. cbn.
    split; [repeat constructor; discriminate |]. split; [reflexivity |]. split; [lia |].
    intros result [=]. }
  rewrite run_from_S, step_response by discriminate. unfold step_of.
  unfold response_agent, bind, llm_ainvoke, ret.
  change (llm_calls w1) with (S n).
  destruct (llm self (S n) (response_messages float_str state1)) as [e | final] eqn:Efinal.
  - cbn. split; [repeat constructor; discriminate |]. split; [reflexivity |].
    split; [| intros result [=]].
    intros _. exists state1. split; [reflexivity |]. rewrite Efinal. reflexivity.
  - cbn [fst snd]. destruct limit as [| limit].
    + rewrite run_from_O. cbn.
      split; [repeat constructor; discriminate |]. split; [reflexivity |].
      split; [| intros result [=]].
      intros _. exists state1. split; [reflexivity |]. rewrite Efinal. reflexivity.
    + rewrite run_from_END. cbn.
      split; [repeat constructor; discriminate |]. split; [reflexivity |]. split.
      * intros _. exists state1. split; [reflexivity |]. rewrite Efinal. reflexivity.
      * intros result [= <-]. cbn. auto.
Qed.

(** ** The answer *)

Lemma run_answer (self : System) (limit : nat) (text : string) (w : W) :
  trace w = [] ->
  let result := run_from (graph float_str self) limit "router_agent" (initial_state text) w in
  match fst result with
  | Ok final => answered_by_synthesizer float_str final (snd result)
  | Raise e =>
      answer_unset (trace (snd result)) \/
      (e = GraphRecursionError /\ length (trace (snd result)) = limit /\
       exists final, answered_by_synthesizer float_str final (snd result))
  end.
Proof.
  intros Hw result. subst result.
  apply (graph_run_rule self
    (fun left node state w =>
       (length (trace w) + left = limit)%nat /\
       ((node <> END /\ answer_unset (trace w) /\ answer state = "") \/
        (node = END /\ answered_by_synthesizer float_str state w)))
    (fun out w =>
       match out with
       | Ok final => answered_by_synthesizer float_str final w
       | Raise e =>
           answer_unset (trace w) \/
           (e = GraphRecursionError /\ length (trace w) = limit /\
            exists final, answered_by_synthesizer float_str final w)
       end)).
  - intros left state w0 [_ [[Hne _] | [_ H]]]; [contradiction | exact H].
  - intros node state w0 _ [Hlen [[_ [H _]] | [_ H]]]; [left; exact H |].
    right. split; [reflexivity |]. split; [lia |]. exists state. exact H.
  - agent_case; destruct Hinv as [Hlen [(_ & Ht & Ha) | [He _]]]; try discriminate He.
    + left. exact Ht.
    + split; [rewrite length_app; cbn [length]; lia |].
      left. split; [| split; [| exact Ha]].
      * match goal with
        | |- context [route_target self ?s] =>
            destruct (route_target_node self s) as [-> | ->]
        end; discriminate.
      * apply Forall_app. split; [exact Ht |]. repeat constructor; [discriminate | exact Ha].
  - agent_case; destruct Hinv as [Hlen [(_ & Ht & Ha) | [He _]]]; try discriminate He.
    + left. exact Ht.
    + split; [rewrite length_app; cbn [length]; lia |].
      left. split; [discriminate |]. split; [| exact Ha].
      apply Forall_app. split; [exact Ht |]. repeat constructor; [discriminate | exact Ha].
  - agent_case; destruct Hinv as [Hlen [(_ & Ht & Ha) | [He _]]]; try discriminate He.
    + left. exact Ht.
    + split; [rewrite length_app; cbn [length]; lia |].
      left. split; [| split; [| exact Ha]].
      * match goal with
        | |- context [evaluation_target self ?s] =>
            destruct (evaluation_target_node self s) as [-> | ->]
        end; discriminate.
      * apply Forall_app. split; [exact Ht |]. repeat constructor; [discriminate | exact Ha].
  - agent_case; destruct Hinv as [Hlen [(_ & Ht & Ha) | [He _]]]; try discriminate He.
    + left. exact Ht.
    + split; [rewrite length_app; cbn [length]; lia |].
      right. split; [reflexivity |]. unfold answered_by_synthesizer.
      cbn [log_step log_llm_call trace calls answer].
      exists (trace w0), state, response.
      split; [reflexivity |]. split; [exact Ht |]. split; [| reflexivity].
      rewrite last_snoc. reflexivity.
  - unfold graph_node. auto.
  - split; [rewrite Hw; reflexivity |].
    left. split; [discriminate |]. rewrite Hw. split; [constructor | reflexivity].
Qed.


(** ** The synthesizer's context *)

Lemma enumerate_from_lookup {A : Type} (l : list A) (i k : nat) :
  enumerate_from i l !! k = (fun x => ((i + k)%nat, x)) <$> (l !! k).
Proof.
  revert i k. induction l as [| x l IH]; intros i k; [reflexivity |].
  destruct k as [| k]; cbn.
  - rewrite Nat.add_0_r. reflexivity.
  - rewrite IH. replace (S i + k)%nat with (i + S k)%nat by lia. reflexivity.
Qed.

Lemma enumerate_from_length {A : Type} (l : list A) (i : nat) :
  length (enumerate_from i l) = length l.
Proof. revert i. induction l as [| x l IH]; intros i; cbn; [| rewrite IH]; reflexivity. Qed.


(** ** The evaluator *)

(** C9. Every execution of [evaluation_agent] calls the language model once,
    whatever the counter: the call is logged, and when it replies, the reply
    is appended to the message log and its text is stored under
    "evaluation"; if the counter has reached [max_iterations], the decision
    on the new state is "respond" whatever the reply says. *)
Theorem evaluator_always_consults (self : System) (state : State) (w : W) :
  let prompt := evaluation_messages float_str state in
  let reply := llm self (llm_calls w) prompt in
  let out := evaluation_agent float_str self state w in
  llm_calls (snd out) = S (llm_calls w) /\
  search_calls (snd out) = search_calls w /\
  calls (snd out) = (calls w ++ [LlmCall prompt reply])%list /\
  match reply with
  | inr response =>
      exists state',
        fst out = Ok state' /\
        messages state' = (messages state ++ [response])%list /\
        metadata state' = <["evaluation" := content response]> (metadata state) /\
        metadata state' !! "evaluation" = Some (content response) /\
        iteration state' = iteration state /\
        (max_iterations self <= iteration state ->
         _evaluation_decision self state' = "respond")
  | inl e => fst out = Raise (DependencyError e)
  end.
Proof.
  intros prompt reply out. subst out reply prompt.
  unfold evaluation_agent, bind, llm_ainvoke, ret.
  destruct (llm self (llm_calls w) (evaluation_messages float_str state)) as [e | response];
    cbn [fst snd log_llm_call llm_calls search_calls calls].
  - auto.
  - split; [reflexivity |]. split; [reflexivity |]. split; [reflexivity |].
    eexists. split; [reflexivity |]. cbn [messages metadata iteration].
    split; [reflexivity |]. split; [reflexivity |].
    split; [apply lookup_insert_eq |]. split; [reflexivity |].
    intros Hlimit. unfold _evaluation_decision. cbn [iteration].
    destruct (Z.geb_spec (iteration state) (max_iterations self)); [reflexivity | lia].
Qed.

(** ** Failures of the dependencies *)

Lemma run_failures (self : System) (limit : nat) (text : string) (w : W) :
  calls w = [] ->
  let result := run_from (graph float_str self) limit "router_agent" (initial_state text) w in
  match fst result with
  | Raise (DependencyError e) => aborted_by e (snd result)
  | Raise (GraphKeyError _) => False
  | _ => all_calls_returned (calls (snd result))
  end.
Proof.
  intros Hw result. subst result.
  apply (graph_run_rule self
    (fun _ _ _ w => all_calls_returned (calls w))
    (fun out w =>
       match out with
       | Raise (DependencyError e) => aborted_by e w
       | Raise (GraphKeyError _) => False
       | _ => all_calls_returned (calls w)
       end)).
  - intros _ state w0 H. exact H.
  - intros node state w0 _ H. exact H.
  - agent_case.
    + eexists _, _. split; [reflexivity |]. split; [exact Hinv | reflexivity].
    + apply Forall_app. split; [exact Hinv |]. repeat constructor.
  - agent_case.
    + eexists _, _. split; [reflexivity |]. split; [exact Hinv | reflexivity].
    + apply Forall_app. split; [exact Hinv |]. repeat constructor.
  - agent_case.
    + eexists _, _. split; [reflexivity |]. split; [exact Hinv | reflexivity].
    + apply Forall_app. split; [exact Hinv |]. repeat constructor.
  - agent_case.
    + eexists _, _. split; [reflexivity |]. split; [exact Hinv | reflexivity].
    + apply Forall_app. split; [exact Hinv |]. repeat constructor.
  - unfold graph_node. auto.
  - rewrite Hw. constructor.
Qed.

(** C8. No agent catches a failure of its dependency: when the language
    model or the retrieval function raises [e], the agent raises [e].  In a
    run of [execute], a call that raises [e] is the last call of the run and
    [execute] raises the same [e] instead of returning a result; conversely
    a dependency error raised by [execute] is the error of the last call. *)
Theorem dependency_failure_propagates (self : System) (limit : nat) (text : string)
    (n m : nat) :
  (forall (state : State) (w : W) (e : string),
     (llm self (llm_calls w) (router_messages state) = inl e ->
      fst (router_agent self state w) = Raise (DependencyError e)) /\
     (vector_search_func self (search_calls w) (query state) = inl e ->
      fst (query_agent self state w) = Raise (DependencyError e)) /\
     (llm self (llm_calls w) (evaluation_messages float_str state) = inl e ->
      fst (evaluation_agent float_str self state w) = Raise (DependencyError e)) /\
     (llm self (llm_calls w) (response_messages float_str state) = inl e ->
      fst (response_agent float_str self state w) = Raise (DependencyError e))) /\
  let run := execute float_str self limit text (start_world n m) in
  (forall c e,
     In c (calls (snd run)) -> call_error c = Some e ->
     fst run = Raise (DependencyError e) /\ last (calls (snd run)) = Some c) /\
  (forall e, fst run = Raise (DependencyError e) -> aborted_by e (snd run)) /\
  (forall result, fst run = Ok result -> all_calls_returned (calls (snd run))).
Proof.
  split.
  - intros state w e.
    unfold router_agent, query_agent, evaluation_agent, response_agent,
      bind, llm_ainvoke, vector_search, ret.
    repeat split; intros ->; reflexivity.
  - intros run. subst run. rewrite execute_eq.
    pose proof (run_failures self limit text (start_world n m) eq_refl) as Hrun.
    cbv zeta in Hrun.
    destruct (run_from _ _ _ _ _) as [[final | err] w'] eqn:Erun; cbn [fst snd] in *.
    + split; [| split; [intros e [=] | intros _ _; exact Hrun]].
      intros c e Hin Herr. exfalso.
      apply (proj1 (List.Forall_forall _ _) Hrun) in Hin. congruence.
    + split; [| split; [| intros result [=]]].
      * intros c e Hin Herr. destruct err as [e' | | k].
        -- destruct Hrun as (cs & c' & Hcalls & Hcs & Hc').
           rewrite Hcalls in Hin |- *. apply in_app_or in Hin as [Hin | [<- | []]].
           ++ exfalso. apply (proj1 (List.Forall_forall _ _) Hcs) in Hin. congruence.
           ++ rewrite last_snoc. split; [congruence | reflexivity].
        -- exfalso. apply (proj1 (List.Forall_forall _ _) Hrun) in Hin. congruence.
        -- contradiction.
      * intros e [= ->]. exact Hrun.
Qed.

End Workflow.

(** * The properties on the example systems *)

Example refining_run :
  let run := execute id (refining_system 2) 25 "Summarize document X" (start_world 0 0) in
  map fst (trace (snd run)) =
    ["router_agent"; "query_agent"; "evaluation_agent"; "query_agent"; "evaluation_agent";
     "response_agent"] /\
  (res_iterations <$> (match fst run with Ok r => Some r | Raise _ => None end)) = Some 2.
Proof. vm_compute. split; reflexivity. Qed.

(** With a negative limit the counter still reaches 1. *)
Example negative_limit_run :
  (res_iterations <$>
     (match fst (execute id (refining_system (-1)) 25 "q" (start_world 0 0)) with
      | Ok r => Some r
      | Raise _ => None
      end)) = Some 1.
Proof. vm_compute. reflexivity. Qed.

(** The budget is tested before the end of the run: the direct run has 2
    nodes and returns under a budget of 3, not of 2; the run with two
    refinements has 6 nodes and returns under a budget of 7, not of 6, and
    under the budget of 6 all its nodes have run when it raises. *)
Example budget_boundary_runs :
  fst (execute id direct_system 2 "What is photosynthesis?" (start_world 0 0)) =
    Raise GraphRecursionError /\
  map fst (trace (snd (execute id direct_system 2 "What is photosynthesis?"
                         (start_world 0 0)))) = ["router_agent"; "response_agent"] /\
  (res_iterations <$>
     (match fst (execute id direct_system 3 "What is photosynthesis?" (start_world 0 0)) with
      | Ok r => Some r
      | Raise _ => None
      end)) = Some 0 /\
  fst (execute id (refining_system 2) 6 "Summarize document X" (start_world 0 0)) =
    Raise GraphRecursionError /\
  length (trace (snd (execute id (refining_system 2) 6 "Summarize document X"
                        (start_world 0 0)))) = 6%nat /\
  (res_iterations <$>
     (match fst (execute id (refining_system 2) 7 "Summarize document X" (start_world 0 0)) with
      | Ok r => Some r
      | Raise _ => None
      end)) = Some 2.
Proof. vm_compute. repeat split. Qed.

Example failing_run :
  fst (execute id failing_system 25 "q" (start_world 0 0)) =
  Raise (DependencyError "connection refused").
Proof. vm_compute. reflexivity. Qed.

Example twelve_results_context :
  length (context_blocks id twelve_results) = 5%nat /\
  context_blocks id twelve_results !! 4%nat =
    Some ("[Source 5] (Score: 0.5)" +:+ nl +:+ "text") /\
  PyStr.contains "[Source 5]" (build_context id twelve_results) = true /\
  PyStr.contains "[Source 6]" (build_context id twelve_results) = false.
Proof. vm_compute. repeat split. Qed.

Example empty_reply_routes_to_retrieval :
  _route_decision (refining_system 2)
    {| messages := []; query := "q"; search_results := []; answer := "";
       current_agent := "router"; metadata := {["router_decision" := ""]};
       iteration := 0 |} = "query".
Proof. vm_compute. reflexivity. Qed.

Lemma refining_system_never_fails (N : Z) : never_fails (refining_system N).
Proof. split; intros; eexists; reflexivity. Defined.

Lemma refining_system_insufficient (N : Z) : always_insufficient id (refining_system N).
Proof.
  intros k state response H [_ Ht]. cbn in H. injection H as <-.
  apply PyStrFacts.contains_lower in Ht; [| reflexivity].
  destruct k; vm_compute in Ht; discriminate Ht.
Defined.

Lemma iteration_counter_discipline_witness :
  0 <= max_iterations (refining_system 2) /\
  Forall (fun entry => iteration (snd entry) <= 2 + 1)
    (trace (snd (execute id (refining_system 2) 25 "Summarize document X" (start_world 0 0)))).
Proof.
  assert (H : 0 <= max_iterations (refining_system 2)) by (cbn; lia).
  split; [exact H |].
  exact (proj1 (proj2 (proj2 (proj2
    (iteration_counter_discipline id (refining_system 2) 25 "Summarize document X" 0 0 H))))).
Defined.

Lemma iteration_within_limit_witness :
  1 <= max_iterations (refining_system 2) /\
  Forall (fun entry => iteration (snd entry) <= 2)
    (trace (snd (execute id (refining_system 2) 25 "Summarize document X" (start_world 0 0)))).
Proof.
  assert (H : 1 <= max_iterations (refining_system 2)) by (cbn; lia).
  split; [exact H |].
  exact (proj1 (iteration_within_limit id (refining_system 2) 25 "Summarize document X" 0 0 H)).
Defined.



Lemma direct_route_witness :
  PyStr.occurs_nocase "direct" "route: direct, reasoning: general knowledge" /\
  forall result,
    fst (execute id direct_system 25 "What is photosynthesis?" (start_world 0 0)) = Ok result ->
    res_sources result = [] /\ res_iterations result = 0.
Proof.
  assert (H : PyStr.occurs_nocase "direct" "route: direct, reasoning: general knowledge").
  { exists "route: ", "direct", ", reasoning: general knowledge".
    split; [reflexivity |]. cbn. repeat split; left; reflexivity. }
  split; [exact H |]. intros result Hrun.
  destruct (direct_route id direct_system 25 "What is photosynthesis?" 0 0
              (AIMessage "route: direct, reasoning: general knowledge") eq_refl H)
    as (_ & _ & _ & Hresult).
  destruct (Hresult result Hrun) as (Hsources & Hiter & _).
  split; [exact Hsources | exact Hiter].
Defined.

(** * Further properties of the workflow *)

Section Runs.

Context {float Any : Type}.
Variable float_str : float -> string.

Abbreviation System := (@MultiAgentRAGSystem float Any).
Abbreviation State := (@GraphState float Any).
Abbreviation W := (@World float Any).

Import PyStr.

Ltac agent_step :=
  let limit' := fresh "limit'" in
  let state := fresh "state" in
  let w := fresh "w" in
  let Hinv := fresh "Hinv" in
  intros limit' state w Hinv;
  unfold router_agent, query_agent, evaluation_agent, response_agent,
    bind, llm_ainvoke, vector_search, ret;
  match goal with
  | |- context [llm ?s ?n ?m] => destruct (llm s n m) as [e | response] eqn:Ereply
  | |- context [vector_search_func ?s ?n ?m] =>
      destruct (vector_search_func s n m) as [e | results] eqn:Ereply
  end;
  cbn [log_step log_llm_call log_search_call trace calls llm_calls search_calls
       iteration answer search_results metadata messages query current_agent].

Ltac phase_values :=
  change (@phase "router_agent") with 0 in *;
  change (@phase "query_agent") with 1 in *;
  change (@phase "evaluation_agent") with 0 in *;
  change (@phase "response_agent") with 1 in *;
  change (@phase END) with 2 in *.

Ltac by_name :=
  repeat split; intros;
  try match goal with H : @eq string _ _ |- _ => discriminate H end.

Lemma phase_route_target (self : System) (state : State) :
  phase (route_target self state) = 1.
Proof. destruct (route_target_node self state) as [-> | ->]; reflexivity. Qed.

Lemma phase_evaluation_target (self : System) (state : State) :
  phase (evaluation_target self state) = 1.
Proof. destruct (evaluation_target_node self state) as [-> | ->]; reflexivity. Qed.

(** X1. Accounting of a run.  A run that returns with [iterations = k] has
    called the retrieval function [k] times and the language model [k + 2]
    times (router, [k] evaluations, synthesizer), and has run [2 k + 2] nodes,
    within the step budget.  A run that ends with [GraphRecursionError] has
    run exactly as many nodes as the budget allows; a run aborted by a
    dependency has run fewer. *)
Theorem run_accounting (self : System) (limit : nat) (text : string) (n m : nat) :
  let run := execute float_str self limit text (start_world n m) in
  match fst run with
  | Ok result =>
      0 <= res_iterations result /\
      Z.of_nat (search_calls (snd run)) = Z.of_nat m + res_iterations result /\
      Z.of_nat (llm_calls (snd run)) = Z.of_nat n + res_iterations result + 2 /\
      Z.of_nat (length (trace (snd run))) = 2 * res_iterations result + 2 /\
      (length (trace (snd run)) <= limit)%nat
  | Raise GraphRecursionError => length (trace (snd run)) = limit
  | Raise _ => (length (trace (snd run)) < limit)%nat
  end.
Proof.
  intros run. subst run. rewrite execute_eq.
  pose proof (graph_run_rule float_str self
    (fun limit' node state w =>
       (length (trace w) + limit' = limit)%nat /\
       0 <= iteration state /\
       Z.of_nat (search_calls w) = Z.of_nat m + iteration state /\
       Z.of_nat (llm_calls w) = Z.of_nat n + iteration state + phase node /\
       Z.of_nat (length (trace w)) = 2 * iteration state + phase node)
    (fun out w =>
       match out with
       | Ok final =>
           0 <= iteration final /\
           Z.of_nat (search_calls w) = Z.of_nat m + iteration final /\
           Z.of_nat (llm_calls w) = Z.of_nat n + iteration final + 2 /\
           Z.of_nat (length (trace w)) = 2 * iteration final + 2 /\
           (length (trace w) <= limit)%nat
       | Raise GraphRecursionError => length (trace w) = limit
       | Raise _ => (length (trace w) < limit)%nat
       end)) as Hrule.
  cbv beta in Hrule.
  specialize (Hrule
    ltac:(intros limit' state w (H1 & H2 & H3 & H4 & H5); phase_values; repeat split; lia)
    ltac:(intros node state w _ (H1 & _); lia)
    ltac:(agent_step; destruct Hinv as (H1 & H2 & H3 & H4 & H5); phase_values;
          [lia | rewrite phase_route_target, length_app; cbn [length]; repeat split; lia])
    ltac:(agent_step; destruct Hinv as (H1 & H2 & H3 & H4 & H5); phase_values;
          [lia | rewrite length_app; cbn [length]; repeat split; lia])
    ltac:(agent_step; destruct Hinv as (H1 & H2 & H3 & H4 & H5); phase_values;
          [lia | rewrite phase_evaluation_target, length_app; cbn [length]; repeat split; lia])
    ltac:(agent_step; destruct Hinv as (H1 & H2 & H3 & H4 & H5); phase_values;
          [lia | rewrite length_app; cbn [length]; repeat split; lia])
    limit "router_agent" (initial_state text) (start_world n m)).
  cbv beta in Hrule.
  destruct (run_from _ _ _ _ _) as [[final | e] w'] eqn:Erun; cbn [fst snd] in *.
  - cbn [res_iterations]. apply Hrule.
    + unfold graph_node. auto.
    + phase_values. cbn. repeat split; lia.
  - apply Hrule.
    + unfold graph_node. auto.
    + phase_values. cbn. repeat split; lia.
Qed.

Lemma llm_replies_app (cs cs' : list (@Call float Any)) :
  llm_replies (cs ++ cs') = (llm_replies cs ++ llm_replies cs')%list.
Proof.
  induction cs as [| [prompt [e | r] | text reply] cs IH]; cbn; rewrite ?IH; reflexivity.
Qed.

Lemma search_replies_app (cs cs' : list (@Call float Any)) :
  search_replies (cs ++ cs') = (search_replies cs ++ search_replies cs')%list.
Proof.
  induction cs as [| [prompt reply | text [e | r]] cs IH]; cbn; rewrite ?IH; reflexivity.
Qed.

Lemma search_texts_app (cs cs' : list (@Call float Any)) :
  search_texts (cs ++ cs') = (search_texts cs ++ search_texts cs')%list.
Proof.
  induction cs as [| [prompt reply | text reply] cs IH]; cbn; rewrite ?IH; reflexivity.
Qed.

Lemma search_texts_llm (cs : list (@Call float Any)) (prompt : list Message)
    (reply : string + Message) :
  search_texts (cs ++ [LlmCall prompt reply]) = search_texts cs.
Proof. rewrite search_texts_app. cbn. apply app_nil_r. Qed.

Lemma search_texts_search (cs : list (@Call float Any)) (text : string)
    (reply : string + list (@SearchResult float Any)) :
  search_texts (cs ++ [SearchCall text reply]) = (search_texts cs ++ [text])%list.
Proof. rewrite search_texts_app. reflexivity. Qed.

Lemma results_of_llm (cs : list (@Call float Any)) (prompt : list Message)
    (reply : string + Message) :
  results_of (cs ++ [LlmCall prompt reply]) = results_of cs.
Proof.
  unfold results_of. rewrite search_replies_app. destruct reply; cbn; rewrite app_nil_r;
    reflexivity.
Qed.

Lemma search_replies_llm (cs : list (@Call float Any)) (prompt : list Message)
    (reply : string + Message) :
  search_replies (cs ++ [LlmCall prompt reply]) = search_replies cs.
Proof. rewrite search_replies_app. destruct reply; cbn; apply app_nil_r. Qed.

Lemma results_of_search (cs : list (@Call float Any)) (text : string)
    (results : list (@SearchResult float Any)) :
  results_of (cs ++ [SearchCall text (inr results)]) = map to_result_dict results.
Proof. unfold results_of. rewrite search_replies_app. cbn. rewrite last_snoc. reflexivity. Qed.

Lemma metadata_after_snoc (r0 : Message) (evals : list Message) (r : Message) :
  metadata_after r0 (evals ++ [r]) = <["evaluation" := content r]> (metadata_after r0 evals).
Proof. unfold metadata_after. rewrite foldl_snoc. reflexivity. Qed.

Lemma metadata_after_lookup (r0 : Message) (evals : list Message) :
  metadata_after r0 evals !! "router_decision" = Some (content r0) /\
  metadata_after r0 evals !! "evaluation" = content <$> last evals /\
  (forall k, k <> "router_decision" -> k <> "evaluation" ->
             metadata_after r0 evals !! k = None).
Proof.
  induction evals as [| r evals IH] using rev_ind.
  - unfold metadata_after. cbn. split; [apply lookup_insert_eq |]. split.
    + rewrite lookup_insert_ne by discriminate. apply lookup_empty.
    + intros k Hr _. rewrite lookup_insert_ne by congruence. apply lookup_empty.
  - rewrite metadata_after_snoc, last_snoc. destruct IH as (Hr & He & Hk). split; [| split].
    + rewrite lookup_insert_ne by discriminate. exact Hr.
    + apply lookup_insert_eq.
    + intros k Hkr Hke. rewrite lookup_insert_ne by congruence. apply Hk; assumption.
Qed.

Lemma says_direct_contains (r0 : Message) :
  contains "direct" (lower (content r0)) = true <-> says_direct r0.
Proof. apply PyStrFacts.contains_lower. reflexivity. Qed.

(** The final state of a run that returns, in terms of the replies the
    dependencies gave during the run. *)
Lemma run_replies (self : System) (limit : nat) (text : string) (w : W) :
  calls w = [] ->
  let result := run_from (graph float_str self) limit "router_agent" (initial_state text) w in
  match fst result with
  | Ok final =>
      exists r0 evals rf, completed (snd result) final r0 evals rf /\ stopped_at self evals
  | Raise _ => True
  end.
Proof.
  intros Hw result. subst result.
  apply (graph_run_rule float_str self
    (fun _ node state w =>
       Z.of_nat (length (search_replies (calls w))) = iteration state /\
       search_results state = results_of (calls w) /\
       (node = "router_agent" -> calls w = [] /\ state = initial_state text) /\
       (node = "query_agent" ->
          exists r0 evals, in_progress w state r0 evals /\
            Z.of_nat (length evals) = iteration state /\ ~ says_direct r0 /\
            refining self evals) /\
       (node = "evaluation_agent" ->
          exists r0 evals, in_progress w state r0 evals /\
            Z.of_nat (length evals) + 1 = iteration state /\ ~ says_direct r0 /\
            refining self evals) /\
       (node = "response_agent" ->
          exists r0 evals, in_progress w state r0 evals /\
            Z.of_nat (length evals) = iteration state /\
            (iteration state = 0 <-> says_direct r0) /\
            stopped_at self evals) /\
       (node = END ->
          exists r0 evals rf, completed w state r0 evals rf /\ stopped_at self evals))
    (fun out w =>
       match out with
       | Ok final =>
           exists r0 evals rf, completed w final r0 evals rf /\ stopped_at self evals
       | Raise _ => True
       end)).
  - intros _ state w0 (_ & _ & _ & _ & _ & _ & H). apply H. reflexivity.
  - intros node state w0 _ _. exact I.
  - agent_step; [exact I |]. destruct Hinv as (_ & _ & Hr & _). destruct (Hr eq_refl) as [Hc ->].
    cbn [initial_state messages query search_results answer metadata iteration].
    rewrite route_target_eq. cbn [metadata]. rewrite lookup_insert_eq.
    cbn [default from_option id].
    assert (Hres : forall prompt,
               [] = @results_of float Any (calls w0 ++ [LlmCall prompt (inr response)])).
    { intros prompt. rewrite results_of_llm, Hc. reflexivity. }
    destruct (contains "direct" (lower (content response))) eqn:Edirect.
    + split; [rewrite search_replies_app, Hc; reflexivity |]. split; [apply Hres |]. by_name.
      exists response, []. split; [| split; [reflexivity |]].
      * unfold in_progress. cbn [log_step log_llm_call calls messages metadata answer].
        rewrite Hc. cbn. auto.
      * split; [| left; reflexivity].
        split; [intros _; apply says_direct_contains, Edirect | reflexivity].
    + split; [rewrite search_replies_app, Hc; reflexivity |]. split; [apply Hres |]. by_name.
      exists response, []. split; [| split; [reflexivity |]].
      * unfold in_progress. cbn [log_step log_llm_call calls messages metadata answer].
        rewrite Hc. cbn. auto.
      * split; [| split; [constructor | intros Hnil; contradiction]].
        intros Hd. apply says_direct_contains in Hd. congruence.
  - agent_step; [exact I |]. destruct Hinv as (Hit & _ & _ & Hq & _).
    destruct (Hq eq_refl) as (r0 & evals & (Hl & Hm & Hmeta & Ha) & Hlen & Hnd & Href).
    split; [rewrite search_replies_app, length_app; cbn; lia |].
    split; [symmetry; apply results_of_search |]. by_name.
    exists r0, evals. split; [| split; [lia | split; [exact Hnd | exact Href]]].
    unfold in_progress. cbn [log_step log_search_call calls messages metadata answer].
    rewrite llm_replies_app. cbn. rewrite app_nil_r. auto.
  - agent_step; [exact I |]. destruct Hinv as (Hit & Hsr & _ & _ & He & _).
    destruct (He eq_refl) as (r0 & evals & (Hl & Hm & Hmeta & Ha) & Hlen & Hnd & Href).
    assert (Hp : forall st' : State,
               messages st' = (messages state ++ [response])%list ->
               metadata st' = <["evaluation" := content response]> (metadata state) ->
               answer st' = answer state ->
               in_progress
                 (log_step (log_llm_call w0 (evaluation_messages float_str state) (inr response))
                    "evaluation_agent" st') st' r0 (evals ++ [response])).
    { intros st' H1 H2 H3. unfold in_progress.
      cbn [log_step log_llm_call calls]. rewrite llm_replies_app, Hl, H1, H2, H3, Hm, Hmeta.
      rewrite metadata_after_snoc. cbn. auto. }
    assert (Hlen' : Z.of_nat (length (evals ++ [response])) = iteration state)
      by (rewrite length_app; cbn [length]; lia).
    match goal with
    | |- context [evaluation_target self ?s] =>
        specialize (Hp s eq_refl eq_refl eq_refl); unfold evaluation_target, _evaluation_decision;
        cbn [iteration metadata]; rewrite lookup_insert_eq; cbn [default from_option id]
    end.
    destruct (Z.geb_spec (iteration state) (max_iterations self)) as [Hge | Hlt];
      [| destruct (contains "sufficient" (lower (content response))) eqn:Es;
         [destruct (contains "true" (lower (content response))) eqn:Et |]];
      cbn [andb String.eqb Ascii.eqb Bool.eqb].
    + split; [rewrite search_replies_llm; exact Hit |].
      split; [rewrite results_of_llm; exact Hsr |]. by_name.
      exists r0, (evals ++ [response])%list. split; [exact Hp |].
      split; [exact Hlen' |]. split; [split; [lia | contradiction] |].
      right. exists evals, response. split; [reflexivity |]. split; [exact Href |].
      right. lia.
    + split; [rewrite search_replies_llm; exact Hit |].
      split; [rewrite results_of_llm; exact Hsr |]. by_name.
      exists r0, (evals ++ [response])%list. split; [exact Hp |].
      split; [exact Hlen' |]. split; [split; [lia | contradiction] |].
      right. exists evals, response. split; [reflexivity |]. split; [exact Href |].
      left. split; apply PyStrFacts.contains_lower; auto.
    + split; [rewrite search_replies_llm; exact Hit |].
      split; [rewrite results_of_llm; exact Hsr |]. by_name.
      exists r0, (evals ++ [response])%list. split; [exact Hp |].
      split; [exact Hlen' |]. split; [exact Hnd |]. destruct Href as [Hall _].
      split; [| intros _; lia]. apply Forall_app. split; [exact Hall |].
      repeat constructor. intros [_ Htrue].
      apply PyStrFacts.contains_lower in Htrue; [congruence | reflexivity].
    + split; [rewrite search_replies_llm; exact Hit |].
      split; [rewrite results_of_llm; exact Hsr |]. by_name.
      exists r0, (evals ++ [response])%list. split; [exact Hp |].
      split; [exact Hlen' |]. split; [exact Hnd |]. destruct Href as [Hall _].
      split; [| intros _; lia]. apply Forall_app. split; [exact Hall |].
      repeat constructor. intros [Hsuff _].
      apply PyStrFacts.contains_lower in Hsuff; [congruence | reflexivity].
  - agent_step; [exact I |]. destruct Hinv as (Hit & Hsr & _ & _ & _ & Hs & _).
    destruct (Hs eq_refl) as (r0 & evals & (Hl & Hm & Hmeta & Ha) & Hlen & Hd & Hstop).
    split; [rewrite search_replies_llm; exact Hit |].
    split; [rewrite results_of_llm; exact Hsr |]. by_name.
    exists r0, evals, response. split; [| exact Hstop]. unfold completed.
    cbn [log_step log_llm_call calls messages metadata answer search_results iteration].
    rewrite llm_replies_app, Hl, Hm, results_of_llm, search_replies_llm. cbn. auto 10.
  - unfold graph_node. auto.
  - split; [rewrite Hw; reflexivity |]. split; [rewrite Hw; reflexivity |]. by_name. auto.
Qed.

Lemma execute_replies (self : System) (limit : nat) (text : string) (n m : nat) :
  let run := execute float_str self limit text (start_world n m) in
  forall result,
    fst run = Ok result ->
    exists r0 evals rf,
      llm_replies (calls (snd run)) = (r0 :: evals ++ [rf])%list /\
      res_metadata result = metadata_after r0 evals /\
      res_answer result = content rf /\
      res_sources result = results_of (calls (snd run)) /\
      Z.of_nat (length evals) = res_iterations result /\
      Z.of_nat (length (search_replies (calls (snd run)))) = res_iterations result /\
      (res_iterations result = 0 <-> says_direct r0) /\
      stopped_at self evals.
Proof.
  intros run result. subst run. rewrite execute_eq.
  pose proof (run_replies self limit text (start_world n m) eq_refl) as Hrun.
  cbv zeta in Hrun.
  destruct (run_from _ _ _ _ _) as [[final | e] w'] eqn:Erun; cbn [fst snd] in *;
    [| discriminate].
  intros [= <-].
  destruct Hrun as (r0 & evals & rf & (Hl & _ & Hmeta & Ha & Hs & Hlen & Hsl & Hd) & Hstop).
  exists r0, evals, rf. cbn. auto 10.
Qed.

(** X2. The metadata that [execute] returns has the text of the router's
    reply under "router_decision", the text of the last evaluator reply
    under "evaluation" when there was an evaluation and no such key when
    there was none, and no other key; there were as many evaluations as the
    returned iteration count. *)
Theorem returned_metadata (self : System) (limit : nat) (text : string) (n m : nat) :
  let run := execute float_str self limit text (start_world n m) in
  match fst run with
  | Ok result =>
      exists r0 evals rf,
        llm_replies (calls (snd run)) = (r0 :: evals ++ [rf])%list /\
        Z.of_nat (length evals) = res_iterations result /\
        res_metadata result !! "router_decision" = Some (content r0) /\
        res_metadata result !! "evaluation" = content <$> last evals /\
        (forall k, k <> "router_decision" -> k <> "evaluation" ->
                   res_metadata result !! k = None)
  | Raise _ => True
  end.
Proof.
  intros run. destruct (fst run) as [result | e] eqn:Hrun; [| exact I].
  destruct (execute_replies self limit text n m result Hrun)
    as (r0 & evals & rf & Hl & Hmeta & _ & _ & Hlen & _ & _ & _).
  exists r0, evals, rf. rewrite Hmeta.
  destruct (metadata_after_lookup r0 evals) as (H1 & H2 & H3). auto 10.
Qed.

(** X3. The sources that [execute] returns are the results of the last
    retrieval of the run, each reduced to content, score and metadata, in the
    order the retrieval function gave them; results of earlier retrievals are
    gone, and there were as many retrievals as the returned iteration count,
    so that without a retrieval the sources are empty. *)
Theorem returned_sources (self : System) (limit : nat) (text : string) (n m : nat) :
  let run := execute float_str self limit text (start_world n m) in
  match fst run with
  | Ok result =>
      res_sources result =
        match last (search_replies (calls (snd run))) with
        | Some results => map to_result_dict results
        | None => []
        end /\
      Z.of_nat (length (search_replies (calls (snd run)))) = res_iterations result /\
      (res_iterations result = 0 -> res_sources result = [])
  | Raise _ => True
  end.
Proof.
  intros run. destruct (fst run) as [result | e] eqn:Hrun; [| exact I].
  destruct (execute_replies self limit text n m result Hrun)
    as (r0 & evals & rf & Hl & _ & _ & Hs & Hlen & Hsl & Hd & _).
  split; [exact Hs |]. split; [exact Hsl |].
  intros Hzero. rewrite Hs. unfold results_of. subst run.
  destruct (search_replies _); [reflexivity | cbn in Hsl; lia].
Qed.

(** X4. A run that returns made no retrieval exactly when the router's reply
    contains "direct" up to case: on the retrieval path the retriever has run
    at least once before the answer is written. *)
Theorem retrieval_unless_direct (self : System) (limit : nat) (text : string) (n m : nat) :
  let run := execute float_str self limit text (start_world n m) in
  match fst run with
  | Ok result =>
      exists r0,
        head (llm_replies (calls (snd run))) = Some r0 /\
        (res_iterations result = 0 <-> occurs_nocase "direct" (content r0)) /\
        (~ occurs_nocase "direct" (content r0) -> 1 <= res_iterations result)
  | Raise _ => True
  end.
Proof.
  intros run. destruct (fst run) as [result | e] eqn:Hrun; [| exact I].
  destruct (execute_replies self limit text n m result Hrun)
    as (r0 & evals & rf & Hl & _ & _ & _ & Hlen & _ & Hd & _).
  exists r0. subst run. rewrite Hl. split; [reflexivity |]. split; [exact Hd |].
  intros Hnd. unfold says_direct in Hd. assert (res_iterations result <> 0) by tauto. lia.
Qed.

(** X5. What decides the iteration count.  In a run that returns, the
    evaluator replies are: none, or some replies that are all judged
    insufficient and came below the limit, followed by one reply that is
    judged sufficient or came when the counter had reached [max_iterations];
    the returned count is their number.  The run thus stops at the first
    sufficient evaluation or at the limit, whichever comes first. *)
Theorem iteration_count_determined (self : System) (limit : nat) (text : string)
    (n m : nat) :
  let run := execute float_str self limit text (start_world n m) in
  match fst run with
  | Ok result =>
      exists r0 evals rf,
        llm_replies (calls (snd run)) = (r0 :: evals ++ [rf])%list /\
        Z.of_nat (length evals) = res_iterations result /\
        (evals = [] \/
         exists prev response,
           evals = (prev ++ [response])%list /\
           Forall (fun r => ~ judged_sufficient (content r)) prev /\
           (prev <> [] -> Z.of_nat (length prev) < max_iterations self) /\
           (judged_sufficient (content response) \/
            max_iterations self <= res_iterations result))
  | Raise _ => True
  end.
Proof.
  intros run. destruct (fst run) as [result | e] eqn:Hrun; [| exact I].
  destruct (execute_replies self limit text n m result Hrun)
    as (r0 & evals & rf & Hl & _ & _ & _ & Hlen & _ & _ & Hstop).
  exists r0, evals, rf. split; [exact Hl |]. split; [exact Hlen |].
  destruct Hstop as [-> | (prev & response & -> & [Hall Hbelow] & Hlast)]; [left; reflexivity |].
  right. exists prev, response. rewrite <- Hlen. auto.
Qed.

(** X6. One retrieval.  In a run that returns on the retrieval path, the
    iteration count is 1 when the first evaluator reply is judged
    sufficient, and also whenever [max_iterations <= 1], zero and negative
    values included: the limit is only looked at after a retrieval. *)
Theorem single_retrieval (self : System) (limit : nat) (text : string) (n m : nat) :
  let run := execute float_str self limit text (start_world n m) in
  match fst run with
  | Ok result =>
      exists r0 evals rf,
        llm_replies (calls (snd run)) = (r0 :: evals ++ [rf])%list /\
        (forall first,
           head evals = Some first -> judged_sufficient (content first) ->
           res_iterations result = 1) /\
        (max_iterations self <= 1 -> evals <> [] -> res_iterations result = 1) /\
        (max_iterations self <= 1 -> res_iterations result = 0 \/ res_iterations result = 1)
  | Raise _ => True
  end.
Proof.
  intros run. destruct (fst run) as [result | e] eqn:Hrun; [| exact I].
  destruct (execute_replies self limit text n m result Hrun)
    as (r0 & evals & rf & Hl & _ & _ & _ & Hlen & _ & _ & Hstop).
  exists r0, evals, rf. split; [exact Hl |].
  destruct Hstop as [-> | (prev & response & -> & [Hall Hbelow] & Hlast)].
  - cbn in Hlen. split; [intros first [=] |]. split; [intros _ Hne; contradiction | auto].
  - rewrite length_app in Hlen. cbn [length] in Hlen.
    assert (Hone : prev = [] -> res_iterations result = 1) by (intros ->; cbn in Hlen; lia).
    split; [| split].
    + intros first Hhead Hsuff. apply Hone. destruct prev as [| p prev]; [reflexivity |].
      cbn in Hhead. injection Hhead as ->. inversion Hall; subst. contradiction.
    + intros Hmax _. apply Hone. destruct prev as [| p prev]; [reflexivity |].
      assert (Z.of_nat (length (p :: prev)) < max_iterations self) by (apply Hbelow; discriminate).
      cbn [length] in *. lia.
    + intros Hmax. right. apply Hone. destruct prev as [| p prev]; [reflexivity |].
      assert (Z.of_nat (length (p :: prev)) < max_iterations self) by (apply Hbelow; discriminate).
      cbn [length] in *. lia.
Qed.

Lemma cycles_snoc (from : Z) (k : nat) :
  cycles from (S k) =
  (cycles from k ++ [("query_agent", from + Z.of_nat k + 1);
                     ("evaluation_agent", from + Z.of_nat k + 1)])%list.
Proof.
  revert from. induction k as [| k IH]; intros from.
  - replace (from + Z.of_nat 0 + 1) with (from + 1) by lia. reflexivity.
  - change (cycles from (S (S k)))
      with (("query_agent", from + 1) :: ("evaluation_agent", from + 1)
            :: cycles (from + 1) (S k)).
    rewrite IH. replace (from + 1 + Z.of_nat k + 1) with (from + Z.of_nat (S k) + 1) by lia.
    reflexivity.
Qed.

Lemma course_before_values (it : Z) :
  course_before "router_agent" it = [] /\
  course_before "query_agent" it = ("router_agent", 0) :: cycles 0 (Z.to_nat it) /\
  course_before "response_agent" it = ("router_agent", 0) :: cycles 0 (Z.to_nat it) /\
  course_before "evaluation_agent" it =
    ("router_agent", 0) :: (cycles 0 (Z.to_nat (it - 1)) ++ [("query_agent", it)])%list /\
  course_before END it =
    ("router_agent", 0) :: (cycles 0 (Z.to_nat it) ++ [("response_agent", it)])%list.
Proof. repeat split. Qed.

Ltac course_values :=
  rewrite ?(proj1 (course_before_values _)),
          ?(proj1 (proj2 (course_before_values _))),
          ?(proj1 (proj2 (proj2 (course_before_values _)))),
          ?(proj1 (proj2 (proj2 (proj2 (course_before_values _))))),
          ?(proj2 (proj2 (proj2 (proj2 (course_before_values _))))).

(** X7. The course of a run.  A run that returns with [iterations = k] has
    run, in this order, the router, [k] times the retriever followed by the
    evaluator with the counter at 1, 2, ..., [k], and the synthesizer once,
    last.  A run that raises stopped somewhere along this course: the
    retriever is never followed by anything but the evaluator, and nothing
    runs before the router.  It stopped before the synthesizer, with one
    exception: under a step budget that equals the number of nodes of the
    complete course, the run raises [GraphRecursionError] after the whole
    course has run. *)
Theorem run_course (self : System) (limit : nat) (text : string) (n m : nat) :
  let run := execute float_str self limit text (start_world n m) in
  match fst run with
  | Ok result =>
      0 <= res_iterations result /\
      summary (trace (snd run)) =
        ("router_agent", 0)
        :: (cycles 0 (Z.to_nat (res_iterations result))
            ++ [("response_agent", res_iterations result)])%list
  | Raise e =>
      partial_run (summary (trace (snd run))) \/
      (e = GraphRecursionError /\ length (trace (snd run)) = limit /\
       exists k : nat,
         summary (trace (snd run)) =
           ("router_agent", 0) :: (cycles 0 k ++ [("response_agent", Z.of_nat k)])%list)
  end.
Proof.
  intros run. subst run. rewrite execute_eq.
  assert (Hpartial : forall node (state : State) (w : W),
             graph_node node -> node <> END -> on_course node state w ->
             partial_run (summary (trace w))).
  { intros node state w Hnode Hne (Hit & Hr & He & ->).
    destruct Hnode as [-> | [-> | [-> | [-> | ->]]]]; try contradiction.
    - left. reflexivity.
    - right. exists (Z.to_nat (iteration state)). left. reflexivity.
    - right. exists (Z.to_nat (iteration state - 1)). right.
      specialize (He eq_refl). cbn. repeat f_equal. lia.
    - right. exists (Z.to_nat (iteration state)). left. reflexivity. }
  assert (Hrun :
    match fst (run_from (graph float_str self) limit "router_agent" (initial_state text)
                 (start_world n m)) with
    | Ok final =>
        0 <= iteration final /\
        summary (trace (snd (run_from (graph float_str self) limit "router_agent"
                               (initial_state text) (start_world n m)))) =
          ("router_agent", 0)
          :: (cycles 0 (Z.to_nat (iteration final))
              ++ [("response_agent", iteration final)])%list
    | Raise e =>
        partial_run (summary (trace (snd (run_from (graph float_str self) limit "router_agent"
                                            (initial_state text) (start_world n m))))) \/
        (e = GraphRecursionError /\
         length (trace (snd (run_from (graph float_str self) limit "router_agent"
                               (initial_state text) (start_world n m)))) = limit /\
         exists k : nat,
           summary (trace (snd (run_from (graph float_str self) limit "router_agent"
                                  (initial_state text) (start_world n m)))) =
             ("router_agent", 0) :: (cycles 0 k ++ [("response_agent", Z.of_nat k)])%list)
    end).
  { apply (graph_run_rule float_str self
      (fun left node state w =>
         (length (trace w) + left = limit)%nat /\ on_course node state w)
      (fun out w =>
         match out with
         | Ok final =>
             0 <= iteration final /\
             summary (trace w) =
               ("router_agent", 0)
               :: (cycles 0 (Z.to_nat (iteration final))
                   ++ [("response_agent", iteration final)])%list
         | Raise e =>
             partial_run (summary (trace w)) \/
             (e = GraphRecursionError /\ length (trace w) = limit /\
              exists k : nat,
                summary (trace w) =
                  ("router_agent", 0) :: (cycles 0 k ++ [("response_agent", Z.of_nat k)])%list)
         end)).
    - intros limit' state w [_ (Hit & _ & _ & Hs)]. split; [exact Hit | exact Hs].
    - intros node state w Hnode [Hlen Hinv].
      destruct (String.eqb_spec node END) as [-> | Hne].
      + right. split; [reflexivity |]. split; [lia |].
        destruct Hinv as (Hit & _ & _ & Hs). exists (Z.to_nat (iteration state)).
        rewrite Hs, Z2Nat.id by exact Hit. reflexivity.
      + left. exact (Hpartial node state w Hnode Hne Hinv).
    - agent_step; destruct Hinv as [Hlen Hinv].
      + left. eapply (Hpartial "router_agent" state);
          [unfold graph_node; auto | discriminate | exact Hinv].
      + split; [rewrite length_app; cbn [length]; lia |].
        destruct Hinv as (Hit & Hr & _ & Hs). specialize (Hr eq_refl).
        match goal with
        | |- context [route_target self ?s] =>
            destruct (route_target_node self s) as [-> | ->]
        end;
          (unfold on_course; cbn [log_step log_llm_call log_search_call trace iteration];
           split; [exact Hit |]; split; [intros [=] |]; split; [intros [=] |];
           rewrite summary_snoc, Hs, Hr; course_values; reflexivity).
    - agent_step; destruct Hinv as [Hlen Hinv].
      + left. eapply (Hpartial "query_agent" state);
          [unfold graph_node; auto | discriminate | exact Hinv].
      + split; [rewrite length_app; cbn [length]; lia |].
        destruct Hinv as (Hit & _ & _ & Hs).
        unfold on_course. cbn [log_step log_llm_call log_search_call trace iteration].
        split; [lia |]. split; [intros [=] |]. split; [intros _; lia |].
        rewrite summary_snoc, Hs. cbn [iteration]. course_values.
        replace (iteration state + 1 - 1) with (iteration state) by lia. reflexivity.
    - agent_step; destruct Hinv as [Hlen Hinv].
      + left. eapply (Hpartial "evaluation_agent" state);
          [unfold graph_node; auto | discriminate | exact Hinv].
      + split; [rewrite length_app; cbn [length]; lia |].
        destruct Hinv as (Hit & _ & He & Hs). specialize (He eq_refl).
        match goal with
        | |- context [evaluation_target self ?s] =>
            destruct (evaluation_target_node self s) as [-> | ->]
        end;
          (unfold on_course; cbn [log_step log_llm_call log_search_call trace iteration];
           split; [exact Hit |]; split; [intros [=] |]; split; [intros [=] |];
           rewrite summary_snoc, Hs; cbn [iteration]; course_values;
           replace (Z.to_nat (iteration state))
             with (S (Z.to_nat (iteration state - 1))) by lia;
           rewrite cycles_snoc, Z2Nat.id by lia;
           replace (0 + (iteration state - 1) + 1) with (iteration state) by lia;
           cbn; rewrite <- app_assoc; reflexivity).
    - agent_step; destruct Hinv as [Hlen Hinv].
      + left. eapply (Hpartial "response_agent" state);
          [unfold graph_node; auto | discriminate | exact Hinv].
      + split; [rewrite length_app; cbn [length]; lia |].
        destruct Hinv as (Hit & _ & _ & Hs).
        unfold on_course. cbn [log_step log_llm_call log_search_call trace iteration].
        split; [exact Hit |]. split; [intros [=] |]. split; [intros [=] |].
        rewrite summary_snoc, Hs. course_values. reflexivity.
    - unfold graph_node. auto.
    - split; [reflexivity |]. repeat split; [cbn; lia | intros [=]]. }
  destruct (run_from _ _ _ _ _) as [[final | e] w'] eqn:Erun; cbn [fst snd] in *; exact Hrun.
Qed.

(** X8. The query text is never changed and never reformulated: every
    state of a run carries the text [execute] was called with, and every call
    of the retrieval function is made with that text. *)
Theorem original_query_kept (self : System) (limit : nat) (text : string) (n m : nat) :
  let run := execute float_str self limit text (start_world n m) in
  Forall (fun entry => query (snd entry) = text) (trace (snd run)) /\
  Forall (fun asked => asked = text) (search_texts (calls (snd run))).
Proof.
  intros run. subst run. rewrite execute_eq.
  assert (Hrun :
    let result := run_from (graph float_str self) limit "router_agent" (initial_state text)
                    (start_world n m) in
    Forall (fun entry => query (snd entry) = text) (trace (snd result)) /\
    Forall (fun asked => asked = text) (search_texts (calls (snd result)))).
  { apply (graph_run_rule float_str self
      (fun _ _ state w =>
         query state = text /\
         Forall (fun entry => query (snd entry) = text) (trace w) /\
         Forall (fun asked => asked = text) (search_texts (calls w)))
      (fun _ w =>
         Forall (fun entry => query (snd entry) = text) (trace w) /\
         Forall (fun asked => asked = text) (search_texts (calls w)))).
    - intros _ state w (_ & H). exact H.
    - intros node state w _ (_ & H). exact H.
    - agent_step; destruct Hinv as (Hq & Ht & Hc); rewrite search_texts_llm;
        [ split; [exact Ht | exact Hc] |].
      split; [exact Hq |]. split; [| exact Hc].
      apply Forall_app. split; [exact Ht |]. repeat constructor. exact Hq.
    - agent_step; destruct Hinv as (Hq & Ht & Hc); rewrite search_texts_search;
        (assert (Hc' : Forall (fun asked => asked = text) (search_texts (calls w) ++ [query state]))
           by (apply Forall_app; split; [exact Hc | repeat constructor; exact Hq]));
        [ split; [exact Ht | exact Hc'] |].
      split; [exact Hq |]. split; [| exact Hc'].
      apply Forall_app. split; [exact Ht |]. repeat constructor. exact Hq.
    - agent_step; destruct Hinv as (Hq & Ht & Hc); rewrite search_texts_llm;
        [ split; [exact Ht | exact Hc] |].
      split; [exact Hq |]. split; [| exact Hc].
      apply Forall_app. split; [exact Ht |]. repeat constructor. exact Hq.
    - agent_step; destruct Hinv as (Hq & Ht & Hc); rewrite search_texts_llm;
        [ split; [exact Ht | exact Hc] |].
      split; [exact Hq |]. split; [| exact Hc].
      apply Forall_app. split; [exact Ht |]. repeat constructor. exact Hq.
    - unfold graph_node. auto.
    - split; [reflexivity |]. split; constructor. }
  cbv zeta in Hrun.
  destruct (run_from _ _ _ _ _) as [[final | e] w'] eqn:Erun; cbn [fst snd] in *; exact Hrun.
Qed.

(** X9. The graph is closed.  The branch functions only return labels of
    their branch dicts and every edge leads to a node or to the end, so that
    [execute], started in any world, never raises a [GraphKeyError]: it
    returns, raises the error of a dependency, or runs out of steps. *)
Theorem graph_closed (self : System) (limit : nat) (text : string) (w : W) :
  (forall state : State,
     _route_decision self state = "direct" \/ _route_decision self state = "query") /\
  (forall state : State,
     _evaluation_decision self state = "respond" \/
     _evaluation_decision self state = "refine") /\
  match fst (execute float_str self limit text w) with
  | Raise (GraphKeyError _) => False
  | _ => True
  end.
Proof.
  split; [| split].
  - intros state. unfold _route_decision. destruct (contains _ _); auto.
  - intros state. unfold _evaluation_decision.
    destruct (_ >=? _); [auto |]. destruct (_ && _); auto.
  - rewrite execute_eq.
    assert (Hrun :
      match fst (run_from (graph float_str self) limit "router_agent" (initial_state text) w)
      with
      | Raise (GraphKeyError _) => False
      | _ => True
      end).
    { apply (graph_run_rule float_str self
        (fun _ _ _ _ => True)
        (fun out _ => match out with Raise (GraphKeyError _) => False | _ => True end)).
      - intros; exact I.
      - intros; exact I.
      - agent_step; exact I.
      - agent_step; exact I.
      - agent_step; exact I.
      - agent_step; exact I.
      - unfold graph_node. auto.
      - exact I. }
    destruct (run_from _ _ _ _ _) as [[final | [e | | k]] w'] eqn:Erun; cbn [fst] in *;
      first [exact I | exact Hrun].
Qed.

Lemma substring_prefix (n : nat) (s : string) :
  exists rest,
    s = substring 0 n s +:+ rest /\
    String.length (substring 0 n s) = Nat.min n (String.length s).
Proof.
  revert n. induction s as [| c s IH]; intros n.
  - exists "". destruct n; split; reflexivity.
  - destruct n as [| n].
    + exists (String c s). split; reflexivity.
    + destruct (IH n) as (rest & Hs & Hlen). exists rest. split.
      * change (String c s = String c (substring 0 n s +:+ rest)). rewrite <- Hs. reflexivity.
      * change (S (String.length (substring 0 n s)) = S (Nat.min n (String.length s))).
        rewrite Hlen. reflexivity.
Qed.


End Runs.

(** * Properties of the Python containers *)

Section DictFacts.

Context {K V : Type} `{EqDecision K}.

Implicit Types (d : @Py.dict K V) (k : K) (v : V).

Lemma get_set_eq d k v : Py.get k (Py.set k v d) = Some v.
Proof.
  induction d as [| [k' v'] d IH]; cbn.
  - rewrite decide_True by reflexivity. reflexivity.
  - destruct (decide (k = k')) as [-> | Hne]; cbn.
    + rewrite decide_True by reflexivity. reflexivity.
    + rewrite decide_False by exact Hne. exact IH.
Qed.

Lemma get_set_ne d k k' v : k <> k' -> Py.get k' (Py.set k v d) = Py.get k' d.
Proof.
  intros Hne. induction d as [| [k0 v0] d IH]; cbn.
  - rewrite decide_False by congruence. reflexivity.
  - destruct (decide (k = k0)) as [-> | Hk]; cbn.
    + rewrite !decide_False by congruence. reflexivity.
    + destruct (decide (k' = k0)); [reflexivity | exact IH].
Qed.

Lemma keys_set d k v :
  map fst (Py.set k v d) =
  if Py.contains k d then map fst d else (map fst d ++ [k])%list.
Proof.
  unfold Py.contains. induction d as [| [k' v'] d IH]; cbn; [reflexivity |].
  destruct (decide (k = k')) as [-> | Hne]; cbn; [reflexivity |].
  rewrite IH. destruct (Py.get k d); reflexivity.
Qed.

Lemma get_None_keys d k : Py.get k d = None <-> ~ In k (map fst d).
Proof.
  induction d as [| [k' v'] d IH]; cbn; [tauto |].
  destruct (decide (k = k')) as [-> | Hne].
  - split; [discriminate | intros Hn; exfalso; apply Hn; left; reflexivity].
  - rewrite IH. split; [intros Hn [Heq | Hin]; [congruence | tauto] | tauto].
Qed.

Lemma wf_set d k v : Py.wf d -> Py.wf (Py.set k v d).
Proof.
  unfold Py.wf. intros Hwf. rewrite keys_set. unfold Py.contains.
  destruct (Py.get k d) eqn:E; [exact Hwf |].
  apply NoDup_app. split; [exact Hwf |]. split; [| apply NoDup_singleton].
  intros x Hx Hx'. apply list_elem_of_singleton in Hx'. subst x.
  apply get_None_keys in E. apply E. apply list_elem_of_In. exact Hx.
Qed.

Lemma length_set d k v :
  length (Py.set k v d) = if Py.contains k d then length d else S (length d).
Proof.
  rewrite <- (length_map fst), keys_set. destruct (Py.contains k d).
  - apply length_map.
  - rewrite length_app, length_map. cbn. lia.
Qed.

Lemma keys_del_subset d k x : In x (map fst (Py.del k d)) -> In x (map fst d).
Proof.
  induction d as [| [k' v'] d IH]; cbn; [tauto |].
  destruct (decide (k = k')); cbn; tauto.
Qed.

Lemma wf_del d k : Py.wf d -> Py.wf (Py.del k d).
Proof.
  unfold Py.wf. induction d as [| [k' v'] d IH]; cbn; intros Hwf; [exact Hwf |].
  apply NoDup_cons in Hwf as [Hnotin Hwf].
  destruct (decide (k = k')); [exact Hwf |]. cbn. apply NoDup_cons. split; [| apply IH, Hwf].
  intros Hin. apply Hnotin. apply list_elem_of_In. apply (keys_del_subset d k).
  apply list_elem_of_In. exact Hin.
Qed.

Lemma get_del_eq d k : Py.wf d -> Py.get k (Py.del k d) = None.
Proof.
  unfold Py.wf. induction d as [| [k' v'] d IH]; cbn; intros Hwf; [reflexivity |].
  apply NoDup_cons in Hwf as [Hnotin Hwf].
  destruct (decide (k = k')) as [-> | Hne]; cbn.
  - apply get_None_keys. intros Hin. apply Hnotin. apply list_elem_of_In. exact Hin.
  - rewrite decide_False by exact Hne. apply IH, Hwf.
Qed.

Lemma get_del_ne d k k' : k <> k' -> Py.get k' (Py.del k d) = Py.get k' d.
Proof.
  intros Hne. induction d as [| [k0 v0] d IH]; cbn; [reflexivity |].
  destruct (decide (k = k0)) as [-> | Hk]; cbn.
  - rewrite decide_False by congruence. reflexivity.
  - destruct (decide (k' = k0)); [reflexivity | exact IH].
Qed.

Lemma length_del d k : Py.contains k d = true -> S (length (Py.del k d)) = length d.
Proof.
  unfold Py.contains. induction d as [| [k' v'] d IH]; cbn; [discriminate |].
  destruct (decide (k = k')); cbn; [reflexivity |]. intros Hc. rewrite IH; [reflexivity | exact Hc].
Qed.

Lemma del_absent d k : Py.contains k d = false -> Py.del k d = d.
Proof.
  unfold Py.contains. induction d as [| [k' v'] d IH]; cbn; [reflexivity |].
  destruct (decide (k = k')); cbn; [discriminate |]. intros Hc. rewrite IH; [reflexivity | exact Hc].
Qed.

Lemma items_set_in d k v item :
  In item (Py.set k v d) -> item = (k, v) \/ In item d.
Proof.
  induction d as [| [k' v'] d IH]; cbn; [intros [<- | []]; left; reflexivity |].
  destruct (decide (k = k')); cbn.
  - intros [<- | Hin]; [left; reflexivity | right; right; exact Hin].
  - intros [<- | Hin]; [right; left; reflexivity |].
    destruct (IH Hin); [left; assumption | right; right; assumption].
Qed.

Lemma items_del_in d k item : In item (Py.del k d) -> In item d.
Proof.
  induction d as [| [k' v'] d IH]; cbn; [tauto |].
  destruct (decide (k = k')); cbn; tauto.
Qed.

Lemma get_In d k v : Py.wf d -> In (k, v) d -> Py.get k d = Some v.
Proof.
  unfold Py.wf. induction d as [| [k' v'] d IH]; cbn; intros Hwf Hin; [contradiction |].
  apply NoDup_cons in Hwf as [Hnotin Hwf]. destruct Hin as [[= -> ->] | Hin].
  - rewrite decide_True by reflexivity. reflexivity.
  - destruct (decide (k = k')) as [-> | Hne]; [| apply IH; assumption].
    exfalso. apply Hnotin. apply list_elem_of_In. apply (in_map fst) in Hin. exact Hin.
Qed.

End DictFacts.

Section SliceFacts.

Context {A : Type}.

Lemma slice_nonneg (l : list A) (start stop : Z) :
  0 <= start -> 0 <= stop ->
  Py.slice l start stop = take (Z.to_nat (stop - start)) (drop (Z.to_nat start) l).
Proof.
  intros Hs He. unfold Py.slice, Py.slice_index.
  destruct (Z.ltb_spec start 0); [lia |]. destruct (Z.ltb_spec stop 0); [lia |].
  set (n := Z.of_nat (length l)).
  destruct (Z.le_gt_cases start n) as [Hsn | Hsn].
  - rewrite (Z.min_l start n) by lia.
    destruct (Z.le_gt_cases stop n) as [Hen | Hen].
    + rewrite (Z.min_l stop n) by lia. reflexivity.
    + rewrite (Z.min_r stop n) by lia.
      rewrite !take_ge; [reflexivity | |]; rewrite length_drop; subst n; lia.
  - rewrite (Z.min_r start n) by lia.
    rewrite !drop_ge by (subst n; lia). rewrite !take_nil. reflexivity.
Qed.

End SliceFacts.

Section SliceMore.

Context {A : Type}.

Lemma slice_In (l : list A) (start stop : Z) (x : A) :
  In x (Py.slice l start stop) -> In x l.
Proof.
  unfold Py.slice. intros Hin. apply list_elem_of_In in Hin.
  apply list_elem_of_In. eapply subseteq_drop, subseteq_take, Hin.
Qed.

Lemma slice_to_negative (l : list A) (stop : Z) :
  stop < 0 ->
  Py.slice l 0 stop = take (Z.to_nat (Z.of_nat (length l) + stop)) l.
Proof.
  intros Hneg. unfold Py.slice, Py.slice_index. cbn [Z.ltb Z.compare].
  destruct (Z.ltb_spec stop 0); [| lia].
  rewrite (Z.min_l 0) by lia. cbn [Z.to_nat drop]. rewrite Z.sub_0_r.
  destruct (Z.le_gt_cases 0 (stop + Z.of_nat (length l))).
  - rewrite Z.max_l by lia. f_equal. lia.
  - rewrite Z.max_r by lia. replace (Z.to_nat (Z.of_nat (length l) + stop)) with 0%nat by lia.
    reflexivity.
Qed.

Variable key : A -> Z.

Lemma insert_desc_perm (x : A) (l : list A) : Py.insert_desc key x l ≡ₚ x :: l.
Proof.
  induction l as [| y l IH]; cbn; [reflexivity |].
  destruct (key x <? key y); [| reflexivity].
  rewrite IH. apply Permutation_swap.
Qed.

Lemma sorted_desc_perm (l : list A) : Py.sorted_desc key l ≡ₚ l.
Proof.
  induction l as [| x l IH]; cbn; [reflexivity |].
  rewrite insert_desc_perm, IH. reflexivity.
Qed.

Abbreviation newest_first := (Py.newest_first key).

Lemma insert_desc_sorted (x : A) (l : list A) :
  newest_first l -> newest_first (Py.insert_desc key x l).
Proof.
  unfold Py.newest_first. induction l as [| y l IH]; cbn; intros Hs.
  - repeat constructor.
  - apply StronglySorted_inv in Hs as [Hs Hy].
    destruct (Z.ltb_spec (key x) (key y)) as [Hlt | Hge].
    + constructor; [apply IH, Hs |].
      rewrite insert_desc_perm. constructor; [lia | exact Hy].
    + constructor; [constructor; assumption |].
      constructor; [lia |]. eapply Forall_impl; [exact Hy |]. cbn. intros z Hz. lia.
Qed.

Lemma sorted_desc_sorted (l : list A) : newest_first (Py.sorted_desc key l).
Proof.
  induction l as [| x l IH]; cbn; [constructor | apply insert_desc_sorted, IH].
Qed.

Lemma newest_first_take (n : nat) (l : list A) : newest_first l -> newest_first (take n l).
Proof.
  unfold Py.newest_first. revert n. induction l as [| x l IH]; intros n Hs.
  - rewrite take_nil. constructor.
  - destruct n as [| n]; cbn; [constructor |].
    apply StronglySorted_inv in Hs as [Hs Hx]. constructor; [apply IH, Hs |].
    apply Forall_take. exact Hx.
Qed.

Lemma newest_first_split (l1 l2 : list A) :
  newest_first (l1 ++ l2) ->
  forall a b, In a l1 -> In b l2 -> key b <= key a.
Proof.
  unfold Py.newest_first. induction l1 as [| x l1 IH]; cbn; intros Hs a b Ha Hb; [contradiction |].
  apply StronglySorted_inv in Hs as [Hs Hx]. destruct Ha as [<- | Ha].
  - apply (proj1 (List.Forall_forall _ _) Hx). apply in_or_app. right. exact Hb.
  - apply (IH Hs a b Ha Hb).
Qed.

(** Items with the same key keep the order they had. *)
Lemma insert_desc_filter (x : A) (l : list A) (t : Z) :
  filter (fun a => key a = t) (Py.insert_desc key x l) =
  filter (fun a => key a = t) (x :: l).
Proof.
  induction l as [| y l IH]; cbn; [reflexivity |].
  destruct (Z.ltb_spec (key x) (key y)) as [Hlt | Hge]; [| reflexivity].
  rewrite filter_cons. rewrite IH. rewrite !filter_cons.
  destruct (decide (key y = t)) as [Hy | Hy]; destruct (decide (key x = t)) as [Hx | Hx];
    try reflexivity. lia.
Qed.

Lemma sorted_desc_stable (l : list A) (t : Z) :
  filter (fun a => key a = t) (Py.sorted_desc key l) = filter (fun a => key a = t) l.
Proof.
  induction l as [| x l IH]; cbn; [reflexivity |].
  rewrite insert_desc_filter, !filter_cons, IH. reflexivity.
Qed.

End SliceMore.

(** * Properties of the mock repositories *)

Section Repositories.

Context {float Any : Type}.

Abbreviation DocRepo := (@MockDocumentRepository Any).
Abbreviation Doc := (@Document Any).
Abbreviation QueryRepo := (@MockQueryRepository float Any).

(** X11. Storing a document.  [create] and [update] do the same: they
    return the document they were given and store it under its id, replacing
    a document already stored under that id and adding the document
    otherwise, also on [update].  Afterwards [get_by_id] finds the document,
    other ids are not touched, and the count grows by one exactly when the id
    was new. *)
Theorem document_store_lookup (self : DocRepo) (document : Doc) :
  let self' := snd (doc_create self document) in
  fst (doc_create self document) = document /\
  doc_update self document = doc_create self document /\
  doc_get_by_id self' (doc_id document) = Some document /\
  (forall other, other <> doc_id document ->
                 doc_get_by_id self' other = doc_get_by_id self other) /\
  doc_count self' =
    (match doc_get_by_id self (doc_id document) with
     | Some _ => doc_count self
     | None => doc_count self + 1
     end) /\
  (documents_ok self -> documents_ok self').
Proof.
  cbn. split; [reflexivity |]. split; [reflexivity |].
  split; [apply get_set_eq |]. split; [intros other Hne; apply get_set_ne; congruence |].
  split.
  - unfold doc_count, doc_get_by_id, Py.len. cbn. rewrite length_set. unfold Py.contains.
    destruct (Py.get _ _); lia.
  - intros [Hwf Hids]. split; cbn; [apply wf_set, Hwf |].
    apply List.Forall_forall. intros item Hin. apply items_set_in in Hin as [-> | Hin].
    + reflexivity.
    + apply (proj1 (List.Forall_forall _ _) Hids), Hin.
Qed.

(** X12. Deleting a document.  [delete] answers [True] exactly when the id
    was stored; afterwards the id is not found, other ids are not touched,
    and the count is one less when the answer is [True]; when it is [False]
    the repository is left as it was. *)
Theorem document_delete (self : DocRepo) (document_id : N) :
  documents_ok self ->
  let result := doc_delete self document_id in
  (fst result = true <-> is_Some (doc_get_by_id self document_id)) /\
  doc_get_by_id (snd result) document_id = None /\
  (forall other, other <> document_id ->
                 doc_get_by_id (snd result) other = doc_get_by_id self other) /\
  doc_count (snd result) = (if fst result then doc_count self - 1 else doc_count self) /\
  (fst result = false -> snd result = self) /\
  documents_ok (snd result).
Proof.
  intros [Hwf Hids] result. subst result. unfold doc_delete, doc_get_by_id, doc_count, Py.len.
  destruct (Py.contains document_id (documents self)) eqn:Hc; cbn [fst snd documents].
  - unfold Py.contains in Hc. split; [| split; [| split; [| split; [| split]]]].
    + destruct (Py.get document_id (documents self)); [| discriminate].
      split; [intros _; eexists; reflexivity | reflexivity].
    + apply get_del_eq, Hwf.
    + intros other Hne. apply get_del_ne. congruence.
    + assert (Hlen := length_del (documents self) document_id).
      unfold Py.contains in Hlen. rewrite Hc in Hlen. specialize (Hlen eq_refl). lia.
    + discriminate.
    + split; cbn; [apply wf_del, Hwf |].
      apply List.Forall_forall. intros item Hin. apply items_del_in in Hin.
      apply (proj1 (List.Forall_forall _ _) Hids), Hin.
  - unfold Py.contains in Hc. destruct (Py.get document_id (documents self)) eqn:Hg;
      [discriminate |].
    split; [split; [discriminate | intros [x Hx]; discriminate] |].
    split; [reflexivity |]. split; [reflexivity |]. split; [reflexivity |].
    split; [reflexivity | split; assumption].
Qed.

(** X13. Pages of [get_all].  For a non-negative [skip] and [limit] the
    result is the [limit] documents that follow the first [skip] of the
    selected ones, in insertion order: it has at most [limit] documents, it is
    empty when [skip] is at least their number, and two pages that follow
    each other make up the page of their joint size. *)
Theorem document_pages (self : DocRepo) (skip limit limit' : Z) (status : option string) :
  0 <= skip -> 0 <= limit -> 0 <= limit' ->
  (doc_get_all self skip limit status ++ doc_get_all self (skip + limit) limit' status)%list
  = doc_get_all self skip (limit + limit') status /\
  Z.of_nat (length (doc_get_all self skip limit status)) <= limit /\
  (doc_count self <= skip -> doc_get_all self skip limit status = []) /\
  doc_get_all self 0 (doc_count self) None = Py.values (documents self).
Proof.
  intros Hskip Hlimit Hlimit'. unfold doc_get_all.
  set (docs := if status_given status then _ else _).
  rewrite !slice_nonneg by lia.
  replace (skip + limit - skip) with limit by lia.
  replace (skip + limit + limit' - (skip + limit)) with limit' by lia.
  replace (skip + (limit + limit') - skip) with (limit + limit') by lia.
  split; [| split; [| split]].
  - replace (Z.to_nat (skip + limit)) with (Z.to_nat skip + Z.to_nat limit)%nat by lia.
    rewrite <- drop_drop, Z2Nat.inj_add by lia. apply take_take_drop.
  - rewrite length_take. lia.
  - intros Hcount. rewrite drop_ge; [apply take_nil |].
    assert (Hlen : (length docs <= length (Py.values (documents self)))%nat).
    { subst docs. destruct (status_given status); [apply length_filter | lia]. }
    unfold doc_count, Py.len, Py.values in *. rewrite length_map in Hlen. lia.
  - cbn [status_given]. rewrite slice_nonneg by (unfold doc_count, Py.len; lia).
    cbn [Z.to_nat drop]. rewrite Z.sub_0_r. apply take_ge.
    unfold doc_count, Py.len, Py.values. rewrite length_map. lia.
Qed.

(** X14. Selection by [get_all].  Whatever [skip] and [limit] are, negative
    values included, every document returned is stored under its id and, when
    a non-empty status is asked for, has that status; asking for the empty
    status selects like asking for none. *)
Theorem document_selection (self : DocRepo) (skip limit : Z) (status : option string) :
  documents_ok self ->
  Forall (fun d =>
            doc_get_by_id self (doc_id d) = Some d /\
            (status_given status = true -> Some (status_value (doc_status d)) = status))
         (doc_get_all self skip limit status) /\
  doc_get_all self skip limit (Some "") = doc_get_all self skip limit None.
Proof.
  intros [Hwf Hids]. split; [| reflexivity].
  apply List.Forall_forall. intros d Hin. unfold doc_get_all in Hin. apply slice_In in Hin.
  assert (Hstored : forall d', In d' (Py.values (documents self)) ->
                               doc_get_by_id self (doc_id d') = Some d').
  { intros d' Hd'. unfold Py.values in Hd'. apply in_map_iff in Hd' as ([k v] & <- & Hitem).
    pose proof (proj1 (List.Forall_forall _ _) Hids _ Hitem) as Hk. cbn in Hk. subst k.
    apply get_In; assumption. }
  destruct (status_given status) eqn:Hgiven.
  - apply list_elem_of_In, list_elem_of_filter in Hin as [Hstatus Hin].
    split; [apply Hstored, list_elem_of_In, Hin | intros _; exact Hstatus].
  - split; [apply Hstored, Hin | discriminate].
Qed.

(** X15. Recent queries.  [get_recent_queries] returns stored queries,
    newest first, and queries created at the same time in the order they were
    stored.  For a non-negative [limit] these are the [limit] newest: no
    stored query that is left out is newer than one that is returned.  A
    negative [limit] leaves out the [-limit] oldest queries instead. *)
Theorem recent_queries (self : QueryRepo) (limit : Z) :
  let stored := Py.values (queries self) in
  let result := get_recent_queries self limit in
  Py.newest_first query_created_at result /\
  (forall q, In q result -> In q stored) /\
  exists older,
    (result ++ older)%list ≡ₚ stored /\
    (forall q q', In q result -> In q' older -> query_created_at q' <= query_created_at q) /\
    (forall t, filter (fun q => query_created_at q = t) (result ++ older)%list =
               filter (fun q => query_created_at q = t) stored) /\
    (0 <= limit -> Z.of_nat (length result) = Z.min limit (query_count self)) /\
    (limit < 0 -> Z.of_nat (length result) = Z.max (query_count self + limit) 0).
Proof.
  intros stored result. subst result. unfold get_recent_queries. fold stored.
  set (sorted := Py.sorted_desc query_created_at stored).
  assert (Hsorted : Py.newest_first query_created_at sorted) by apply sorted_desc_sorted.
  assert (Hperm : sorted ≡ₚ stored) by apply sorted_desc_perm.
  assert (Hlen : length sorted = length stored) by (rewrite Hperm; reflexivity).
  assert (Hcount : query_count self = Z.of_nat (length stored)).
  { unfold query_count, Py.len, stored, Py.values. rewrite length_map. reflexivity. }
  assert (Hshape : exists k, Py.slice sorted 0 limit = take k sorted /\
            (0 <= limit -> k = Z.to_nat limit) /\
            (limit < 0 -> k = Z.to_nat (Z.of_nat (length sorted) + limit))).
  { destruct (Z.le_gt_cases 0 limit) as [Hpos | Hneg].
    - exists (Z.to_nat limit). rewrite slice_nonneg by lia. cbn [Z.to_nat drop].
      rewrite Z.sub_0_r. split; [reflexivity |]. split; [reflexivity | lia].
    - exists (Z.to_nat (Z.of_nat (length sorted) + limit)). rewrite slice_to_negative by lia.
      split; [reflexivity |]. split; [lia | reflexivity]. }
  destruct Hshape as (k & -> & Hk_pos & Hk_neg).
  split; [apply newest_first_take, Hsorted |]. split.
  - intros q Hin. apply list_elem_of_In. rewrite <- Hperm. apply list_elem_of_In.
    apply list_elem_of_In in Hin. apply list_elem_of_In. eapply subseteq_take, Hin.
  - exists (drop k sorted). rewrite take_drop. split; [exact Hperm |]. split; [| split; [| split]].
    + apply newest_first_split. rewrite take_drop. exact Hsorted.
    + intros t. apply sorted_desc_stable.
    + intros Hpos. rewrite length_take, Hcount, <- Hlen, (Hk_pos Hpos). lia.
    + intros Hneg. rewrite length_take, Hcount, <- Hlen, (Hk_neg Hneg). lia.
Qed.

End Repositories.

(** * Properties of the MCP provider *)

Section MCPFacts.

Context {float Any : Type}.
Variable zero_score : float.

Abbreviation RDoc := (@RetrievedDoc float Any).

Lemma doc_tokens_nonneg (doc : RDoc) : 0 <= doc_tokens doc.
Proof. unfold doc_tokens. apply Z.div_pos; [apply Nat2Z.is_nonneg | lia]. Qed.

Lemma total_tokens_nonneg (documents : list RDoc) : 0 <= total_tokens documents.
Proof.
  unfold total_tokens. induction documents as [| doc rest IH]; cbn [foldr]; [lia |].
  pose proof (doc_tokens_nonneg doc). lia.
Qed.

Lemma collect_prefix (max_tokens current : Z) (documents : list RDoc) :
  exists k : nat,
    (k <= length documents)%nat /\
    fst (collect zero_score max_tokens current documents) =
      map (to_context_doc zero_score) (take k documents) /\
    snd (collect zero_score max_tokens current documents) =
      current + total_tokens (take k documents) /\
    (forall next, documents !! k = Some next ->
                  max_tokens < current + total_tokens (take k documents) + doc_tokens next) /\
    (current <= max_tokens -> current + total_tokens (take k documents) <= max_tokens).
Proof.
  revert current. induction documents as [| doc rest IH]; intros current.
  - exists 0%nat. cbn. split; [lia |]. split; [reflexivity |]. split; [lia |].
    split; [intros next [=] | lia].
  - cbn [collect]. destruct (Z.gtb_spec (current + doc_tokens doc) max_tokens) as [Hover | Hfit].
    + exists 0%nat. cbn. split; [lia |]. split; [reflexivity |]. split; [lia |].
      split; [intros next [= <-]; lia | lia].
    + destruct (IH (current + doc_tokens doc)) as (k & Hk & Hdocs & Htokens & Hnext & Hmax).
      exists (S k). cbn [fst snd take map length total_tokens foldr lookup list_lookup].
      split; [lia |]. split; [rewrite Hdocs; reflexivity |].
      split; [rewrite Htokens; unfold total_tokens; lia |]. split.
      * intros next Hlookup. specialize (Hnext next Hlookup). unfold total_tokens in *. lia.
      * intros _. specialize (Hmax Hfit). unfold total_tokens in *. lia.
Qed.

Lemma total_tokens_app (l1 l2 : list RDoc) :
  total_tokens (l1 ++ l2) = total_tokens l1 + total_tokens l2.
Proof.
  unfold total_tokens. induction l1 as [| doc l1 IH]; cbn [app foldr]; [reflexivity |].
  rewrite IH. lia.
Qed.

(** X16. The token budget of a context.  A disabled provider returns no
    documents.  An enabled one returns the longest leading run of the
    retrieved documents whose estimated tokens (a quarter of the content
    length, rounded down, per document) fit in [max_tokens]: it stops at the
    first document that would not fit and never takes a later one in its
    place.  The metadata gives the number of documents received and kept and
    the tokens of those kept, which do not exceed a non-negative
    [max_tokens]. *)
Theorem context_budget (self : @MCPProvider) (query : string) (documents : list RDoc)
    (max_tokens : Z) :
  let context := get_context zero_score self query documents max_tokens in
  ctx_query context = query /\
  ctx_max_tokens context = max_tokens /\
  if truthy (enabled self) then
    exists k : nat,
      (k <= length documents)%nat /\
      context_documents context = map (to_context_doc zero_score) (take k documents) /\
      (forall next, documents !! k = Some next ->
                    max_tokens < total_tokens (take k documents) + doc_tokens next) /\
      (0 <= max_tokens -> total_tokens (take k documents) <= max_tokens) /\
      (total_tokens documents <= max_tokens -> k = length documents) /\
      ctx_metadata context !! "total_documents" = Some (PyInt (Z.of_nat (length documents))) /\
      ctx_metadata context !! "included_documents" = Some (PyInt (Z.of_nat k)) /\
      ctx_metadata context !! "estimated_tokens" = Some (PyInt (total_tokens (take k documents)))
  else
    context_documents context = [] /\
    ctx_metadata context = <["enabled" := PyBool false]> ∅.
Proof.
  intros context. subst context. unfold get_context.
  destruct (truthy (enabled self)); cbn [negb]; [| repeat split].
  split; [reflexivity |]. split; [reflexivity |].
  destruct (collect_prefix max_tokens 0 documents) as (k & Hk & Hdocs & Htokens & Hnext & Hmax).
  rewrite Z.add_0_l in Htokens.
  exists k. cbn [context_documents ctx_metadata]. rewrite Hdocs, Htokens, length_map, length_take.
  replace (Nat.min k (length documents)) with k by lia.
  split; [exact Hk |]. split; [reflexivity |].
  split; [intros next Hl; specialize (Hnext next Hl); lia |].
  split; [intros Hpos; specialize (Hmax Hpos); lia |]. split.
  - intros Hall. destruct (documents !! k) as [next |] eqn:Hl.
    + exfalso. specialize (Hnext next eq_refl).
      rewrite <- (take_drop_middle documents k next Hl), total_tokens_app in Hall.
      cbn in Hall. pose proof (total_tokens_nonneg (drop (S k) documents)).
      unfold total_tokens in *. lia.
    + apply lookup_ge_None in Hl. lia.
  - split; [| split].
    + rewrite !lookup_insert_ne by discriminate. apply lookup_insert_eq.
    + rewrite lookup_insert_ne by discriminate. apply lookup_insert_eq.
    + apply lookup_insert_eq.
Qed.

End MCPFacts.

(** * Properties of the RAG service *)

Section ServiceFacts.

Context {float Any : Type}.
Variable float_str : float -> string.
Variable uuid_str : N -> string.
Variable uuid_parse : string -> option N.
Variable zero : float.
Variable mean_top3 : list float -> float.

Abbreviation Service := (@RAGService float Any).
Abbreviation Request := (@QueryRequest float Any).
Abbreviation query_of :=
  (rag_query float_str uuid_str uuid_parse zero mean_top3).

Lemma to_dtos_agent (sources : list (@ResultDict float Any)) :
  to_dtos uuid_parse (map AgentSource sources) =
  match sources with
  | [] => inr []
  | _ => inl (KeyError "chunk_id")
  end.
Proof. destruct sources; reflexivity. Qed.

(** X17. A query through the agent workflow.  The query is stored in the
    repository before anything else, and stays stored when the call fails.
    An error of the workflow is raised as it is.  When the workflow returns
    without sources, the response carries its answer and metadata, no
    sources, confidence 0.0 and the agent type "router".  When it returns
    with sources, building the response raises [KeyError] for "chunk_id": the
    workflow's source dicts hold content, score and metadata only.  So a
    workflow whose last retrieval found something never yields a response. *)
Theorem agent_query (self : Service) (limit : nat) (new_id : N) (now : Z) (elapsed_ms : float)
    (request : Request) (n m : nat) :
  use_agent request = true ->
  let out := query_of self limit new_id now elapsed_ms request (start_world n m) in
  let run := execute float_str (agent_system self) limit (req_query request) (start_world n m) in
  snd out = snd run /\
  query_get_by_id (snd (fst out)) new_id =
    Some {| query_id := new_id;
            query_text := req_query request;
            filters := req_filters request;
            top_k := req_top_k request;
            score_threshold := req_score_threshold request;
            query_created_at := now |} /\
  match fst run with
  | Raise e => fst (fst out) = inl (WorkflowError e)
  | Ok result =>
      (res_sources result = [] ->
       fst (fst out) =
         inr {| resp_query_id := new_id;
                resp_query := req_query request;
                resp_answer := res_answer result;
                resp_sources := [];
                confidence := zero;
                agent_type := "router";
                processing_time_ms := elapsed_ms;
                resp_metadata := res_metadata result |}) /\
      (res_sources result <> [] -> fst (fst out) = inl (KeyError "chunk_id")) /\
      (forall results,
         last (search_replies (calls (snd run))) = Some results -> results <> [] ->
         fst (fst out) = inl (KeyError "chunk_id"))
  end.
Proof.
  intros Hagent out run. subst out. unfold rag_query. rewrite Hagent. cbn [query_create].
  fold run.
  assert (Hsources := execute_replies float_str (agent_system self) limit (req_query request) n m).
  cbv zeta in Hsources. fold run in Hsources.
  destruct run as [[result | e] w'] eqn:Hrun; cbn [fst snd] in *.
  - rewrite to_dtos_agent.
    assert (Hstored : forall x : (ServiceError + @QueryResponse float Any),
              query_get_by_id
                {| queries := Py.set new_id
                     {| query_id := new_id; query_text := req_query request;
                        filters := req_filters request; top_k := req_top_k request;
                        score_threshold := req_score_threshold request;
                        query_created_at := now |} (queries (query_repo self)) |} new_id =
              Some {| query_id := new_id; query_text := req_query request;
                      filters := req_filters request; top_k := req_top_k request;
                      score_threshold := req_score_threshold request;
                      query_created_at := now |}).
    { intros _. apply get_set_eq. }
    destruct (res_sources result) as [| r rest] eqn:Hres; cbn [fst snd].
    + split; [reflexivity |]. split; [apply Hstored; exact (inl (KeyError "")) |].
      split; [intros _; reflexivity |]. split; [intros H; contradiction |].
      intros results Hlast Hne.
      destruct (Hsources result eq_refl) as (r0 & evals & rf & _ & _ & _ & Hs & _).
      rewrite Hres in Hs. unfold results_of in Hs. rewrite Hlast in Hs.
      destruct results as [| found others]; [contradiction | cbn in Hs; discriminate Hs].
    + split; [reflexivity |]. split; [apply Hstored; exact (inl (KeyError "")) |].
      split; [intros [=] |]. split; reflexivity.
  - split; [reflexivity |]. split; [apply get_set_eq | reflexivity].
Qed.

(** The DTO of a search result. *)
Lemma to_dtos_plain (results : list (@SearchResult float Any)) :
  (forall u, uuid_parse (uuid_str u) = Some u) ->
  to_dtos uuid_parse (map (plain_source uuid_str) results) =
  inr (map (fun r => {| dto_chunk_id := chunk_id r;
                        dto_document_id := document_id r;
                        dto_content := sr_content r;
                        dto_score := sr_score r;
                        dto_metadata := sr_metadata r |}) results).
Proof.
  intros Hround. induction results as [| r results IH]; [reflexivity |].
  cbn [map to_dtos]. unfold plain_source at 1. cbn [to_dto]. rewrite !Hround, IH. reflexivity.
Qed.

(** X18. A query without the agent workflow.  A failure of the retrieval
    or of the language model is raised as it is, and after a failed retrieval
    the language model is not called.  Otherwise the response carries the
    model's reply as answer, every search result as a source, in order and
    with its ids (given that an id survives being printed and parsed), the
    agent type "query" and empty metadata; the confidence is 0.0 without
    results.  The prompt quotes only the first [top_k] results, so the
    response may list sources the model never saw. *)
Theorem plain_query (self : Service) (limit : nat) (new_id : N) (now : Z) (elapsed_ms : float)
    (request : Request) (w : @World float Any) :
  use_agent request = false ->
  (forall u, uuid_parse (uuid_str u) = Some u) ->
  let out := query_of self limit new_id now elapsed_ms request w in
  match vector_search_func (agent_system self) (search_calls w) (req_query request) with
  | inl e =>
      fst (fst out) = inl (WorkflowError (DependencyError e)) /\
      llm_calls (snd out) = llm_calls w
  | inr results =>
      match llm (agent_system self) (llm_calls w)
              [HumanMessage (plain_prompt results request)] with
      | inl e => fst (fst out) = inl (WorkflowError (DependencyError e))
      | inr response =>
          fst (fst out) =
            inr {| resp_query_id := new_id;
                   resp_query := req_query request;
                   resp_answer := content response;
                   resp_sources :=
                     map (fun r => {| dto_chunk_id := chunk_id r;
                                      dto_document_id := document_id r;
                                      dto_content := sr_content r;
                                      dto_score := sr_score r;
                                      dto_metadata := sr_metadata r |}) results;
                   confidence :=
                     match results with
                     | [] => zero
                     | _ => mean_top3 (map sr_score results)
                     end;
                   agent_type := "query";
                   processing_time_ms := elapsed_ms;
                   resp_metadata := ∅ |}
      end
  end /\
  (forall results,
     0 <= req_top_k request ->
     plain_prompt results request =
     plain_prompt (take (Z.to_nat (req_top_k request)) results) request).
Proof.
  intros Hplain Hround out. subst out. split.
  - unfold rag_query. rewrite Hplain. cbn [query_create]. unfold vector_search, llm_ainvoke.
    destruct (vector_search_func _ _ _) as [e | results]; cbn [fst snd]; [split; reflexivity |].
    cbn [log_search_call llm_calls].
    destruct (llm _ _ _) as [e | response]; cbn [fst snd]; [reflexivity |].
    rewrite to_dtos_plain by exact Hround. cbn [fst snd]. f_equal. f_equal.
    unfold _calculate_confidence. destruct results as [| r results]; [reflexivity |].
    cbn [map]. rewrite map_map. reflexivity.
  - intros results Htop. unfold plain_prompt, plain_context.
    rewrite !slice_nonneg by lia. change (Z.to_nat 0) with 0%nat.
    rewrite !drop_0, Z.sub_0_r, take_idemp. reflexivity.
Qed.

End ServiceFacts.

(** * Properties of the indexing service *)

Section IndexingFacts.

Context {float Any : Type}.
Variable uuid_str : N -> string.
Variable isoformat : Z -> string.

Abbreviation Env := (@IndexingEnv float Any).
Abbreviation Indexer := (@IndexingService float Any).
Abbreviation process := (process_document uuid_str isoformat).

Lemma build_chunks_layout (env : Env) (self : Indexer) (document_id : N)
    (document : @Document Any)
    (texts : list string) (idx : nat) :
  match build_chunks env self document_id document idx texts with
  | inr chunks =>
      length chunks = length texts /\
      forall (i : nat) (chunk : @Chunk float Any),
        chunks !! i = Some chunk ->
        texts !! i = Some (chunk_content chunk) /\
        chunk_index chunk = Z.of_nat (idx + i) /\
        start_char chunk = Z.of_nat (idx + i) * chunk_size self /\
        end_char chunk = start_char chunk + chunk_size self /\
        chunk_document_id chunk = document_id /\
        chunk_metadata chunk = doc_metadata document /\
        exists embedded,
          embedding chunk = Some embedded /\
          aembed_query env (idx + i)%nat (chunk_content chunk) = inr embedded
  | inl e =>
      exists (i : nat) text message,
        texts !! i = Some text /\
        aembed_query env (idx + i)%nat text = inl message /\
        e = External message /\
        forall (j : nat) earlier,
          (j < i)%nat -> texts !! j = Some earlier ->
          exists embedded, aembed_query env (idx + j)%nat earlier = inr embedded
  end.
Proof.
  revert idx. induction texts as [| text rest IH]; intros idx; cbn [build_chunks].
  - split; [reflexivity |]. intros i chunk [=].
  - destruct (aembed_query env idx text) as [message | embedded] eqn:Hembed.
    + exists 0%nat, text, message. rewrite Nat.add_0_r. split; [reflexivity |].
      split; [exact Hembed |]. split; [reflexivity |]. intros j earlier Hj. lia.
    + specialize (IH (S idx)).
      destruct (build_chunks env self document_id document (S idx) rest) as [e | chunks].
      * destruct IH as (i & text' & message & Hi & Hfail & -> & Hearlier).
        exists (S i), text', message. split; [exact Hi |].
        replace (idx + S i)%nat with (S idx + i)%nat by lia. split; [exact Hfail |].
        split; [reflexivity |]. intros [| j] earlier Hj Hlookup.
        -- cbn in Hlookup. injection Hlookup as <-. rewrite Nat.add_0_r. eauto.
        -- replace (idx + S j)%nat with (S idx + j)%nat by lia.
           apply (Hearlier j earlier); [lia | exact Hlookup].
      * destruct IH as [Hlen Hchunks]. split; [cbn; rewrite Hlen; reflexivity |].
        intros [| i] chunk Hlookup.
        -- cbn in Hlookup. injection Hlookup as <-. cbn. rewrite Nat.add_0_r.
           repeat split; try lia. exists embedded. split; [reflexivity | exact Hembed].
        -- cbn in Hlookup. replace (idx + S i)%nat with (S idx + i)%nat by lia.
           apply Hchunks, Hlookup.
Qed.

(** X19. The chunks of a document.  When every text is embedded, the chunks
    that [process_document] builds are the texts of the splitter in order:
    chunk [i] has index [i], the id asked for and the document's metadata, the embedding of
    its text, and the offsets [i * chunk_size] and [(i + 1) * chunk_size],
    whatever the lengths of the texts and their overlap.  Otherwise the
    error of the first text that cannot be embedded is raised, after every
    earlier text was embedded. *)
Theorem chunk_layout (env : Env) (self : Indexer) (document_id : N)
    (document : @Document Any)
    (texts : list string) :
  match build_chunks env self document_id document 0 texts with
  | inr chunks =>
      length chunks = length texts /\
      forall (i : nat) (chunk : @Chunk float Any),
        chunks !! i = Some chunk ->
        texts !! i = Some (chunk_content chunk) /\
        chunk_index chunk = Z.of_nat i /\
        start_char chunk = Z.of_nat i * chunk_size self /\
        end_char chunk = (Z.of_nat i + 1) * chunk_size self /\
        chunk_document_id chunk = document_id /\
        chunk_metadata chunk = doc_metadata document /\
        exists embedded,
          embedding chunk = Some embedded /\
          aembed_query env i (chunk_content chunk) = inr embedded
  | inl e =>
      exists (i : nat) text message,
        texts !! i = Some text /\
        aembed_query env i text = inl message /\
        e = External message /\
        forall (j : nat) earlier,
          (j < i)%nat -> texts !! j = Some earlier ->
          exists embedded, aembed_query env j earlier = inr embedded
  end.
Proof.
  pose proof (build_chunks_layout env self document_id document texts 0) as H.
  destruct (build_chunks env self document_id document 0 texts) as [e | chunks].
  - exact H.
  - destruct H as [Hlen Hchunks]. split; [exact Hlen |]. intros i chunk Hlookup.
    destruct (Hchunks i chunk Hlookup) as (H1 & H2 & H3 & H4 & H5 & H6 & H7).
    cbn [Nat.add] in *. repeat split; try assumption. lia.
Qed.

Lemma process_stored_errors (env : Env) (self : Indexer) (document_id : N)
    (found : @Document Any) (e : IndexingError) :
  doc_get_by_id (doc_repo self) document_id = Some found ->
  fst (process env self document_id) = inl e ->
  (exists message, e = External message) \/
  e = Failure "Failed to store chunks in vector DB".
Proof.
  intros Hfound. unfold process_document. rewrite Hfound.
  cbn [set_document_status file_path].
  destruct (_parse_document env (file_path found)) as [e' | parsed] eqn:Hparse.
  - cbn. intros [= <-]. left. unfold _parse_document in Hparse.
    destruct (convert env _); [| discriminate]. destruct (read_text env _); [| discriminate].
    injection Hparse as <-. eauto.
  - match goal with
    | |- context [build_chunks env ?s ?i ?d 0 ?texts] =>
        pose proof (build_chunks_layout env s i d texts 0) as Hlayout;
        destruct (build_chunks env s i d 0 texts) as [e' | chunks]
    end.
    + cbn. intros [= <-]. destruct Hlayout as (i & text & message & _ & _ & -> & _). eauto.
    + destruct (upsert_chunks uuid_str isoformat env chunks) as [[|] made];
        cbn; intros [= <-]. right. reflexivity.
Qed.

(** X20. A document that is not stored.  [process_document] raises
    [UnboundLocalError] for [saved_job] exactly when the id is not stored:
    the handler looks at [saved_job] before it was bound.  Nothing is stored
    or sent then.  The [ValueError] that says the document was not found
    never reaches the caller. *)
Theorem process_unknown_document (env : Env) (self : Indexer) (document_id : N) :
  let out := process env self document_id in
  (fst out = inl (UnboundLocalError "saved_job") <->
   doc_get_by_id (doc_repo self) document_id = None) /\
  (forall message, fst out <> inl (IndexValueError message)) /\
  (doc_get_by_id (doc_repo self) document_id = None -> snd out = self).
Proof.
  intros out. subst out.
  destruct (doc_get_by_id (doc_repo self) document_id) as [found |] eqn:Hfound.
  - split; [split; [| discriminate] | split; [| discriminate]].
    + intros Hraise.
      destruct (process_stored_errors env self document_id found _ Hfound Hraise)
        as [[message [=]] | [=]].
    + intros message Hraise.
      destruct (process_stored_errors env self document_id found _ Hfound Hraise)
        as [[message' [=]] | [=]].
  - unfold process_document. rewrite Hfound. cbn.
    split; [split; reflexivity |]. split; [discriminate | reflexivity].
Qed.

Lemma omap_to_point_length (chunks : list (@Chunk float Any)) :
  Forall (fun chunk => embedding chunk <> None) chunks ->
  length (omap (to_point uuid_str isoformat) chunks) = length chunks.
Proof.
  induction chunks as [| chunk chunks IH]; intros Hall; [reflexivity |].
  apply Forall_cons in Hall as [Hsome Hall]. cbn [omap list_omap]. unfold to_point at 1.
  destruct (embedding chunk); [| contradiction]. cbn. rewrite <- (IH Hall). reflexivity.
Qed.

Lemma stored_document_id (repo : @MockDocumentRepository Any) (document_id : N)
    (found : @Document Any) :
  documents_ok repo -> doc_get_by_id repo document_id = Some found ->
  doc_id found = document_id.
Proof.
  intros [_ Hids] Hget. unfold doc_get_by_id in Hget.
  induction (documents repo) as [| [k v] d IH]; cbn in Hget; [discriminate |].
  apply Forall_cons in Hids as [Hk Hids]. cbn in Hk.
  destruct (decide (document_id = k)) as [-> | Hne].
  - injection Hget as <-. symmetry. exact Hk.
  - apply IH; assumption.
Qed.

Lemma process_stored_document_cases (env : Env) (self : Indexer) (document_id : N)
    (found : @Document Any) :
  documents_ok (doc_repo self) ->
  doc_get_by_id (doc_repo self) document_id = Some found ->
  let out := process env self document_id in
  match fst out with
  | inr job =>
      (exists parsed,
         _parse_document env (file_path found) = inr parsed /\
         total_chunks job = Z.of_nat (length (split_text env parsed)) /\
         exists points,
           client_calls (snd out) = (client_calls self ++ [Upsert points])%list /\
           length points = length (split_text env parsed) /\
           client_upsert env points = None) /\
      1 <= total_chunks job /\
      processed_chunks job = total_chunks job /\
      job_status job = COMPLETED /\
      document_ids job = [document_id] /\
      job_get_by_id (job_repo (snd out)) (job_id job) = Some job /\
      doc_get_by_id (doc_repo (snd out)) document_id =
        Some (set_document_status found COMPLETED None)
  | inl e =>
      ((exists message, e = External message) \/
       e = Failure "Failed to store chunks in vector DB") /\
      doc_get_by_id (doc_repo (snd out)) document_id =
        Some (set_document_status found FAILED (Some (error_text e))) /\
      exists job,
        job_get_by_id (job_repo (snd out)) (uuid4 env 0) = Some job /\
        job_status job = FAILED /\
        job_error_message job = Some (error_text e) /\
        document_ids job = [document_id] /\
        total_chunks job = 0
  end.
Proof.
  intros Hok Hfound out. subst out.
  pose proof (stored_document_id _ _ _ Hok Hfound) as Hid.
  unfold process_document. rewrite Hfound.
  assert (Hfail : forall (self' : Indexer) job e,
            job_id job = uuid4 env 0 -> document_ids job = [document_id] ->
            total_chunks job = 0 ->
            ((exists message, e = External message) \/
             e = Failure "Failed to store chunks in vector DB") ->
            let out := on_failure self' (Some (set_document_status found PROCESSING None))
                         (Bound job) e in
            match fst out with
            | inr _ => False
            | inl e' =>
                ((exists message, e' = External message) \/
                 e' = Failure "Failed to store chunks in vector DB") /\
                doc_get_by_id (doc_repo (snd out)) document_id =
                  Some (set_document_status found FAILED (Some (error_text e'))) /\
                exists job',
                  job_get_by_id (job_repo (snd out)) (uuid4 env 0) = Some job' /\
                  job_status job' = FAILED /\
                  job_error_message job' = Some (error_text e') /\
                  document_ids job' = [document_id] /\
                  total_chunks job' = 0
            end).
  { intros self' job e Hjob Hdocs Htotal He. cbn. split; [exact He |]. split.
    - unfold doc_get_by_id. cbn. rewrite Hid. apply get_set_eq.
    - eexists. split; [unfold job_get_by_id; cbn; rewrite Hjob; apply get_set_eq |].
      cbn. auto. }
  destruct (_parse_document env (file_path found)) as [e | parsed] eqn:Hparse.
  - cbn [set_document_status file_path]. rewrite Hparse.
    apply (Hfail _ _ e); try reflexivity.
    left. unfold _parse_document in Hparse.
    destruct (convert env _); [| discriminate]. destruct (read_text env _); [| discriminate].
    injection Hparse as <-. eauto.
  - cbn [set_document_status file_path]. rewrite Hparse.
    match goal with
    | |- context [build_chunks env ?s ?i ?d 0 ?texts] =>
        pose proof (build_chunks_layout env s i d texts 0) as Hlayout;
        destruct (build_chunks env s i d 0 texts) as [e | chunks] eqn:Hbuild
    end.
    + apply (Hfail _ _ e); try reflexivity. left.
      destruct Hlayout as (i & text & message & _ & _ & -> & _). eauto.
    + destruct Hlayout as [Hlen Hchunks].
      assert (Hall : Forall (fun chunk : @Chunk float Any => embedding chunk <> None) chunks).
      { apply Forall_lookup. intros i chunk Hlookup.
        destruct (Hchunks i chunk Hlookup) as (_ & _ & _ & _ & _ & _ & embedded & -> & _).
        discriminate. }
      pose proof (omap_to_point_length chunks Hall) as Hpoints.
      unfold upsert_chunks.
      destruct (omap (to_point uuid_str isoformat) chunks) as [| point points] eqn:Homap.
      * cbn [negb]. apply (Hfail _ _ (Failure "Failed to store chunks in vector DB"));
          try reflexivity. right. reflexivity.
      * destruct (client_upsert env (point :: points)) as [message |] eqn:Hclient.
        -- cbn [negb]. apply (Hfail _ _ (Failure "Failed to store chunks in vector DB"));
             try reflexivity. right. reflexivity.
        -- cbn [negb fst snd]. split; [| split; [| split; [| split; [| split; [| split]]]]].
           ++ exists parsed. split; [reflexivity |]. split; [cbn; rewrite Hlen; reflexivity |].
              exists (point :: points). split; [reflexivity |].
              split; [rewrite Hpoints, Hlen; reflexivity | exact Hclient].
           ++ cbn [set_job total_chunks]. rewrite <- Hpoints. cbn [length]. lia.
           ++ reflexivity.
           ++ reflexivity.
           ++ reflexivity.
           ++ unfold job_get_by_id. cbn. apply get_set_eq.
           ++ unfold doc_get_by_id. cbn. rewrite Hid. apply get_set_eq.
Qed.

(** X21. Processing a stored document.  The call ends in one of two ways.
    It returns the job, completed, with [total_chunks = processed_chunks] the
    number of texts of the splitter, at least 1; the job is stored as
    returned, the document is stored with status completed, and one upsert
    with a point per text has reached the vector database.  Or it raises the
    error of the parser or the embedding model, or "Failed to store chunks in
    vector DB", and the document and the job are stored with status failed
    and the error's text.  A document without any text thus fails.  In both
    cases nothing else of the document changes: [processed_at] and
    [updated_at] stay as they were. *)
Theorem process_stored_document (env : Env) (self : Indexer) (document_id : N)
    (found : @Document Any) :
  documents_ok (doc_repo self) ->
  doc_get_by_id (doc_repo self) document_id = Some found ->
  let out := process env self document_id in
  match fst out with
  | inr job =>
      (exists parsed,
         _parse_document env (file_path found) = inr parsed /\
         total_chunks job = Z.of_nat (length (split_text env parsed)) /\
         exists points,
           client_calls (snd out) = (client_calls self ++ [Upsert points])%list /\
           length points = length (split_text env parsed) /\
           client_upsert env points = None) /\
      1 <= total_chunks job /\
      processed_chunks job = total_chunks job /\
      job_status job = COMPLETED /\
      document_ids job = [document_id] /\
      job_get_by_id (job_repo (snd out)) (job_id job) = Some job /\
      doc_get_by_id (doc_repo (snd out)) document_id =
        Some (set_document_status found COMPLETED None)
  | inl e =>
      ((exists message, e = External message) \/
       e = Failure "Failed to store chunks in vector DB") /\
      doc_get_by_id (doc_repo (snd out)) document_id =
        Some (set_document_status found FAILED (Some (error_text e))) /\
      exists job,
        job_get_by_id (job_repo (snd out)) (uuid4 env 0) = Some job /\
        job_status job = FAILED /\
        job_error_message job = Some (error_text e) /\
        document_ids job = [document_id] /\
        total_chunks job = 0
  end.
Proof. apply process_stored_document_cases. Qed.

Lemma documents_ok_set (repo : @MockDocumentRepository Any) (document : @Document Any) :
  documents_ok repo ->
  documents_ok {| documents := Py.set (doc_id document) document (documents repo) |}.
Proof.
  intros [Hwf Hids]. split; cbn; [apply wf_set, Hwf |].
  apply List.Forall_forall. intros item Hin. apply items_set_in in Hin as [-> | Hin].
  - reflexivity.
  - apply (proj1 (List.Forall_forall _ _) Hids), Hin.
Qed.

(** X22. From upload to index.  [create_document] stores a pending
    document with the given fields, no error message and no processing time,
    under the id it drew; a document stored under that id before is
    replaced.  Processing that id next never leaves the document pending or
    processing: it is stored as completed when [process_document] returns,
    and as failed, with the error's text, when it raises; the error is never
    the one for a missing [saved_job]. *)
Theorem created_document_processed (env : Env) (self : Indexer) (new_id : N)
    (created updated : Z) (name path type : string) (size : Z)
    (metadata : option (gmap string Any)) :
  documents_ok (doc_repo self) ->
  let made := create_document self new_id created updated name path type size metadata in
  let out := process env (snd made) new_id in
  doc_get_by_id (doc_repo (snd made)) new_id = Some (fst made) /\
  (forall other, other <> new_id ->
     doc_get_by_id (doc_repo (snd made)) other = doc_get_by_id (doc_repo self) other) /\
  (doc_id (fst made), filename (fst made), file_path (fst made), content_type (fst made),
   size_bytes (fst made)) = (new_id, name, path, type, size) /\
  doc_status (fst made) = PENDING /\
  doc_metadata (fst made) = default ∅ metadata /\
  (processed_at (fst made), doc_error_message (fst made)) = (None, None) /\
  exists stored,
    doc_get_by_id (doc_repo (snd out)) new_id = Some stored /\
    match fst out with
    | inr job =>
        stored = set_document_status (fst made) COMPLETED None /\ job_status job = COMPLETED
    | inl e =>
        stored = set_document_status (fst made) FAILED (Some (error_text e)) /\
        e <> UnboundLocalError "saved_job"
    end.
Proof.
  intros Hok made out.
  assert (Hmade_ok : documents_ok (doc_repo (snd made))).
  { subst made. unfold create_document. cbn [doc_create fst snd doc_repo].
    apply (documents_ok_set (doc_repo self)), Hok. }
  assert (Hget : doc_get_by_id (doc_repo (snd made)) new_id = Some (fst made)).
  { subst made. unfold create_document, doc_get_by_id. cbn. apply get_set_eq. }
  split; [exact Hget |]. split.
  { intros other Hne. subst made. unfold create_document, doc_get_by_id. cbn.
    apply get_set_ne. congruence. }
  split; [reflexivity |]. split; [reflexivity |].
  split; [destruct metadata; reflexivity |]. split; [reflexivity |].
  pose proof (process_stored_document_cases env (snd made) new_id (fst made) Hmade_ok Hget)
    as Hcases.
  cbv zeta in Hcases. subst out.
  destruct (fst (process env (snd made) new_id)) as [e | job].
  - destruct Hcases as (Hkind & Hstored & _). eexists. split; [exact Hstored |].
    split; [reflexivity |]. destruct Hkind as [[message ->] | ->]; discriminate.
  - destruct Hcases as (_ & _ & _ & Hstatus & _ & _ & Hstored). eexists.
    split; [exact Hstored |]. split; [reflexivity | exact Hstatus].
Qed.

(** X23. Deleting a document through the service.  [delete_document]
    answers whether the document was stored and removes it; it asks the
    vector database once to delete the document's chunks, before it looks at
    the repository, and the outcome of that request changes nothing: when it
    fails the document is removed all the same and the answer is the
    same. *)
Theorem delete_document_answer (env : Env) (self : Indexer) (document_id : N) :
  documents_ok (doc_repo self) ->
  let out := delete_document uuid_str env self document_id in
  (fst out = true <-> is_Some (doc_get_by_id (doc_repo self) document_id)) /\
  doc_get_by_id (doc_repo (snd out)) document_id = None /\
  (forall other, other <> document_id ->
     doc_get_by_id (doc_repo (snd out)) other = doc_get_by_id (doc_repo self) other) /\
  client_calls (snd out) = (client_calls self ++ [Delete (uuid_str document_id)])%list /\
  job_repo (snd out) = job_repo self.
Proof.
  intros [Hwf Hids] out. subst out. unfold delete_document, delete_by_document_id.
  assert (Hgoal : forall made : list (@ClientCall float Any),
    let out := (let (success, repo) := doc_delete (doc_repo self) document_id in
                (success,
                 {| doc_repo := repo;
                    job_repo := job_repo self;
                    client_calls := (client_calls self ++ made)%list;
                    chunk_size_config := chunk_size_config self |})) in
    (fst out = true <-> is_Some (doc_get_by_id (doc_repo self) document_id)) /\
    doc_get_by_id (doc_repo (snd out)) document_id = None /\
    (forall other, other <> document_id ->
       doc_get_by_id (doc_repo (snd out)) other = doc_get_by_id (doc_repo self) other) /\
    client_calls (snd out) = (client_calls self ++ made)%list /\
    job_repo (snd out) = job_repo self).
  { intros made. unfold doc_delete, doc_get_by_id, Py.contains.
    destruct (Py.get document_id (documents (doc_repo self))) as [found |] eqn:Hget;
      cbn [fst snd doc_repo job_repo client_calls documents].
    - split; [split; [eauto | reflexivity] |].
      split; [apply get_del_eq, Hwf |].
      split; [intros other Hne; apply get_del_ne; congruence |].
      split; reflexivity.
    - split; [split; [discriminate | intros [x Hx]; discriminate] |].
      split; [exact Hget |]. repeat split. }
  destruct (client_delete env (uuid_str document_id)); apply Hgoal.
Qed.

End IndexingFacts.

(** * The theorems at the example services *)

Lemma example_documents_ok : documents_ok example_documents.
Proof.
  split.
  - unfold Py.wf. cbn. apply NoDup_cons. split; [| apply NoDup_singleton].
    intros Hin. apply list_elem_of_singleton in Hin. discriminate Hin.
  - repeat constructor.
Defined.

Lemma example_uuid_round_trip (u : N) : example_uuid_parse (example_uuid_str u) = Some u.
Proof.
  unfold example_uuid_parse, example_uuid_str. rewrite NilEmpty.usu. cbn.
  rewrite DecimalN.Unsigned.of_to. reflexivity.
Defined.

Lemma document_delete_witness :
  documents_ok example_documents /\
  fst (doc_delete example_documents 7) = true /\
  doc_get_by_id (snd (doc_delete example_documents 7)) 7 = None /\
  doc_get_by_id (snd (doc_delete example_documents 7)) 9 = Some atlas_document.
Proof.
  split; [exact example_documents_ok |].
  destruct (document_delete example_documents 7 example_documents_ok)
    as (Hanswer & Hgone & Hothers & _).
  split; [apply Hanswer; eexists; reflexivity |]. split; [exact Hgone |].
  rewrite Hothers by discriminate. reflexivity.
Defined.

Lemma document_pages_witness :
  0 <= 0 /\ 0 <= 1 /\
  (doc_get_all example_documents 0 1 None ++ doc_get_all example_documents (0 + 1) 1 None)%list =
  doc_get_all example_documents 0 (1 + 1) None.
Proof.
  assert (H0 : 0 <= 0) by lia. assert (H1 : 0 <= 1) by lia.
  split; [exact H0 |]. split; [exact H1 |].
  exact (proj1 (document_pages example_documents 0 1 1 None H0 H1 H1)).
Defined.

Lemma document_selection_witness :
  documents_ok example_documents /\
  Forall (fun d =>
            doc_get_by_id example_documents (doc_id d) = Some d /\
            (status_given (Some "completed") = true ->
             Some (status_value (doc_status d)) = Some "completed"))
         (doc_get_all example_documents (-1) 5 (Some "completed")).
Proof.
  split; [exact example_documents_ok |].
  exact (proj1 (document_selection example_documents (-1) 5 (Some "completed")
                  example_documents_ok)).
Defined.

Lemma agent_query_witness :
  use_agent agent_request = true /\
  query_get_by_id
    (snd (fst (rag_query id example_uuid_str example_uuid_parse "0.0" example_mean_top3
                 example_service 25 42 300 "12.5" agent_request (start_world 0 0)))) 42 =
  Some {| query_id := 42;
          query_text := "What is photosynthesis?";
          filters := None;
          top_k := 5;
          score_threshold := "0.7";
          query_created_at := 300 |}.
Proof.
  split; [reflexivity |].
  exact (proj1 (proj2 (agent_query id example_uuid_str example_uuid_parse "0.0"
                         example_mean_top3 example_service 25 42 300 "12.5" agent_request
                         0 0 eq_refl))).
Defined.

Lemma plain_query_witness :
  use_agent plain_request = false /\
  (forall u, example_uuid_parse (example_uuid_str u) = Some u) /\
  plain_prompt example_results plain_request =
  plain_prompt (take (Z.to_nat (req_top_k plain_request)) example_results) plain_request.
Proof.
  split; [reflexivity |]. split; [exact example_uuid_round_trip |].
  refine (proj2 (plain_query id example_uuid_str example_uuid_parse "0.0" example_mean_top3
                   example_service 25 42 300 "12.5" plain_request (start_world 1 0) eq_refl
                   example_uuid_round_trip) example_results _).
  cbn. lia.
Defined.

Lemma process_stored_document_witness :
  documents_ok (doc_repo example_indexer) /\
  doc_get_by_id (doc_repo example_indexer) 7 = Some tides_document /\
  match fst (process_document example_uuid_str example_isoformat example_env
               example_indexer 7) with
  | inr job => total_chunks job = 2 /\ job_status job = COMPLETED
  | inl _ => False
  end.
Proof.
  split; [exact example_documents_ok |]. split; [reflexivity |].
  pose proof (process_stored_document example_uuid_str example_isoformat example_env
                example_indexer 7 tides_document example_documents_ok eq_refl) as H.
  cbv zeta in H.
  destruct (fst (process_document example_uuid_str example_isoformat example_env
                   example_indexer 7)) as [e | job] eqn:Hrun.
  - vm_compute in Hrun. discriminate Hrun.
  - destruct H as ((parsed & Hparse & Htotal & _) & _ & _ & Hstatus & _).
    split; [| exact Hstatus]. rewrite Htotal. cbn in Hparse. injection Hparse as <-.
    reflexivity.
Defined.

Lemma delete_document_answer_witness :
  documents_ok (doc_repo example_indexer) /\
  client_delete example_env (example_uuid_str 7) = Some "connection refused" /\
  fst (delete_document example_uuid_str example_env example_indexer 7) = true /\
  doc_get_by_id
    (doc_repo (snd (delete_document example_uuid_str example_env example_indexer 7))) 7 = None.
Proof.
  split; [exact example_documents_ok |]. split; [reflexivity |].
  destruct (delete_document_answer example_uuid_str example_env example_indexer 7
              example_documents_ok) as (Hanswer & Hgone & _).
  split; [apply Hanswer; eexists; reflexivity | exact Hgone].
Defined.

Lemma created_document_processed_witness :
  documents_ok (doc_repo example_indexer) /\
  exists stored,
    doc_get_by_id
      (doc_repo (snd (process_document example_uuid_str example_isoformat example_env
                        (snd (create_document example_indexer 11 300 301 "moon.txt"
                                "data/uploads/moon.txt" "text/plain" 45 None)) 11))) 11 =
      Some stored /\
    doc_status stored = COMPLETED.
Proof.
  split; [exact example_documents_ok |].
  destruct (created_document_processed example_uuid_str example_isoformat example_env
              example_indexer 11 300 301 "moon.txt" "data/uploads/moon.txt" "text/plain" 45
              None example_documents_ok) as (_ & _ & _ & _ & _ & _ & stored & Hstored & Hcase).
  exists stored. split; [exact Hstored |].
  destruct (fst (process_document example_uuid_str example_isoformat example_env
                   (snd (create_document example_indexer 11 300 301 "moon.txt"
                           "data/uploads/moon.txt" "text/plain" 45 None)) 11))
    as [e | job] eqn:Hrun.
  - vm_compute in Hrun. discriminate Hrun.
  - destruct Hcase as [-> _]. reflexivity.
Defined.
